(** * gcovr-json-util: the diff, uncovered and filter engines of [pkg/gcovr]

    A shallow embedding of [models.go], [diff.go] and [uncovered.go], of
    the contract of the filter engine, of the totals of the text report and
    of the substring helpers of the test suite, together with the
    properties stated for them.

    Conventions of the embedding.
    - A struct is a record.  Field names are the Go names; where two structs
      share a field name the later one carries a short prefix.
    - Go [int] is modelled by [Z].  Line numbers and counts are read as they
      are, negative values included.  Every counter of the engines is
      bounded by the length of a slice held in memory, so 64-bit wrap-around
      never happens and is not written out.
    - Go [string] is [string]; [==] is equality and [sort.Strings] orders
      byte-wise, which is [String.le].
    - A report is a value: the engines take [*GcovrReport] and dereference
      it at once, so only non-nil reports are modelled.
    - A Go [map] is a [gmap].  A [for k, v := range m] loop visits the keys
      of [m] in an order the language leaves open and that may differ from
      one loop to the next.  Every such loop therefore takes the order in
      which it visits the keys as an argument (a _schedule_), and a schedule
      is admissible when it is a permutation of the keys of the map.  A
      property of the code holds for every admissible schedule.
    - The result pair [(value, error)] of an engine is a pair whose second
      component is [None] for [nil]. *)

From Stdlib Require Import ZArith String Ascii List Lia.
From Stdlib Require Import Floats.PrimFloat.
From stdpp Require Import base gmap strings list fin_maps sorting.

Local Open Scope Z_scope.

(** ** Report model ([models.go]) *)

Record Line := mkLine {
  LineNumber : Z;
  FunctionName : string;
  Count : Z
}.

Record Function := mkFunction {
  Name : string;
  DemangledName : string;
  LineNo : Z;
  ExecutionCount : Z;
  BlocksPercent : float;
  Pos : list string
}.

Record File := mkFile {
  FilePath : string;
  Lines : list Line;
  Functions : list Function
}.

Record GcovrReport := mkReport {
  FormatVersion : string;
  Files : list File
}.

Record FunctionCoverageIncrease := mkIncrease {
  inc_File : string;
  inc_FunctionName : string;
  inc_DemangledName : string;
  LinesIncreased : Z;
  inc_TotalLines : Z;
  IncreasedLineNumbers : list Z;
  OldCoveredLines : Z;
  NewCoveredLines : Z
}.

Record CoverageIncreaseReport := mkIncreaseReport {
  Increases : list FunctionCoverageIncrease
}.

Record FunctionUncovered := mkFunctionUncovered {
  unc_FunctionName : string;
  unc_DemangledName : string;
  UncoveredLineNumbers : list Z;
  unc_TotalLines : Z;
  CoveredLines : Z
}.

Record FileUncovered := mkFileUncovered {
  fu_FilePath : string;
  UncoveredFunctions : list FunctionUncovered
}.

Record UncoveredReport := mkUncoveredReport {
  unc_Files : list FileUncovered
}.

(** Go's [error]; [None] is [nil]. *)
Definition error := option string.

(** [len(s)] of a slice. *)
Definition len {A} (s : list A) : Z := Z.of_nat (length s).

(** ** Iterating over a map *)

(** [for k, v := range m] under the schedule [ks]: the pairs visited. *)
Definition rangeMap `{Countable K} {V} (m : gmap K V) (ks : list K) : list (K * V) :=
  omap (λ k, v ← m !! k; Some (k, v)) ks.

(** The schedules Go may choose for a loop over [m]. *)
Definition range_order `{Countable K} {V} (m : gmap K V) (ks : list K) : Prop :=
  ks ≡ₚ (map_to_list m).*1.

(** ** Diff engine ([diff.go]) *)

Definition buildLineCoverageMap (file : File) : gmap string (gmap Z Z) :=
  foldl (λ result line,
           let result :=
             match result !! FunctionName line with
             | Some _ => result
             | None => <[FunctionName line := ∅]> result
             end in
           <[FunctionName line :=
               <[LineNumber line := Count line]>
                 (default ∅ (result !! FunctionName line))]> result)
        ∅ (Lines file).

Definition buildFunctionNameMap (file : File) : gmap string string :=
  foldl (λ result fn, <[Name fn := DemangledName fn]> result) ∅ (Functions file).

Definition getTotalFunctionLines (file : File) (funcName : string) : Z :=
  foldl (λ count line,
           if decide (FunctionName line = funcName) then count + 1 else count)
        0 (Lines file).

(** The grouping loop of [processNewFile]: covered line numbers by function. *)
Definition groupCoveredLines (file : File) : gmap string (list Z) :=
  foldl (λ funcLines line,
           if 0 <? Count line
           then <[FunctionName line :=
                    default [] (funcLines !! FunctionName line) ++ [LineNumber line]]>
                  funcLines
           else funcLines)
        ∅ (Lines file).

(** [demangledName := m[funcName]; if demangledName == "" { demangledName = funcName }] *)
Definition demangledOr (m : gmap string string) (funcName : string) : string :=
  let demangledName := default EmptyString (m !! funcName) in
  if decide (demangledName = EmptyString) then funcName else demangledName.

Definition processNewFile (funcOrder : list string) (file : File)
  : list FunctionCoverageIncrease :=
  let funcLines := groupCoveredLines file in
  let funcDemangledName := buildFunctionNameMap file in
  foldl (λ increases '(funcName, lineNumbers),
           increases ++
             [ {| inc_File := FilePath file;
                  inc_FunctionName := funcName;
                  inc_DemangledName := demangledOr funcDemangledName funcName;
                  LinesIncreased := len lineNumbers;
                  inc_TotalLines := getTotalFunctionLines file funcName;
                  IncreasedLineNumbers := lineNumbers;
                  OldCoveredLines := 0;
                  NewCoveredLines := len lineNumbers |} ])
        [] (rangeMap funcLines funcOrder).

(** The three accumulators of the inner loop of [compareFunctions]. *)
Record lineAcc := mkAcc {
  increasedLines : list Z;
  oldCoveredCount : Z;
  newCoveredCount : Z
}.

(** [baseCount := 0; if exists { baseCount = baseLines[lineNum] }] *)
Definition baseCountOf (baseLines : option (gmap Z Z)) (lineNum : Z) : Z :=
  match baseLines with
  | Some bl => default 0 (bl !! lineNum)
  | None => 0
  end.

Definition compareLine (baseLines : option (gmap Z Z)) (acc : lineAcc)
    (kv : Z * Z) : lineAcc :=
  let '(lineNum, newCount) := kv in
  let baseCount := baseCountOf baseLines lineNum in
  {| oldCoveredCount :=
       if 0 <? baseCount then oldCoveredCount acc + 1 else oldCoveredCount acc;
     newCoveredCount :=
       if 0 <? newCount then newCoveredCount acc + 1 else newCoveredCount acc;
     increasedLines :=
       if (baseCount =? 0) && (0 <? newCount)
       then increasedLines acc ++ [lineNum] else increasedLines acc |}.

(** What one iteration of the outer loop of [compareFunctions] appends. *)
Definition compareFunction (lineOrder : list Z)
    (baseCoverage : gmap string (gmap Z Z)) (funcNames : gmap string string)
    (newFile : File) (funcName : string) (newLines : gmap Z Z)
  : list FunctionCoverageIncrease :=
  let acc := foldl (compareLine (baseCoverage !! funcName)) (mkAcc [] 0 0)
                   (rangeMap newLines lineOrder) in
  if 0 <? len (increasedLines acc)
  then [ {| inc_File := FilePath newFile;
            inc_FunctionName := funcName;
            inc_DemangledName := demangledOr funcNames funcName;
            LinesIncreased := len (increasedLines acc);
            inc_TotalLines := getTotalFunctionLines newFile funcName;
            IncreasedLineNumbers := increasedLines acc;
            OldCoveredLines := oldCoveredCount acc;
            NewCoveredLines := newCoveredCount acc |} ]
  else [].

(** The iteration orders of the loops run for one file of the new report:
    the order of the functions, and for each function the order of its
    line numbers. *)
Record FileSchedule := mkSchedule {
  funcOrder : list string;
  lineOrder : string → list Z
}.

Definition compareFunctions (s : FileSchedule) (baseFile newFile : File)
  : list FunctionCoverageIncrease :=
  let baseCoverage := buildLineCoverageMap baseFile in
  let newCoverage := buildLineCoverageMap newFile in
  let funcNames := buildFunctionNameMap newFile in
  foldl (λ increases '(funcName, newLines),
           increases ++
             compareFunction (lineOrder s funcName) baseCoverage funcNames
               newFile funcName newLines)
        [] (rangeMap newCoverage (funcOrder s)).

(** [baseFileMap]: the files of the base report by path, later entries
    replacing earlier ones. *)
Definition baseFileMapOf (baseReport : GcovrReport) : gmap string File :=
  foldl (λ m f, <[FilePath f := f]> m) ∅ (Files baseReport).

(** What the body of the main loop appends for [newFile]. *)
Definition fileIncreases (s : FileSchedule) (baseFileMap : gmap string File)
    (newFile : File) : list FunctionCoverageIncrease :=
  match baseFileMap !! FilePath newFile with
  | None => processNewFile (funcOrder s) newFile
  | Some baseFile => compareFunctions s baseFile newFile
  end.

Definition ComputeCoverageIncrease (sched : nat → FileSchedule)
    (baseReport newReport : GcovrReport) : CoverageIncreaseReport * error :=
  let baseFileMap := baseFileMapOf baseReport in
  let increases :=
    foldl (λ increases '(i, newFile),
             increases ++ fileIncreases (sched i) baseFileMap newFile)
          [] (imap pair (Files newReport)) in
  ({| Increases := increases |}, None).

(** A schedule is admissible for [ComputeCoverageIncrease] when every loop
    over a map visits each key of its map once. *)
Definition file_schedule_ok (s : FileSchedule) (baseFileMap : gmap string File)
    (newFile : File) : Prop :=
  match baseFileMap !! FilePath newFile with
  | None => range_order (groupCoveredLines newFile) (funcOrder s)
  | Some _ =>
      range_order (buildLineCoverageMap newFile) (funcOrder s) ∧
      ∀ funcName newLines,
        buildLineCoverageMap newFile !! funcName = Some newLines →
        range_order newLines (lineOrder s funcName)
  end.

Definition diff_schedule_ok (sched : nat → FileSchedule)
    (baseReport newReport : GcovrReport) : Prop :=
  ∀ i newFile, Files newReport !! i = Some newFile →
    file_schedule_ok (sched i) (baseFileMapOf baseReport) newFile.

(** The schedule that follows the order in which [gmap] lists its keys. *)
Definition canonicalFileSchedule (baseFileMap : gmap string File)
    (newFile : File) : FileSchedule :=
  match baseFileMap !! FilePath newFile with
  | None => mkSchedule (map_to_list (groupCoveredLines newFile)).*1 (λ _, [])
  | Some _ =>
      let newCoverage := buildLineCoverageMap newFile in
      mkSchedule (map_to_list newCoverage).*1
        (λ funcName, (map_to_list (default ∅ (newCoverage !! funcName))).*1)
  end.

Definition canonicalDiffSchedule (baseReport newReport : GcovrReport)
  : nat → FileSchedule :=
  λ i, match Files newReport !! i with
       | Some newFile => canonicalFileSchedule (baseFileMapOf baseReport) newFile
       | None => mkSchedule [] (λ _, [])
       end.

(** ** Uncovered engine ([uncovered.go]) *)

(** [sort.Ints] and [sort.Strings] rearrange a slice into ascending order.
    The ascending arrangement of a list is unique ([sortInts_unique] and
    [sortStrings_unique] below), so the algorithm Go runs does not matter
    and a merge sort stands for it. *)
Definition sortInts (a : list Z) : list Z := merge_sort Z.le a.
Definition sortStrings (a : list string) : list string := merge_sort String.le a.

(** The "find uncovered lines" loop over the lines of one file. *)
Definition collectUncovered (file : File) : gmap string (list Z) :=
  foldl (λ m line,
           if Count line =? 0
           then
             let m :=
               match m !! FunctionName line with
               | Some _ => m
               | None => <[FunctionName line := []]> m
               end in
             <[FunctionName line :=
                 default [] (m !! FunctionName line) ++ [LineNumber line]]> m
           else m)
        ∅ (Lines file).

(** The two maps filled by the first pass, both keyed by file path.  The
    metadata loop is the loop of [buildFunctionNameMap]. *)
Record uncoveredMaps := mkMaps {
  uncoveredMap : gmap string (gmap string (list Z));
  funcMetadata : gmap string (gmap string string)
}.

Definition firstPass (report : GcovrReport) : uncoveredMaps :=
  foldl (λ st file,
           {| uncoveredMap :=
                <[FilePath file := collectUncovered file]> (uncoveredMap st);
              funcMetadata :=
                <[FilePath file := buildFunctionNameMap file]> (funcMetadata st) |})
        (mkMaps ∅ ∅) (Files report).

(** [totalLines] and [coveredLines] of one function. *)
Definition functionStats (fileObj : File) (funcName : string) : Z * Z :=
  foldl (λ '(totalLines, coveredLines) line,
           if decide (FunctionName line = funcName)
           then (totalLines + 1,
                 if 0 <? Count line then coveredLines + 1 else coveredLines)
           else (totalLines, coveredLines))
        (0, 0) (Lines fileObj).

(** The loop over the functions of one file in the second pass. *)
Definition uncoveredFunctionsOf (funcOrder : list string) (fileObj : File)
    (funcUncovered : gmap string (list Z)) (metadata : gmap string string)
  : list FunctionUncovered :=
  foldl (λ fns '(funcName, uncoveredLines),
           if len uncoveredLines =? 0 then fns
           else
             let '(totalLines, coveredLines) := functionStats fileObj funcName in
             fns ++
               [ {| unc_FunctionName := funcName;
                    unc_DemangledName := demangledOr metadata funcName;
                    UncoveredLineNumbers := sortInts uncoveredLines;
                    unc_TotalLines := totalLines;
                    CoveredLines := coveredLines |} ])
        [] (rangeMap funcUncovered funcOrder).

(** The iteration orders of [FindUncoveredLines]: the order of the file
    paths of [uncoveredMap], and for each path the order of its functions. *)
Record UncoveredSchedule := mkUncoveredSchedule {
  pathOrder : list string;
  uncFuncOrder : string → list string
}.

(** [filePaths], before and after [sort.Strings]. *)
Definition uncoveredFilePaths (pathOrder : list string)
    (uncoveredMap : gmap string (gmap string (list Z))) : list string :=
  sortStrings
    (foldl (λ filePaths '(filePath, funcs),
              if 0 <? Z.of_nat (size (funcs : gmap string (list Z)))
              then filePaths ++ [filePath] else filePaths)
           [] (rangeMap uncoveredMap pathOrder)).

Definition FindUncoveredLines (s : UncoveredSchedule) (report : GcovrReport)
  : UncoveredReport * error :=
  let st := firstPass report in
  let filePaths := uncoveredFilePaths (pathOrder s) (uncoveredMap st) in
  let files :=
    foldl (λ files filePath,
             let funcUncovered := default ∅ (uncoveredMap st !! filePath) in
             match list_find (λ f, FilePath f = filePath) (Files report) with
             | None => files
             | Some (_, fileObj) =>
                 let fns :=
                   uncoveredFunctionsOf (uncFuncOrder s filePath) fileObj
                     funcUncovered (default ∅ (funcMetadata st !! filePath)) in
                 if 0 <? len fns
                 then files ++
                        [ {| fu_FilePath := filePath; UncoveredFunctions := fns |} ]
                 else files
             end)
          [] filePaths in
  ({| unc_Files := files |}, None).

Definition uncovered_schedule_ok (s : UncoveredSchedule) (report : GcovrReport)
  : Prop :=
  let st := firstPass report in
  range_order (uncoveredMap st) (pathOrder s) ∧
  ∀ filePath funcs, uncoveredMap st !! filePath = Some funcs →
    range_order funcs (uncFuncOrder s filePath).

Definition canonicalUncoveredSchedule (report : GcovrReport) : UncoveredSchedule :=
  let st := firstPass report in
  mkUncoveredSchedule (map_to_list (uncoveredMap st)).*1
    (λ filePath, (map_to_list (default ∅ (uncoveredMap st !! filePath))).*1).

(** *** The earlier, flat version of the engine

    The repository also carries the version of [FindUncoveredLines] that
    returns one flat list of records, each naming its file.  Its second pass
    walks [report.Files] instead of the sorted paths. *)

(** The [File] of the report model; inside [Flat] the name is taken by the
    field of the record. *)
Abbreviation ReportFile := File (only parsing).

Module Flat.

Record FunctionUncovered := mkFunctionUncovered {
  File : string;
  FunctionName : string;
  DemangledName : string;
  UncoveredLineNumbers : list Z;
  TotalLines : Z;
  CoveredLines : Z
}.

Record UncoveredReport := mkUncoveredReport {
  UncoveredFunctions : list FunctionUncovered
}.

(** The loop over the functions of one file.  [sort.Ints] sorts the slice
    held by the map in place; when a path is visited again the sorted slice
    is sorted again, with the same result. *)
Definition fileRecords (funcOrder : list string) (file : ReportFile)
    (funcUncovered : gmap string (list Z)) (metadata : gmap string string)
  : list FunctionUncovered :=
  foldl (λ fns '(funcName, uncoveredLines),
           if len uncoveredLines =? 0 then fns
           else
             let '(totalLines, coveredLines) := functionStats file funcName in
             fns ++
               [ {| File := FilePath file;
                    FunctionName := funcName;
                    DemangledName := demangledOr metadata funcName;
                    UncoveredLineNumbers := sortInts uncoveredLines;
                    TotalLines := totalLines;
                    CoveredLines := coveredLines |} ])
        [] (rangeMap funcUncovered funcOrder).

(** [funcOrderAt i] is the order in which the functions of the [i]-th file
    are visited. *)
Definition FindUncoveredLines (funcOrderAt : nat → list string)
    (report : GcovrReport) : UncoveredReport * error :=
  let st := firstPass report in
  let fns :=
    foldl (λ fns '(i, file),
             fns ++
               fileRecords (funcOrderAt i) file
                 (default ∅ (uncoveredMap st !! FilePath file))
                 (default ∅ (funcMetadata st !! FilePath file)))
          [] (imap pair (Files report)) in
  ({| UncoveredFunctions := fns |}, None).

End Flat.

(** ** Filter engine

    [filter.go] is not among the sources at hand; only its tests are.  The
    definitions of this section follow the written contract of the engine. *)

Record TargetFile := mkTarget {
  tgt_File : string;
  tgt_Functions : list string
}.

Record FilterConfig := mkFilterConfig {
  Targets : list TargetFile
}.

(** Modelled from the spec: the base identifier of a demangled name, missing
    with [filter.go].  It is the substring preceding the first ['('], and the
    whole name when there is none. *)
Fixpoint baseIdentifier (demangledName : string) : string :=
  match demangledName with
  | EmptyString => EmptyString
  | String c rest =>
      if Ascii.eqb c "("%char then EmptyString
      else String c (baseIdentifier rest)
  end.

(** Modelled from the spec: [shouldIncludeFunction] of the missing
    [filter.go], the three-way test of a function against the allowed set of
    a target: mangled name, full demangled name, base identifier. *)
Definition shouldIncludeFunction (demangledName mangledName : string)
    (allowedFunctions : gset string) : bool :=
  bool_decide (mangledName ∈ allowedFunctions)
  || bool_decide (demangledName ∈ allowedFunctions)
  || bool_decide (baseIdentifier demangledName ∈ allowedFunctions).

Section Filter.

(** [normalizeFilePath] is [filepath.ToSlash (filepath.Clean path)] and
    [baseName] is [filepath.Base]; both belong to Go's library and stay
    abstract. *)
Variable normalizeFilePath : string → string.
Variable baseName : string → string.

(** Modelled from the spec: the file matching policy of the missing
    [filter.go].  A file matches a target when the normalized paths are equal
    or the base file names are.  The contract does not say which target
    applies when several match; the first in the order of the specification
    is taken here. *)
Definition matchTarget (targets : list TargetFile) (filePath : string)
  : option TargetFile :=
  snd <$>
    list_find (λ t,
                 normalizeFilePath (tgt_File t) = normalizeFilePath filePath ∨
                 baseName (normalizeFilePath (tgt_File t))
                 = baseName (normalizeFilePath filePath))
              targets.

(** Modelled from the spec: the test of a line in the missing [filter.go].
    A line carries no demangled name; it is tested through the function
    entry that carries its name, and dropped when there is none. *)
Definition shouldIncludeLine (funcNames : gmap string string)
    (allowedFunctions : gset string) (line : Line) : bool :=
  match funcNames !! FunctionName line with
  | Some demangledName =>
      shouldIncludeFunction demangledName (FunctionName line) allowedFunctions
  | None => false
  end.

(** Modelled from the spec: what the missing [filter.go] keeps of a matching
    file; a function is tested on its own names. *)
Definition filterFile (allowedFunctions : gset string) (file : File) : File :=
  let funcNames := buildFunctionNameMap file in
  {| FilePath := FilePath file;
     Lines :=
       filter (λ line, shouldIncludeLine funcNames allowedFunctions line = true)
              (Lines file);
     Functions :=
       filter (λ fn,
                 shouldIncludeFunction (DemangledName fn) (Name fn)
                   allowedFunctions = true)
              (Functions file) |}.

(** Modelled from the spec: [ApplyFilter] of the missing [filter.go].  An
    absent specification ([nil], here [None]) or one without targets passes
    the report through; otherwise files without a matching target, and files
    left without a function, are dropped. *)
Definition ApplyFilter (report : GcovrReport) (filterSpec : option FilterConfig)
  : GcovrReport :=
  match filterSpec with
  | None => report
  | Some config =>
      match Targets config with
      | [] => report
      | targets =>
          {| FormatVersion := FormatVersion report;
             Files :=
               omap (λ file,
                       target ← matchTarget targets (FilePath file);
                       let filtered :=
                         filterFile (list_to_set (tgt_Functions target)) file in
                       if 0 <? len (Functions filtered) then Some filtered
                       else None)
                    (Files report) |}
      end
  end.

End Filter.

(** ** The totals of [FormatUncoveredReport]

    The first loop of [FormatUncoveredReport]: the number of function
    records and the number of uncovered line numbers, which the header of
    the text report prints.  The rest of the function formats numbers and
    is not modelled. *)
Definition uncoveredTotals (report : UncoveredReport) : Z * Z :=
  foldl (λ '(totalFunctions, totalUncoveredLines) file,
           (totalFunctions + len (UncoveredFunctions file),
            foldl (λ totalUncoveredLines fn,
                     totalUncoveredLines + len (UncoveredLineNumbers fn))
                  totalUncoveredLines (UncoveredFunctions file)))
        (0, 0) (unc_Files report).

(** ** Helpers of the test suite

    Go strings are byte strings: [len(s)] is [String.length] and the slice
    [s[i:j]] is the substring of the [j - i] bytes from index [i]. The slice
    expression panics unless [0 ≤ i ≤ j ≤ len(s)]; the model returns [None]
    there, and a panic anywhere makes the whole call [None]. *)

Definition strLen (s : string) : Z := Z.of_nat (String.length s).

Definition slice (s : string) (i j : Z) : option string :=
  if bool_decide (0 ≤ i ∧ i ≤ j ∧ j ≤ strLen s)
  then Some (substring (Z.to_nat i) (Z.to_nat (j - i)) s)
  else None.

(** The loop [for i := 0; i <= len(s)-len(substr); i++] of [containsHelper]
    and of [containsString], over the values [i] takes. *)
Fixpoint substringLoop (s substr : string) (indices : list Z) : option bool :=
  match indices with
  | [] => Some false
  | i :: rest =>
      match slice s i (i + strLen substr) with
      | None => None
      | Some piece =>
          if String.eqb piece substr then Some true
          else substringLoop s substr rest
      end
  end.

Definition containsHelper (s substr : string) : option bool :=
  substringLoop s substr (seqZ 0 (strLen s - strLen substr + 1)).

Definition contains (s substr : string) : option bool :=
  if bool_decide (strLen s >= strLen substr) then
    if String.eqb s substr then Some true
    else if bool_decide (strLen substr = 0) then Some true
    else containsHelper s substr
  else Some false.

Definition containsString (s substr : string) : option bool :=
  if bool_decide (strLen substr = 0) then Some true
  else substringLoop s substr (seqZ 0 (strLen s - strLen substr + 1)).

(** ** Vocabulary of the properties *)

(** [None] for the empty list: a map filled by [append] never holds an
    empty slice. *)
Definition nonempty {A} (l : list A) : option (list A) :=
  match l with [] => None | _ => Some l end.

(** The entry of a function list that names [funcName] for display: the
    last one with that mangled name. *)
Definition lastFunctionNamed (fns : list Function) (funcName : string)
  : option Function :=
  last (filter (λ f, Name f = funcName) fns).

(** The display name: the demangled name of that entry, and the mangled
    name when there is no entry or its demangled name is empty. *)
Definition displayName (fns : list Function) (funcName : string) : string :=
  match lastFunctionNamed fns funcName with
  | Some f =>
      if decide (DemangledName f = EmptyString) then funcName
      else DemangledName f
  | None => funcName
  end.

(** The last file of a list with a given path. *)
Definition lastFileAt (files : list File) (path : string) : option File :=
  last (filter (λ f, FilePath f = path) files).

(** The count of line [lineNum] of function [funcName] in the line-coverage
    map of [file]; 0 when the function or the line is not in the map. *)
Definition countIn (file : File) (funcName : string) (lineNum : Z) : Z :=
  baseCountOf (buildLineCoverageMap file !! funcName) lineNum.

(** The count a file gives for line [lineNum] of function [funcName]: that of
    the last of its lines with this function name and line number; [None]
    when it has no such line. *)
Definition lineCountAt (file : File) (funcName : string) (lineNum : Z)
  : option Z :=
  Count <$> last (filter (λ l, FunctionName l = funcName ∧ LineNumber l = lineNum)
                         (Lines file)).

(** The same, with 0 for a line the file does not have. *)
Definition countAt (file : File) (funcName : string) (lineNum : Z) : Z :=
  default 0 (lineCountAt file funcName lineNum).

(** The line numbers of the lines of function [funcName] in [file], each
    once. *)
Definition lineNumbersOf (file : File) (funcName : string) : list Z :=
  remove_dups (LineNumber <$> filter (λ l, FunctionName l = funcName) (Lines file)).

(** What each file of the new report contributes to the result of
    [ComputeCoverageIncrease], file by file. *)
Definition increaseChunks (sched : nat → FileSchedule)
    (baseReport newReport : GcovrReport) : list (list FunctionCoverageIncrease) :=
  imap (λ i newFile, fileIncreases (sched i) (baseFileMapOf baseReport) newFile)
       (Files newReport).

(** The record [processNewFile] builds for one entry of [funcLines], its
    name and line count written through the lists they abbreviate. *)
Definition newFileRecord (file : File) (kv : string * list Z)
  : FunctionCoverageIncrease :=
  {| inc_File := FilePath file;
     inc_FunctionName := kv.1;
     inc_DemangledName := displayName (Functions file) kv.1;
     LinesIncreased := len kv.2;
     inc_TotalLines := len (filter (λ l, FunctionName l = kv.1) (Lines file));
     IncreasedLineNumbers := kv.2;
     OldCoveredLines := 0;
     NewCoveredLines := len kv.2 |}.

(** Two increase records that differ at most in the order of
    [IncreasedLineNumbers]. *)
Definition same_increase (r1 r2 : FunctionCoverageIncrease) : Prop :=
  inc_File r1 = inc_File r2 ∧
  inc_FunctionName r1 = inc_FunctionName r2 ∧
  inc_DemangledName r1 = inc_DemangledName r2 ∧
  LinesIncreased r1 = LinesIncreased r2 ∧
  inc_TotalLines r1 = inc_TotalLines r2 ∧
  IncreasedLineNumbers r1 ≡ₚ IncreasedLineNumbers r2 ∧
  OldCoveredLines r1 = OldCoveredLines r2 ∧
  NewCoveredLines r1 = NewCoveredLines r2.

(** Two lists of increase records that hold the same records in some order,
    each up to the order of its line numbers. *)
Definition same_increases (c1 c2 : list FunctionCoverageIncrease) : Prop :=
  ∃ c2', c2 ≡ₚ c2' ∧ Forall2 same_increase c1 c2'.

(** The first file of a list with a given path. *)
Definition firstFileAt (files : list File) (path : string) : option File :=
  head (filter (λ f, FilePath f = path) files).

(** The record [FindUncoveredLines] builds for one entry of the function map
    of a path. *)
Definition uncoveredRecord (fileObj : File) (metadata : gmap string string)
    (kv : string * list Z) : FunctionUncovered :=
  {| unc_FunctionName := kv.1;
     unc_DemangledName := demangledOr metadata kv.1;
     UncoveredLineNumbers := sortInts kv.2;
     unc_TotalLines := (functionStats fileObj kv.1).1;
     CoveredLines := (functionStats fileObj kv.1).2 |}.

(** What one iteration of the second pass of [FindUncoveredLines] appends. *)
Definition uncoveredFileOf (s : UncoveredSchedule) (report : GcovrReport)
    (filePath : string) : list FileUncovered :=
  match firstFileAt (Files report) filePath with
  | None => []
  | Some fileObj =>
      let fns :=
        uncoveredFunctionsOf (uncFuncOrder s filePath) fileObj
          (default ∅ (uncoveredMap (firstPass report) !! filePath))
          (default ∅ (funcMetadata (firstPass report) !! filePath)) in
      if 0 <? len fns
      then [ {| fu_FilePath := filePath; UncoveredFunctions := fns |} ]
      else []
  end.

(** [c] occurs in [s]. *)
Fixpoint occurs (c : ascii) (s : string) : Prop :=
  match s with
  | EmptyString => False
  | String c' rest => c = c' ∨ occurs c rest
  end.

(** [base] is the part of [demangledName] before its first ['('], or all of
    it when it has none. *)
Definition is_base_identifier (demangledName base : string) : Prop :=
  ¬ occurs "("%char base ∧
  (demangledName = base ∨
   ∃ rest, demangledName = String.append base (String "("%char rest)).

(** The uncovered lines a result lists, each with its file path and
    function name. *)
Definition uncoveredEntriesOf (fu : FileUncovered) : list (string * string * Z) :=
  r ← UncoveredFunctions fu;
  (λ lineNum, (fu_FilePath fu, unc_FunctionName r, lineNum))
    <$> UncoveredLineNumbers r.

Definition uncoveredEntries (files : list FileUncovered)
  : list (string * string * Z) :=
  files ≫= uncoveredEntriesOf.

(** The lines of count 0 of a file and of a report, in the same form. *)
Definition zeroCountLinesOf (file : File) : list (string * string * Z) :=
  (λ l, (FilePath file, FunctionName l, LineNumber l))
    <$> filter (λ l, Count l = 0) (Lines file).

Definition zeroCountLines (report : GcovrReport) : list (string * string * Z) :=
  Files report ≫= zeroCountLinesOf.

(** The record of the flat version that carries what the record [r], listed
    under [filePath], carries. *)
Definition flatRecord (filePath : string) (r : FunctionUncovered)
  : Flat.FunctionUncovered :=
  {| Flat.File := filePath;
     Flat.FunctionName := unc_FunctionName r;
     Flat.DemangledName := unc_DemangledName r;
     Flat.UncoveredLineNumbers := UncoveredLineNumbers r;
     Flat.TotalLines := unc_TotalLines r;
     Flat.CoveredLines := CoveredLines r |}.

Definition flatten (files : list FileUncovered) : list Flat.FunctionUncovered :=
  fu ← files; flatRecord (fu_FilePath fu) <$> UncoveredFunctions fu.

(** The orders in which the flat version may visit the functions of the
    files of [report]. *)
Definition flat_schedule_ok (funcOrderAt : nat → list string)
    (report : GcovrReport) : Prop :=
  ∀ i file, Files report !! i = Some file →
    range_order (default ∅ (uncoveredMap (firstPass report) !! FilePath file))
                (funcOrderAt i).

(** [substr] occurs in [s]. *)
Definition is_substring (substr s : string) : Prop :=
  ∃ pre post : string, s = (pre +:+ substr +:+ post)%string.

(** *** Concrete reports and iteration orders

    Reports of the test suite and of the scenarios, with iteration orders
    to run the engines under. *)

(** A function entry with a mangled and a demangled name. *)
Definition fn (name demangled : string) : Function :=
  mkFunction name demangled 0 0 0%float [].

(** The reports of [TestComputeCoverageIncrease_DetailedMetrics]. *)
Definition t_base : GcovrReport :=
  mkReport "" [ mkFile "demo.cpp"
                  [mkLine 1 "foo" 1; mkLine 2 "foo" 0;
                   mkLine 3 "foo" 0; mkLine 4 "foo" 1]
                  [fn "foo" "foo()"] ].

Definition t_new : GcovrReport :=
  mkReport "" [ mkFile "demo.cpp"
                  [mkLine 1 "foo" 1; mkLine 2 "foo" 1;
                   mkLine 3 "foo" 1; mkLine 4 "foo" 1]
                  [fn "foo" "foo()"] ].

(** Every file visits its functions in the order [funcs] and every function
    its line numbers in the order [lines]. *)
Definition visiting (funcs : list string) (lines : list Z) : nat → FileSchedule :=
  λ _, mkSchedule funcs (λ _, lines).

(** End-to-end scenario 1: one function whose three lines are all covered
    in the new report. *)
Definition s1_baseFile : File :=
  mkFile "t.cpp" [mkLine 1 "foo" 0; mkLine 2 "foo" 0; mkLine 3 "foo" 1]
         [fn "foo" "foo()"].

Definition s1_newFile : File :=
  mkFile "t.cpp" [mkLine 1 "foo" 1; mkLine 2 "foo" 1; mkLine 3 "foo" 1]
         [fn "foo" "foo()"].

Definition s1_base : GcovrReport := mkReport "" [s1_baseFile].
Definition s1_new : GcovrReport := mkReport "" [s1_newFile].
Definition s1_newLines : gmap Z Z := <[1 := 1]> (<[2 := 1]> (<[3 := 1]> ∅)).

(** "Multiple functions with increases" of [TestComputeCoverageIncrease]. *)
Definition mf_base : GcovrReport :=
  mkReport "" [ mkFile "test.cpp" [mkLine 1 "foo" 0; mkLine 5 "bar" 0]
                  [fn "foo" "foo()"; fn "bar" "bar()"] ].

Definition mf_new : GcovrReport :=
  mkReport "" [ mkFile "test.cpp" [mkLine 1 "foo" 1; mkLine 5 "bar" 1]
                  [fn "foo" "foo()"; fn "bar" "bar()"] ].

(** Its functions visited in the order [funcs]; each has one line. *)
Definition mf_visiting (funcs : list string) : nat → FileSchedule :=
  λ _, mkSchedule funcs (λ funcName, if decide (funcName = "foo") then [1] else [5]).

(** "New file in new report" of [TestComputeCoverageIncrease]. *)
Definition nf_base : GcovrReport := mkReport "" [].

Definition nf_newFile : File :=
  mkFile "new.cpp" [mkLine 1 "bar" 1; mkLine 2 "bar" 1] [fn "bar" "bar()"].

Definition nf_new : GcovrReport := mkReport "" [nf_newFile].

(** The same new report with a second file, which the base report does not
    have; the functions of the first file are visited in the order [funcs]. *)
Definition mfn_new : GcovrReport :=
  mkReport "" (Files mf_new ++ [nf_newFile]).

Definition mfn_visiting (funcs : list string) : nat → FileSchedule :=
  λ i, match i with
       | O => mf_visiting funcs i
       | _ => visiting ["bar"] [] i
       end.

(** The report of [TestFindUncoveredLines_Statistics]. *)
Definition st_report : GcovrReport :=
  mkReport "" [ mkFile "test.cpp"
                  [mkLine 1 "foo" 1; mkLine 2 "foo" 0; mkLine 3 "foo" 0;
                   mkLine 4 "foo" 1; mkLine 5 "foo" 1]
                  [fn "foo" "foo()"] ].

Definition st_schedule : UncoveredSchedule :=
  mkUncoveredSchedule ["test.cpp"] (λ _, ["foo"]).

Definition st_record : FunctionUncovered :=
  mkFunctionUncovered "foo" "foo()" [2; 3] 5 3.

Definition st_flat_record : Flat.FunctionUncovered :=
  Flat.mkFunctionUncovered "test.cpp" "foo" "foo()" [2; 3] 5 3.

(** The report of [TestFindUncoveredLines_GroupedByFile], its paths and
    functions visited in descending order. *)
Definition gf_report : GcovrReport :=
  mkReport ""
    [ mkFile "file1.cpp"
        [mkLine 1 "foo" 0; mkLine 2 "foo" 0; mkLine 10 "bar" 0]
        [fn "foo" "foo()"; fn "bar" "bar()"];
      mkFile "file2.cpp" [mkLine 5 "baz" 0] [fn "baz" "baz()"] ].

Definition gf_schedule : UncoveredSchedule :=
  mkUncoveredSchedule ["file2.cpp"; "file1.cpp"]
    (λ filePath, if decide (filePath = "file1.cpp") then ["foo"; "bar"] else ["baz"]).

(** A report that lists the path [a.cpp] twice, the zero-count line in the
    second entry. *)
Definition dup_report : GcovrReport :=
  mkReport "" [ mkFile "a.cpp" [] []; mkFile "a.cpp" [mkLine 1 "f" 0] [] ].

(** The same with the zero-count line in the first entry. *)
Definition dup_first : File := mkFile "a.cpp" [mkLine 1 "f" 0] [].
Definition dup_report' : GcovrReport :=
  mkReport "" [ dup_first; mkFile "a.cpp" [] [] ].

(** A report with a negative count. *)
Definition neg_report : GcovrReport :=
  mkReport "" [ mkFile "a.cpp" [mkLine 1 "f" 0; mkLine 2 "f" (-1)] [] ].

(** A report that lists line 5 of [f] twice. *)
Definition rep_report : GcovrReport :=
  mkReport "" [ mkFile "a.cpp" [mkLine 5 "f" 0; mkLine 5 "f" 0] [] ].

(** A report whose function entry has an empty demangled name. *)
Definition em_report : GcovrReport :=
  mkReport "" [ mkFile "a.cpp" [mkLine 1 "_Z1fv" 0] [fn "_Z1fv" ""] ].

Definition a_schedule (funcs : list string) : UncoveredSchedule :=
  mkUncoveredSchedule ["a.cpp"] (λ _, funcs).

(** End-to-end scenario 3: the filter target names [f], the report has the
    function by its mangled name [_Z1fv] and its demangled name [f()]. *)
Definition sc3_f : Function := fn "_Z1fv" "f()".

Definition sc3_file : File :=
  mkFile "demo.cc" [mkLine 1 "_Z1fv" 1; mkLine 5 "_Z1gv" 0]
         [sc3_f; fn "_Z1gv" "g()"].

Definition sc3_report : GcovrReport := mkReport "0.5" [sc3_file].
Definition sc3_target : TargetFile := mkTarget "demo.cc" ["f"].
Definition sc3_config : FilterConfig := mkFilterConfig [sc3_target].

(** The report and the filter of [TestApplyFilter_LinesFiltering]. *)
Definition lf_report : GcovrReport :=
  mkReport ""
    [ mkFile "test.cpp"
        [mkLine 1 "foo" 1; mkLine 2 "foo" 0; mkLine 5 "bar" 1; mkLine 6 "bar" 1]
        [fn "foo" "foo()"; fn "bar" "bar()"] ].

Definition lf_config : FilterConfig :=
  mkFilterConfig [mkTarget "test.cpp" ["foo"]].

(** The record of scenario 1 and the iteration order of the uncovered
    engine on its base report. *)
Definition s1_record : FunctionCoverageIncrease :=
  mkIncrease "t.cpp" "foo" "foo()" 2 3 [1; 2] 1 3.

Definition s1_uncoveredSchedule : UncoveredSchedule :=
  mkUncoveredSchedule ["t.cpp"] (λ _, ["foo"]).

(** The entry of [file1.cpp] in the result on [gf_report]. *)
Definition gf_file1 : FileUncovered :=
  mkFileUncovered "file1.cpp"
    [mkFunctionUncovered "foo" "foo()" [1; 2] 2 0;
     mkFunctionUncovered "bar" "bar()" [10] 1 0].

(** An order in which the flat version may visit the functions of the two
    files of [gf_report]. *)
Definition gf_flatOrder : nat → list string :=
  λ i, match i with O => ["bar"; "foo"] | _ => ["baz"] end.

(** ** Tactics for concrete runs *)

(** Deciding by computation that a given order is admissible. *)
Ltac admissible_order :=
  lazymatch goal with
  | |- range_order ?m ?ks =>
      apply (bool_decide_unpack (ks ≡ₚ (map_to_list m).*1)); vm_compute; exact I
  end.

Ltac each_admissible_order :=
  lazymatch goal with
  | |- ∀ k v, ?m !! k = Some v → @?P k v =>
      apply (map_Forall_to_list P m);
      let l := eval vm_compute in (map_to_list m) in
      change (Forall (uncurry P) l);
      repeat (apply Forall_cons; split; [cbn [uncurry fst snd]; admissible_order|]);
      apply Forall_nil_2
  end.


Ltac file_schedule_by_computation :=
  unfold file_schedule_ok;
  lazymatch goal with
  | |- match ?o with _ => _ end =>
      let x := eval vm_compute in o in change o with x; cbv beta iota
  end;
  first [ admissible_order | split; [admissible_order | each_admissible_order] ].

(** For a report of one file. *)
Ltac diff_schedule_by_computation :=
  let i := fresh "i" in
  let f := fresh "f" in
  let Hi := fresh "Hi" in
  intros i f Hi; destruct i as [|i]; [|discriminate Hi];
  injection Hi as <-; file_schedule_by_computation.

Ltac uncovered_schedule_by_computation :=
  unfold uncovered_schedule_ok; cbv zeta;
  split; [admissible_order | each_admissible_order].

(** * Sanity checks taken from the test suite *)

(** [TestComputeCoverageIncrease_DetailedMetrics], the lines of [foo]
    visited in ascending order. *)
Example detailed_metrics :
  ComputeCoverageIncrease (λ _, mkSchedule ["foo"] (λ _, [1; 2; 3; 4]))
    t_base t_new =
  (mkIncreaseReport [mkIncrease "demo.cpp" "foo" "foo()" 2 4 [2; 3] 2 4], None).
Proof. vm_compute. reflexivity. Qed.

(** [TestFindUncoveredLines_Statistics] *)
Example uncovered_statistics :
  FindUncoveredLines (mkUncoveredSchedule ["test.cpp"] (λ _, ["foo"]))
    (mkReport "" [ mkFile "test.cpp"
                     [mkLine 1 "foo" 1; mkLine 2 "foo" 0; mkLine 3 "foo" 0;
                      mkLine 4 "foo" 1; mkLine 5 "foo" 1]
                     [fn "foo" "foo()"] ]) =
  (mkUncoveredReport
     [mkFileUncovered "test.cpp" [mkFunctionUncovered "foo" "foo()" [2; 3] 5 3]],
   None).
Proof. vm_compute. reflexivity. Qed.

(** [TestShouldIncludeFunction] *)
Example should_include_cases :
  shouldIncludeFunction "foo()" "_Z3foov" {["foo"]} = true ∧
  shouldIncludeFunction "foo()" "_Z3foov" {["foo()"]} = true ∧
  shouldIncludeFunction "foo()" "_Z3foov" {["_Z3foov"]} = true ∧
  shouldIncludeFunction "foo()" "_Z3foov" {["bar"]} = false ∧
  shouldIncludeFunction "calculate(int, double)" "_Z9calculateid" {["calculate"]} = true ∧
  shouldIncludeFunction "foo()" "_Z3foov" ∅ = false.
Proof. vm_compute. repeat split. Qed.

(** [TestApplyFilter_LinesFiltering]; the path needs no normalization. *)
Example apply_filter_lines_filtering :
  ApplyFilter id id lf_report (Some lf_config) =
  mkReport ""
    [ mkFile "test.cpp" [mkLine 1 "foo" 1; mkLine 2 "foo" 0] [fn "foo" "foo()"] ].
Proof. vm_compute. reflexivity. Qed.

(** End-to-end scenario 3 and [TestApplyFilter], "Filter single file and
    function": [f] retains [_Z1fv], demangled [f()], and its line. *)
Example apply_filter_base_identifier :
  ApplyFilter id id sc3_report (Some sc3_config) =
  mkReport "0.5" [ mkFile "demo.cc" [mkLine 1 "_Z1fv" 1] [sc3_f] ].
Proof. vm_compute. reflexivity. Qed.

(** [TestApplyFilter], "No matching files". *)
Example apply_filter_no_match :
  ApplyFilter id id lf_report
    (Some (mkFilterConfig [mkTarget "nonexistent.cpp" ["foo"]])) =
  mkReport "" [].
Proof. vm_compute. reflexivity. Qed.

(** End-to-end scenario 2. *)
Example uncovered_scenario_2 :
  FindUncoveredLines (a_schedule ["foo"])
    (mkReport "" [ mkFile "a.cpp" [mkLine 1 "foo" 0; mkLine 2 "foo" 0]
                     [fn "foo" "foo()"] ]) =
  (mkUncoveredReport
     [mkFileUncovered "a.cpp" [mkFunctionUncovered "foo" "foo()" [1; 2] 2 0]],
   None).
Proof. vm_compute. reflexivity. Qed.

(** [TestComputeCoverageIncrease_NewFunctionInExistingFile]: a function
    that is new in a known file counts no old coverage. *)
Example new_function_in_existing_file :
  ComputeCoverageIncrease
    (λ _, mkSchedule ["foo"; "bar"]
            (λ funcName, if decide (funcName = "foo") then [1] else [5; 6]))
    (mkReport "" [ mkFile "test.cpp" [mkLine 1 "foo" 1] [fn "foo" "foo()"] ])
    (mkReport "" [ mkFile "test.cpp"
                     [mkLine 1 "foo" 1; mkLine 5 "bar" 1; mkLine 6 "bar" 1]
                     [fn "foo" "foo()"; fn "bar" "bar()"] ]) =
  (mkIncreaseReport [mkIncrease "test.cpp" "bar" "bar()" 2 2 [5; 6] 0 2], None).
Proof. vm_compute. reflexivity. Qed.

(** * Facts about the loops *)

(** A loop that only appends to a slice appends the concatenation of what
    each iteration contributes. *)
Lemma foldl_append {A B} (g : list A → B → list A) (f : B → list A) acc l :
  (∀ acc x, g acc x = acc ++ f x) →
  foldl g acc l = acc ++ (l ≫= f).
Proof.
  intros Hg. revert acc. induction l as [|x l IH]; intros acc; simpl.
  - by rewrite app_nil_r.
  - rewrite IH, Hg. by rewrite <- app_assoc.
Qed.

Section range.
Context `{Countable K} {V : Type}.
Implicit Types (m : gmap K V) (ks : list K).

Lemma elem_of_rangeMap m ks k v :
  (k, v) ∈ rangeMap m ks ↔ k ∈ ks ∧ m !! k = Some v.
Proof.
  unfold rangeMap. rewrite list_elem_of_omap. split.
  - intros (k' & Hin & Hk). destruct (m !! k') as [v'|] eqn:E; simplify_eq/=.
    done.
  - intros [Hin Hk]. exists k. split; [done|]. by rewrite Hk.
Qed.

Lemma rangeMap_fst m ks :
  (rangeMap m ks).*1 = filter (λ k, is_Some (m !! k)) ks.
Proof.
  unfold rangeMap. induction ks as [|k ks IH]; [done|].
  rewrite filter_cons. cbn [omap list_omap]. rewrite <- IH.
  by destruct (m !! k) as [v|] eqn:E.
Qed.

Lemma rangeMap_Permutation_keys m ks1 ks2 :
  ks1 ≡ₚ ks2 → rangeMap m ks1 ≡ₚ rangeMap m ks2.
Proof. intros Hp. unfold rangeMap. by rewrite Hp. Qed.

Lemma rangeMap_canonical m : rangeMap m (map_to_list m).*1 = map_to_list m.
Proof.
  assert (Hall : Forall (λ kv, m !! kv.1 = Some kv.2) (map_to_list m)).
  { apply Forall_forall. intros [k v] Hin. by apply elem_of_map_to_list. }
  revert Hall. generalize (map_to_list m). unfold rangeMap.
  induction l as [|[k v] l IH]; intros Hall; [done|].
  apply Forall_cons in Hall as [Hkv Hall]. simpl in *.
  rewrite Hkv. simpl. f_equal. by apply IH.
Qed.

Lemma range_order_canonical m : range_order m (map_to_list m).*1.
Proof. unfold range_order. done. Qed.

Lemma rangeMap_Permutation m ks :
  range_order m ks → rangeMap m ks ≡ₚ map_to_list m.
Proof.
  intros Hp. rewrite (rangeMap_Permutation_keys _ _ _ Hp).
  by rewrite rangeMap_canonical.
Qed.

Lemma range_order_NoDup m ks : range_order m ks → NoDup ks.
Proof. intros Hp. rewrite Hp. apply NoDup_fst_map_to_list. Qed.

Lemma range_order_elem_of m ks k :
  range_order m ks → k ∈ ks ↔ is_Some (m !! k).
Proof.
  intros Hp. rewrite Hp. rewrite list_elem_of_fmap. split.
  - intros ([k' v] & -> & Hin). apply elem_of_map_to_list in Hin. eauto.
  - intros [v Hv]. exists (k, v). split; [done|]. by apply elem_of_map_to_list.
Qed.

Lemma rangeMap_NoDup m ks : NoDup ks → NoDup (rangeMap m ks).*1.
Proof. intros Hnd. rewrite rangeMap_fst. by apply NoDup_filter. Qed.
End range.

(** * Facts about the maps the engines build *)

Lemma nonempty_snoc {A} (l : list A) x : nonempty (l ++ [x]) = Some (l ++ [x]).
Proof. by destruct l. Qed.

Lemma default_nonempty {A} (l : list A) : default [] (nonempty l) = l.
Proof. by destruct l. Qed.

Lemma nonempty_Some {A} (l l' : list A) : nonempty l = Some l' → l' = l ∧ l ≠ [].
Proof. destruct l; intros; simplify_eq/=; done. Qed.

Lemma len_filter_snoc {A} (P : A → Prop) `{∀ x, Decision (P x)} l x :
  len (filter P (l ++ [x])) = if decide (P x) then len (filter P l) + 1 else len (filter P l).
Proof.
  unfold len. rewrite filter_app, length_app, filter_cons, filter_nil.
  destruct (decide (P x)); simpl; lia.
Qed.

Lemma buildFunctionNameMap_lookup file name :
  buildFunctionNameMap file !! name =
  DemangledName <$> last (filter (λ f, Name f = name) (Functions file)).
Proof.
  unfold buildFunctionNameMap. induction (Functions file) as [|f fs IH] using rev_ind.
  - done.
  - rewrite foldl_snoc, filter_app, last_app, filter_cons, filter_nil.
    rewrite lookup_insert.
    by destruct (decide (Name f = name)).
Qed.

Lemma getTotalFunctionLines_count file funcName :
  getTotalFunctionLines file funcName =
  len (filter (λ l, FunctionName l = funcName) (Lines file)).
Proof.
  unfold getTotalFunctionLines. induction (Lines file) as [|l ls IH] using rev_ind.
  - done.
  - rewrite foldl_snoc, len_filter_snoc, IH. done.
Qed.

Lemma functionStats_count file funcName :
  functionStats file funcName =
  (len (filter (λ l, FunctionName l = funcName) (Lines file)),
   len (filter (λ l, FunctionName l = funcName ∧ 0 < Count l) (Lines file))).
Proof.
  unfold functionStats. induction (Lines file) as [|l ls IH] using rev_ind.
  - done.
  - rewrite foldl_snoc, !len_filter_snoc, IH.
    destruct (Z.ltb_spec 0 (Count l)), (decide (FunctionName l = funcName));
      [rewrite decide_True by done|rewrite decide_False by (intros [? ?]; done)|
       rewrite decide_False by (intros [? ?]; lia)|rewrite decide_False by (intros [? ?]; done)];
      done.
Qed.

Lemma groupCoveredLines_lookup file funcName :
  groupCoveredLines file !! funcName =
  nonempty (LineNumber <$>
              filter (λ l, FunctionName l = funcName ∧ 0 < Count l) (Lines file)).
Proof.
  unfold groupCoveredLines. induction (Lines file) as [|l ls IH] using rev_ind.
  - done.
  - rewrite foldl_snoc, filter_app, fmap_app, filter_cons, filter_nil.
    destruct (Z.ltb_spec 0 (Count l)).
    + rewrite lookup_insert. destruct (decide (FunctionName l = funcName)) as [Hn|Hn].
      * subst. rewrite decide_True by done. rewrite IH, default_nonempty.
        simpl. by rewrite nonempty_snoc.
      * rewrite decide_False by (intros [? ?]; done). simpl. by rewrite app_nil_r.
    + rewrite decide_False by lia. simpl. by rewrite app_nil_r.
Qed.

Lemma collectUncovered_lookup file funcName :
  collectUncovered file !! funcName =
  nonempty (LineNumber <$>
              filter (λ l, FunctionName l = funcName ∧ Count l = 0) (Lines file)).
Proof.
  unfold collectUncovered. induction (Lines file) as [|l ls IH] using rev_ind.
  - done.
  - rewrite foldl_snoc, filter_app, fmap_app, filter_cons, filter_nil.
    destruct (Z.eqb_spec (Count l) 0) as [Hc|Hc].
    + rewrite lookup_insert. destruct (decide (FunctionName l = funcName)) as [Hn|Hn].
      * subst funcName. rewrite decide_True by done. simpl.
        rewrite nonempty_snoc. f_equal. f_equal. symmetry in IH.
        destruct (foldl _ _ _ !! FunctionName l) as [old|] eqn:E.
        -- rewrite E. by apply nonempty_Some in IH as [-> _].
        -- rewrite lookup_insert_eq. simpl.
           by destruct (LineNumber <$> filter _ ls).
      * rewrite decide_False by (intros [? ?]; done). simpl. rewrite app_nil_r.
        destruct (foldl _ _ _ !! FunctionName l); [done|].
        by rewrite lookup_insert_ne.
    + rewrite decide_False by (intros [? ?]; done). simpl. by rewrite app_nil_r.
Qed.

Lemma buildLineCoverageMap_lookup file funcName lineNum :
  buildLineCoverageMap file !! funcName ≫= (.!! lineNum) =
  Count <$> last (filter (λ l, FunctionName l = funcName ∧ LineNumber l = lineNum)
                         (Lines file)).
Proof.
  unfold buildLineCoverageMap. induction (Lines file) as [|l ls IH] using rev_ind.
  - done.
  - rewrite foldl_snoc, filter_app, last_app, filter_cons, filter_nil.
    set (m := foldl _ _ ls) in *.
    rewrite lookup_insert.
    destruct (decide (FunctionName l = funcName)) as [Hn|Hn]; simpl.
    + rewrite lookup_insert. subst funcName.
      destruct (decide (LineNumber l = lineNum)) as [Hl|Hl].
      * by rewrite decide_True.
      * rewrite decide_False by (by intros [? ?]). simpl. rewrite <- IH.
        destruct (m !! FunctionName l) as [old|] eqn:E; simpl.
        -- by rewrite E.
        -- by rewrite lookup_insert_eq.
    + rewrite decide_False by (by intros [? ?]). simpl. rewrite <- IH.
      destruct (m !! FunctionName l); [done|]. by rewrite lookup_insert_ne.
Qed.

Lemma buildLineCoverageMap_is_Some file funcName :
  is_Some (buildLineCoverageMap file !! funcName) ↔
  ∃ l, l ∈ Lines file ∧ FunctionName l = funcName.
Proof.
  unfold buildLineCoverageMap. induction (Lines file) as [|l ls IH] using rev_ind.
  - simpl. rewrite lookup_empty. split; [by intros [? ?]|].
    intros (l & Hl & _). by apply elem_of_nil in Hl.
  - rewrite foldl_snoc. set (m := foldl _ _ ls) in *.
    rewrite lookup_insert.
    destruct (decide (FunctionName l = funcName)) as [Hn|Hn].
    + split; [|by eauto]. intros _. exists l. split; [|done].
      apply elem_of_app. right. by apply list_elem_of_singleton.
    + assert (Hm : match m !! FunctionName l with
                    | Some _ => m
                    | None => <[FunctionName l:=∅]> m
                    end !! funcName = m !! funcName).
      { destruct (m !! FunctionName l); [done|]. by rewrite lookup_insert_ne. }
      rewrite Hm, IH. split.
      * intros (l' & Hl' & Hf). exists l'. split; [|done].
        apply elem_of_app. by left.
      * intros (l' & Hl' & Hf). exists l'. split; [|done].
        apply elem_of_app in Hl' as [Hl'|Hl']; [done|].
        apply list_elem_of_singleton in Hl'. by subst.
Qed.

Lemma demangledOr_displayName file funcName :
  demangledOr (buildFunctionNameMap file) funcName =
  displayName (Functions file) funcName.
Proof.
  unfold demangledOr, displayName, lastFunctionNamed.
  rewrite buildFunctionNameMap_lookup.
  by destruct (last _) as [f|].
Qed.

Lemma firstPass_uncoveredMap report path :
  uncoveredMap (firstPass report) !! path =
  collectUncovered <$> lastFileAt (Files report) path.
Proof.
  unfold firstPass, lastFileAt. induction (Files report) as [|f fs IH] using rev_ind.
  - done.
  - rewrite foldl_snoc, filter_app, last_app, filter_cons, filter_nil. simpl.
    rewrite lookup_insert. by destruct (decide (FilePath f = path)).
Qed.

Lemma firstPass_funcMetadata report path :
  funcMetadata (firstPass report) !! path =
  buildFunctionNameMap <$> lastFileAt (Files report) path.
Proof.
  unfold firstPass, lastFileAt. induction (Files report) as [|f fs IH] using rev_ind.
  - done.
  - rewrite foldl_snoc, filter_app, last_app, filter_cons, filter_nil. simpl.
    rewrite lookup_insert. by destruct (decide (FilePath f = path)).
Qed.

Lemma baseFileMapOf_lookup baseReport path :
  baseFileMapOf baseReport !! path = lastFileAt (Files baseReport) path.
Proof.
  unfold baseFileMapOf, lastFileAt.
  induction (Files baseReport) as [|f fs IH] using rev_ind.
  - done.
  - rewrite foldl_snoc, filter_app, last_app, filter_cons, filter_nil.
    rewrite lookup_insert. by destruct (decide (FilePath f = path)).
Qed.

(** * The diff engine *)

(** The inner loop of [compareFunctions], in closed form. *)
Lemma foldl_compareLine baseLines acc kvs :
  foldl (compareLine baseLines) acc kvs =
  {| increasedLines :=
       increasedLines acc ++
       (filter (λ kv, baseCountOf baseLines kv.1 = 0 ∧ 0 < kv.2) kvs).*1;
     oldCoveredCount :=
       oldCoveredCount acc + len (filter (λ kv, 0 < baseCountOf baseLines kv.1) kvs);
     newCoveredCount :=
       newCoveredCount acc + len (filter (λ kv, 0 < kv.2) kvs) |}.
Proof.
  revert acc. induction kvs as [|[lineNum newCount] kvs IH]; intros [inc old new].
  - simpl. unfold len. simpl. by rewrite app_nil_r, !Z.add_0_r.
  - simpl. rewrite IH. rewrite !filter_cons. simpl. unfold len.
    destruct (Z.ltb_spec 0 (baseCountOf baseLines lineNum)),
             (Z.ltb_spec 0 newCount),
             (Z.eqb_spec (baseCountOf baseLines lineNum) 0); simpl;
      repeat (first [rewrite decide_True by (try split; lia)
                    |rewrite decide_False by (try intros [? ?]; lia)]);
      simpl; f_equal; rewrite <- ?app_assoc; try done; lia.
Qed.

Lemma imap_pair_bind_shift {A B} (g : nat → A → list B) (h : nat → nat) (l : list A) :
  imap (λ i x, (h i, x)) l ≫= (λ '(i, x), g i x) = mjoin (imap (λ i, g (h i)) l).
Proof.
  revert h. induction l as [|x l IH]; intros h; [done|].
  simpl. f_equal. exact (IH (h ∘ S)).
Qed.

Lemma imap_pair_bind {A B} (g : nat → A → list B) (l : list A) :
  imap pair l ≫= (λ '(i, x), g i x) = mjoin (imap g l).
Proof. exact (imap_pair_bind_shift g id l). Qed.

Lemma ComputeCoverageIncrease_chunks sched baseReport newReport :
  Increases (ComputeCoverageIncrease sched baseReport newReport).1 =
  mjoin (increaseChunks sched baseReport newReport).
Proof.
  unfold ComputeCoverageIncrease, increaseChunks. simpl.
  rewrite (foldl_append _
             (λ '(i, newFile),
                fileIncreases (sched i) (baseFileMapOf baseReport) newFile))
    by (by intros acc [i f]).
  simpl. apply imap_pair_bind.
Qed.

Lemma bind_singleton {A B} (f : A → B) (l : list A) :
  l ≫= (λ x, [f x]) = f <$> l.
Proof. induction l as [|x l IH]; [done|]. simpl. by f_equal. Qed.

Lemma processNewFile_fmap ks file :
  processNewFile ks file =
  newFileRecord file <$> rangeMap (groupCoveredLines file) ks.
Proof.
  unfold processNewFile.
  rewrite (foldl_append _ (λ kv, [newFileRecord file kv])).
  - apply bind_singleton.
  - intros acc [funcName lineNumbers]. unfold newFileRecord. simpl.
    by rewrite demangledOr_displayName, getTotalFunctionLines_count.
Qed.

Lemma compareFunctions_bind s baseFile newFile :
  compareFunctions s baseFile newFile =
  rangeMap (buildLineCoverageMap newFile) (funcOrder s) ≫=
    (λ kv, compareFunction (lineOrder s kv.1) (buildLineCoverageMap baseFile)
             (buildFunctionNameMap newFile) newFile kv.1 kv.2).
Proof.
  unfold compareFunctions.
  rewrite (foldl_append _
    (λ kv, compareFunction (lineOrder s kv.1) (buildLineCoverageMap baseFile)
             (buildFunctionNameMap newFile) newFile kv.1 kv.2)); [done|].
  by intros acc [funcName newLines].
Qed.

Lemma filter_all {A} (P : A → Prop) `{∀ x, Decision (P x)} (l : list A) :
  (∀ x, x ∈ l → P x) → filter P l = l.
Proof.
  induction l as [|x l IH]; intros Hall; [done|].
  rewrite filter_cons, decide_True by (apply Hall; left).
  f_equal. apply IH. intros y Hy. apply Hall. by right.
Qed.

Lemma filter_none {A} (P : A → Prop) `{∀ x, Decision (P x)} (l : list A) :
  (∀ x, x ∈ l → ¬ P x) → filter P l = [].
Proof.
  induction l as [|x l IH]; intros Hall; [done|].
  rewrite filter_cons, decide_False by (apply Hall; left).
  apply IH. intros y Hy. apply Hall. by right.
Qed.

(** Picking, in what a loop over distinct keys appended, the records of
    one key. *)
Lemma filter_bind_key {A V R} `{EqDecision A} (key : R → A) (f : A * V → list R)
    (l : list (A * V)) k v :
  NoDup l.*1 → (k, v) ∈ l →
  (∀ kv r, r ∈ f kv → key r = kv.1) →
  filter (λ r, key r = k) (l ≫= f) = f (k, v).
Proof.
  intros Hnd Hin Hkey.
  assert (Hother : ∀ l', k ∉ l'.*1 → filter (λ r, key r = k) (l' ≫= f) = []).
  { intros l' Hk. apply filter_none. intros r Hr Hkr.
    apply list_elem_of_bind in Hr as (kv & Hr & Hkv).
    apply Hk. apply list_elem_of_fmap. exists kv. split; [|done].
    rewrite <- Hkr. by apply Hkey. }
  induction l as [|[k' v'] l IH]; [by apply elem_of_nil in Hin|].
  rewrite fmap_cons in Hnd. apply NoDup_cons in Hnd as [Hk' Hnd].
  rewrite bind_cons, filter_app. cbn [fst] in Hk'.
  apply elem_of_cons in Hin as [Hin|Hin].
  - simplify_eq. rewrite Hother by done. rewrite app_nil_r.
    apply filter_all. intros r Hr. by apply (Hkey (k', v')).
  - assert (k' ≠ k) as Hne.
    { intros ->. apply Hk'. apply list_elem_of_fmap. by exists (k, v). }
    rewrite IH by done.
    rewrite filter_none; [done|]. intros r Hr Hkr. apply Hne.
    rewrite <- Hkr. symmetry. by apply (Hkey (k', v')).
Qed.

(** The records one function contributes when its file is compared. *)
Lemma compareFunction_spec lo baseCoverage funcNames newFile funcName newLines :
  range_order newLines lo →
  let recs := compareFunction lo baseCoverage funcNames newFile funcName newLines in
  let lines := recs ≫= IncreasedLineNumbers in
  (length recs ≤ 1)%nat ∧
  Forall (λ r, inc_FunctionName r = funcName ∧ inc_File r = FilePath newFile) recs ∧
  NoDup lines ∧
  (∀ lineNum, lineNum ∈ lines ↔
     ∃ newCount, newLines !! lineNum = Some newCount ∧
       baseCountOf (baseCoverage !! funcName) lineNum = 0 ∧ 0 < newCount) ∧
  Forall (λ r,
            OldCoveredLines r =
              len (filter (λ kv, 0 < baseCountOf (baseCoverage !! funcName) kv.1)
                          (map_to_list newLines)) ∧
            NewCoveredLines r =
              len (filter (λ kv, 0 < kv.2) (map_to_list newLines))) recs.
Proof.
  intros Hlo recs lines. subst lines recs. unfold compareFunction.
  rewrite foldl_compareLine. simpl.
  pose proof (rangeMap_Permutation _ _ Hlo) as Hperm.
  set (kvs := rangeMap newLines lo) in *.
  set (inc := (filter _ kvs).*1).
  assert (Hlines :
    (if 0 <? len inc
     then [ {| inc_File := FilePath newFile;
               inc_FunctionName := funcName;
               inc_DemangledName := demangledOr funcNames funcName;
               LinesIncreased := len inc;
               inc_TotalLines := getTotalFunctionLines newFile funcName;
               IncreasedLineNumbers := inc;
               OldCoveredLines :=
                 0 + len (filter (λ kv, 0 < baseCountOf (baseCoverage !! funcName) kv.1) kvs);
               NewCoveredLines := 0 + len (filter (λ kv, 0 < kv.2) kvs) |} ]
     else []) ≫= IncreasedLineNumbers = inc).
  { destruct (Z.ltb_spec 0 (len inc)) as [Hl|Hl]; simpl.
    - by rewrite app_nil_r.
    - unfold len in Hl. by destruct inc; [|simpl in Hl; lia]. }
  rewrite Hlines. split_and!.
  - destruct (0 <? len inc); simpl; lia.
  - destruct (0 <? len inc); by repeat constructor.
  - subst inc. eapply sublist_NoDup; [|apply fmap_sublist, sublist_filter].
    subst kvs. apply rangeMap_NoDup. by eapply range_order_NoDup.
  - intros lineNum. subst inc. rewrite list_elem_of_fmap. split.
    + intros ([ln c] & -> & Hin). apply list_elem_of_filter in Hin as [[Hb Hc] Hin].
      apply elem_of_rangeMap in Hin as [_ Hin]. by exists c.
    + intros (c & Hin & Hb & Hc). exists (lineNum, c). split; [done|].
      apply list_elem_of_filter. split; [done|]. rewrite Hperm.
      by apply elem_of_map_to_list.
  - destruct (0 <? len inc); [|by constructor].
    repeat constructor; simpl; rewrite Z.add_0_l; unfold len; by rewrite Hperm.
Qed.

Lemma compareFunction_fields lo baseCoverage funcNames newFile funcName newLines r :
  r ∈ compareFunction lo baseCoverage funcNames newFile funcName newLines →
  inc_FunctionName r = funcName ∧ inc_File r = FilePath newFile ∧
  inc_DemangledName r = demangledOr funcNames funcName.
Proof.
  unfold compareFunction. destruct (0 <? _).
  - intros ->%list_elem_of_singleton. done.
  - by intros ?%elem_of_nil.
Qed.

Lemma increaseChunks_lookup sched baseReport newReport i newFile :
  Files newReport !! i = Some newFile →
  increaseChunks sched baseReport newReport !! i =
  Some (fileIncreases (sched i) (baseFileMapOf baseReport) newFile).
Proof. intros Hi. unfold increaseChunks. by rewrite list_lookup_imap, Hi. Qed.

(** The records of a compared file for one function, in terms of the two
    line-coverage maps. *)
Lemma compareFunctions_records sched baseReport newReport i newFile
    baseFile funcName newLines :
  diff_schedule_ok sched baseReport newReport →
  Files newReport !! i = Some newFile →
  baseFileMapOf baseReport !! FilePath newFile = Some baseFile →
  buildLineCoverageMap newFile !! funcName = Some newLines →
  Increases (ComputeCoverageIncrease sched baseReport newReport).1 =
    mjoin (increaseChunks sched baseReport newReport) ∧
  ∃ chunk,
    increaseChunks sched baseReport newReport !! i = Some chunk ∧
    let recs := filter (λ r, inc_FunctionName r = funcName) chunk in
    let lines := recs ≫= IncreasedLineNumbers in
    (length recs ≤ 1)%nat ∧
    NoDup lines ∧
    (∀ lineNum, lineNum ∈ lines ↔
       ∃ newCount, newLines !! lineNum = Some newCount ∧
         countIn baseFile funcName lineNum = 0 ∧ 0 < newCount) ∧
    Forall (λ r,
              OldCoveredLines r =
                len (filter (λ kv, 0 < countIn baseFile funcName kv.1)
                            (map_to_list newLines)) ∧
              NewCoveredLines r =
                len (filter (λ kv, 0 < kv.2) (map_to_list newLines))) recs.
Proof.
  intros Hok Hi Hbase Hnew. split; [apply ComputeCoverageIncrease_chunks|].
  eexists. split; [by apply increaseChunks_lookup|].
  specialize (Hok i newFile Hi). unfold file_schedule_ok in Hok.
  unfold fileIncreases. rewrite Hbase in *. destruct Hok as [Hfo Hlo].
  rewrite compareFunctions_bind.
  rewrite (filter_bind_key inc_FunctionName _ _ funcName newLines).
  - unfold countIn.
    pose proof (compareFunction_spec (lineOrder (sched i) funcName)
                  (buildLineCoverageMap baseFile) (buildFunctionNameMap newFile)
                  newFile funcName newLines (Hlo _ _ Hnew)) as H.
    simpl in H. destruct H as (H1 & _ & H2 & H3 & H4). done.
  - apply rangeMap_NoDup. by eapply range_order_NoDup.
  - apply elem_of_rangeMap. split; [|done].
    eapply range_order_elem_of; [done|]. by eexists.
  - intros [k v] r Hr. by apply compareFunction_fields in Hr as [? _].
Qed.

(** The line-coverage map of a file, read off the lines of the file. *)
Lemma line_map_lookup file funcName (lm : gmap Z Z) lineNum :
  buildLineCoverageMap file !! funcName = Some lm →
  lm !! lineNum = lineCountAt file funcName lineNum.
Proof.
  intros Hm. unfold lineCountAt. by rewrite <- buildLineCoverageMap_lookup, Hm.
Qed.

Lemma countIn_countAt file funcName lineNum :
  countIn file funcName lineNum = countAt file funcName lineNum.
Proof.
  unfold countIn, countAt, lineCountAt, baseCountOf.
  rewrite <- buildLineCoverageMap_lookup.
  by destruct (buildLineCoverageMap file !! funcName).
Qed.

Lemma lineCountAt_is_Some file funcName lineNum :
  is_Some (lineCountAt file funcName lineNum) ↔
  lineNum ∈ lineNumbersOf file funcName.
Proof.
  unfold lineCountAt, lineNumbersOf.
  rewrite elem_of_remove_dups, list_elem_of_fmap, fmap_is_Some. split.
  - intros [l Hl]. apply last_Some in Hl as [l' Hl'].
    assert (l ∈ filter (λ l0, FunctionName l0 = funcName ∧ LineNumber l0 = lineNum)
                       (Lines file)) as [[? ?] ?]%list_elem_of_filter.
    { rewrite Hl'. apply elem_of_app. right. by left. }
    exists l. split; [done|]. by apply list_elem_of_filter.
  - intros (l & -> & [Hn Hin]%list_elem_of_filter).
    assert (l ∈ filter (λ l0, FunctionName l0 = funcName ∧ LineNumber l0 = LineNumber l)
                       (Lines file)) as Hf by (by apply list_elem_of_filter).
    destruct (filter _ (Lines file)) as [|x xs] using rev_ind;
      [by apply elem_of_nil in Hf|].
    rewrite last_snoc. by eexists.
Qed.

Lemma line_map_keys file funcName (lm : gmap Z Z) :
  buildLineCoverageMap file !! funcName = Some lm →
  (map_to_list lm).*1 ≡ₚ lineNumbersOf file funcName.
Proof.
  intros Hm. apply NoDup_Permutation.
  - apply NoDup_fst_map_to_list.
  - apply NoDup_remove_dups.
  - intros lineNum. rewrite <- lineCountAt_is_Some, <- (line_map_lookup _ _ _ _ Hm).
    rewrite list_elem_of_fmap. split.
    + intros ([k c] & -> & Hkc%elem_of_map_to_list). by exists c.
    + intros [c Hc]. exists (lineNum, c). split; [done|].
      by apply elem_of_map_to_list.
Qed.

Lemma length_filter_fst {A B} (P : A → Prop) `{∀ x, Decision (P x)}
    (l : list (A * B)) :
  length (filter (λ kv, P kv.1) l) = length (filter P l.*1).
Proof.
  induction l as [|[k v] l IH]; [done|].
  rewrite fmap_cons, !filter_cons. simpl.
  destruct (decide (P k)); simpl; by rewrite IH.
Qed.

Lemma filter_ext_elem_of {A} (P Q : A → Prop) `{∀ x, Decision (P x)}
    `{∀ x, Decision (Q x)} (l : list A) :
  (∀ x, x ∈ l → P x ↔ Q x) → filter P l = filter Q l.
Proof.
  induction l as [|x l IH]; intros Hpq; [done|].
  rewrite !filter_cons, IH by (intros y Hy; apply Hpq; by right).
  destruct (decide (P x)) as [Hp|Hp], (decide (Q x)) as [Hq|Hq]; try done.
  - exfalso. apply Hq, (Hpq x); [left|done].
  - exfalso. apply Hp, (Hpq x); [left|done].
Qed.

(** Counting the entries of the line map of a function is counting its
    line numbers. *)
Lemma line_map_count (P : Z → Prop) `{∀ x, Decision (P x)} file funcName
    (lm : gmap Z Z) :
  buildLineCoverageMap file !! funcName = Some lm →
  len (filter (λ kv, P kv.1) (map_to_list lm)) =
  len (filter P (lineNumbersOf file funcName)).
Proof.
  intros Hm. unfold len. f_equal. rewrite length_filter_fst.
  apply Permutation_length. by rewrite (line_map_keys _ _ _ Hm).
Qed.

(** C1.  When a file of the new report is also in the base report, the
    records it contributes for a function that names one of its lines list
    a line number exactly when the new report gives the line a positive
    count and the base file gives it the count 0 (a function or a line the
    base file does not have counts as 0); no line number is listed twice;
    [OldCoveredLines] is the number of line numbers of the function in the
    new file to which the base file gives a positive count, and
    [NewCoveredLines] the number to which the new file gives one.  The
    count a file gives for a line is read off its [Lines]: it is the count
    of the last line with the function name and the line number. *)
Theorem compared_function_increase sched baseReport newReport i newFile
    baseFile funcName l :
  diff_schedule_ok sched baseReport newReport →
  Files newReport !! i = Some newFile →
  lastFileAt (Files baseReport) (FilePath newFile) = Some baseFile →
  l ∈ Lines newFile →
  FunctionName l = funcName →
  Increases (ComputeCoverageIncrease sched baseReport newReport).1 =
    mjoin (increaseChunks sched baseReport newReport) ∧
  ∃ chunk,
    increaseChunks sched baseReport newReport !! i = Some chunk ∧
    let recs := filter (λ r, inc_FunctionName r = funcName) chunk in
    let lines := recs ≫= IncreasedLineNumbers in
    (length recs ≤ 1)%nat ∧
    NoDup lines ∧
    (∀ lineNum, lineNum ∈ lines ↔
       ∃ newCount, lineCountAt newFile funcName lineNum = Some newCount ∧
         countAt baseFile funcName lineNum = 0 ∧ 0 < newCount) ∧
    Forall (λ r,
              OldCoveredLines r =
                len (filter (λ lineNum, 0 < countAt baseFile funcName lineNum)
                            (lineNumbersOf newFile funcName)) ∧
              NewCoveredLines r =
                len (filter (λ lineNum, 0 < countAt newFile funcName lineNum)
                            (lineNumbersOf newFile funcName))) recs.
Proof.
  intros Hok Hi Hbase Hl Hname.
  rewrite <- baseFileMapOf_lookup in Hbase.
  assert (is_Some (buildLineCoverageMap newFile !! funcName)) as [newLines Hnew].
  { apply buildLineCoverageMap_is_Some. by exists l. }
  destruct (compareFunctions_records sched baseReport newReport i newFile
              baseFile funcName newLines Hok Hi Hbase Hnew)
    as (Hjoin & chunk & Hchunk & Hone & Hnd & Hiff & Hcount).
  split; [done|]. exists chunk. split; [done|]. cbv zeta in *.
  split_and!; [done|done| |].
  - intros lineNum. rewrite Hiff.
    setoid_rewrite (line_map_lookup _ _ _ _ Hnew).
    by setoid_rewrite countIn_countAt.
  - eapply Forall_impl; [exact Hcount|]. intros r [Hold Hnewc]. split.
    + rewrite Hold, <- (line_map_count _ _ _ _ Hnew).
      f_equal. apply filter_ext_elem_of. intros kv _. by rewrite countIn_countAt.
    + rewrite Hnewc, <- (line_map_count _ _ _ _ Hnew).
      f_equal. apply filter_ext_elem_of.
      intros [k c] Hkc%elem_of_map_to_list. simpl. unfold countAt.
      by rewrite <- (line_map_lookup _ _ _ _ Hnew), Hkc.
Qed.

(** C3.  When a file of the new report is absent from the base file index,
    a function with at least one line of positive count contributes exactly
    one record: [OldCoveredLines] is 0, [NewCoveredLines] is the number of
    its lines of positive count, and [IncreasedLineNumbers] lists the line
    numbers of those lines; a function without such a line contributes no
    record. *)
Theorem new_file_increase sched baseReport newReport i newFile funcName :
  diff_schedule_ok sched baseReport newReport →
  Files newReport !! i = Some newFile →
  baseFileMapOf baseReport !! FilePath newFile = None →
  Increases (ComputeCoverageIncrease sched baseReport newReport).1 =
    mjoin (increaseChunks sched baseReport newReport) ∧
  ∃ chunk,
    increaseChunks sched baseReport newReport !! i = Some chunk ∧
    let covered :=
      filter (λ l, FunctionName l = funcName ∧ 0 < Count l) (Lines newFile) in
    filter (λ r, inc_FunctionName r = funcName) chunk =
    match covered with
    | [] => []
    | _ =>
        [ {| inc_File := FilePath newFile;
             inc_FunctionName := funcName;
             inc_DemangledName := displayName (Functions newFile) funcName;
             LinesIncreased := len covered;
             inc_TotalLines :=
               len (filter (λ l, FunctionName l = funcName) (Lines newFile));
             IncreasedLineNumbers := LineNumber <$> covered;
             OldCoveredLines := 0;
             NewCoveredLines := len covered |} ]
    end.
Proof.
  intros Hok Hi Hbase. split; [apply ComputeCoverageIncrease_chunks|].
  eexists. split; [by apply increaseChunks_lookup|].
  specialize (Hok i newFile Hi). unfold file_schedule_ok in Hok.
  unfold fileIncreases. rewrite Hbase in *.
  rewrite processNewFile_fmap, <- bind_singleton.
  pose proof (groupCoveredLines_lookup newFile funcName) as Hg.
  simpl. destruct (filter _ (Lines newFile)) as [|l0 covered] eqn:Hc.
  - apply filter_none. intros r Hr Hn.
    apply list_elem_of_bind in Hr as ([k v] & Hr & Hkv).
    apply list_elem_of_singleton in Hr. subst r. simpl in Hn. subst k.
    apply elem_of_rangeMap in Hkv as [_ Hkv]. by rewrite Hkv in Hg.
  - simpl in Hg.
    rewrite (filter_bind_key inc_FunctionName _ _ funcName
               (LineNumber l0 :: (LineNumber <$> covered))).
    + unfold newFileRecord, len. simpl. by rewrite length_fmap.
    + apply rangeMap_NoDup. by eapply range_order_NoDup.
    + apply elem_of_rangeMap. split; [|done].
      eapply range_order_elem_of; [done|]. by eexists.
    + intros [k v] r Hr. apply list_elem_of_singleton in Hr. by subst r.
Qed.

Lemma canonicalDiffSchedule_ok baseReport newReport :
  diff_schedule_ok (canonicalDiffSchedule baseReport newReport) baseReport newReport.
Proof.
  intros i f Hi. unfold canonicalDiffSchedule. rewrite Hi.
  unfold file_schedule_ok, canonicalFileSchedule.
  destruct (baseFileMapOf baseReport !! FilePath f); simpl.
  - split; [apply range_order_canonical|].
    intros funcName newLines Hn. rewrite Hn. apply range_order_canonical.
  - apply range_order_canonical.
Qed.

Lemma same_increase_refl r : same_increase r r.
Proof. by repeat split. Qed.

Lemma Forall2_same_increase_refl c : Forall2 same_increase c c.
Proof. induction c; constructor; [apply same_increase_refl|done]. Qed.

Lemma Forall2_bind_pointwise {A B} (R : B → B → Prop) (f g : A → list B) l :
  (∀ x, x ∈ l → Forall2 R (f x) (g x)) → Forall2 R (l ≫= f) (l ≫= g).
Proof.
  induction l as [|x l IH]; intros Hfg; [constructor|].
  rewrite !bind_cons. apply Forall2_app.
  - apply Hfg. by left.
  - apply IH. intros y Hy. apply Hfg. by right.
Qed.

Lemma compareFunction_same lo1 lo2 baseCoverage funcNames newFile funcName newLines :
  range_order newLines lo1 → range_order newLines lo2 →
  Forall2 same_increase
    (compareFunction lo1 baseCoverage funcNames newFile funcName newLines)
    (compareFunction lo2 baseCoverage funcNames newFile funcName newLines).
Proof.
  intros H1 H2. unfold compareFunction. rewrite !foldl_compareLine. simpl.
  assert (Hp : rangeMap newLines lo1 ≡ₚ rangeMap newLines lo2).
  { by rewrite !rangeMap_Permutation. }
  set (kvs1 := rangeMap newLines lo1) in *.
  set (kvs2 := rangeMap newLines lo2) in *.
  assert (Hinc : (filter (λ kv, baseCountOf (baseCoverage !! funcName) kv.1 = 0 ∧ 0 < kv.2) kvs1).*1
                 ≡ₚ (filter (λ kv, baseCountOf (baseCoverage !! funcName) kv.1 = 0 ∧ 0 < kv.2) kvs2).*1).
  { by rewrite Hp. }
  unfold len. rewrite (Permutation_length Hinc).
  destruct (0 <? _); [|constructor].
  repeat constructor; simpl; try done; by rewrite Hp.
Qed.

Lemma fileIncreases_same s1 s2 baseFileMap newFile :
  file_schedule_ok s1 baseFileMap newFile →
  file_schedule_ok s2 baseFileMap newFile →
  same_increases (fileIncreases s1 baseFileMap newFile)
                 (fileIncreases s2 baseFileMap newFile).
Proof.
  unfold file_schedule_ok, fileIncreases.
  destruct (baseFileMap !! FilePath newFile) as [baseFile|].
  - intros [Hf1 Hl1] [Hf2 Hl2]. rewrite !compareFunctions_bind.
    set (F := λ s (kv : string * gmap Z Z),
                compareFunction (lineOrder s kv.1) (buildLineCoverageMap baseFile)
                  (buildFunctionNameMap newFile) newFile kv.1 kv.2).
    exists (rangeMap (buildLineCoverageMap newFile) (funcOrder s1) ≫= F s2). split.
    + apply bind_Permutation, rangeMap_Permutation_keys.
      unfold range_order in *. by rewrite Hf1, Hf2.
    + apply Forall2_bind_pointwise. intros [k v] Hkv.
      apply elem_of_rangeMap in Hkv as [_ Hkv]. unfold F. simpl.
      apply compareFunction_same; eauto.
  - intros H1 H2. rewrite !processNewFile_fmap.
    exists (newFileRecord newFile <$> rangeMap (groupCoveredLines newFile) (funcOrder s1)).
    split; [|apply Forall2_same_increase_refl].
    apply fmap_Permutation, rangeMap_Permutation_keys.
    unfold range_order in *. by rewrite H1, H2.
Qed.

Lemma baseFileMapOf_absent baseReport path :
  path ∉ FilePath <$> Files baseReport →
  baseFileMapOf baseReport !! path = None.
Proof.
  intros Hp. rewrite baseFileMapOf_lookup. unfold lastFileAt.
  rewrite filter_none; [done|].
  intros f Hin Hpath. apply Hp, list_elem_of_fmap. by exists f.
Qed.

(** The records of a file that is not in the base report do not depend on
    the iteration order, except for their own order: the line numbers of a
    record are those of the covered lines of its function, in the order of
    the lines of the file. *)
Lemma new_file_increases_determined s1 s2 baseFileMap newFile :
  baseFileMap !! FilePath newFile = None →
  file_schedule_ok s1 baseFileMap newFile →
  file_schedule_ok s2 baseFileMap newFile →
  fileIncreases s1 baseFileMap newFile ≡ₚ fileIncreases s2 baseFileMap newFile ∧
  Forall (λ r, IncreasedLineNumbers r =
                 LineNumber <$>
                   filter (λ l, FunctionName l = inc_FunctionName r ∧ 0 < Count l)
                          (Lines newFile))
         (fileIncreases s1 baseFileMap newFile).
Proof.
  unfold file_schedule_ok, fileIncreases. intros ->. intros H1 H2.
  rewrite !processNewFile_fmap. split.
  - apply fmap_Permutation. by rewrite !rangeMap_Permutation.
  - apply Forall_forall.
    intros r ([k lines] & -> & [_ Hkv]%elem_of_rangeMap)%list_elem_of_fmap.
    simpl. rewrite groupCoveredLines_lookup in Hkv.
    by apply nonempty_Some in Hkv as [-> _].
Qed.

(** C8, as the code has it.  Two runs on equal inputs may visit the maps in
    different orders.  Both return a nil error, and their results agree
    file by file, in the order of [newReport.Files]: the records a file
    contributes are the same up to their order, and each record is the same
    up to the order of its [IncreasedLineNumbers].  For a file whose path
    is not in the base report the records are equal in every field:
    [IncreasedLineNumbers] lists the covered lines of the function in the
    order of the lines of the file, whatever the iteration order. *)
Theorem increase_determined_up_to_order s1 s2 baseReport newReport :
  diff_schedule_ok s1 baseReport newReport →
  diff_schedule_ok s2 baseReport newReport →
  (ComputeCoverageIncrease s1 baseReport newReport).2 = None ∧
  (ComputeCoverageIncrease s2 baseReport newReport).2 = None ∧
  Increases (ComputeCoverageIncrease s1 baseReport newReport).1 =
    mjoin (increaseChunks s1 baseReport newReport) ∧
  Increases (ComputeCoverageIncrease s2 baseReport newReport).1 =
    mjoin (increaseChunks s2 baseReport newReport) ∧
  Forall2 same_increases (increaseChunks s1 baseReport newReport)
                         (increaseChunks s2 baseReport newReport) ∧
  (∀ i newFile,
     Files newReport !! i = Some newFile →
     FilePath newFile ∉ FilePath <$> Files baseReport →
     ∃ c1 c2,
       increaseChunks s1 baseReport newReport !! i = Some c1 ∧
       increaseChunks s2 baseReport newReport !! i = Some c2 ∧
       c1 ≡ₚ c2 ∧
       Forall (λ r, IncreasedLineNumbers r =
                      LineNumber <$>
                        filter (λ l, FunctionName l = inc_FunctionName r ∧
                                     0 < Count l)
                               (Lines newFile)) c1).
Proof.
  intros H1 H2.
  split_and!; [done|done|apply ComputeCoverageIncrease_chunks..| |].
  - apply Forall2_same_length_lookup_2.
    + unfold increaseChunks. by rewrite !length_imap.
    + intros i c1 c2. unfold increaseChunks. rewrite !list_lookup_imap.
      destruct (Files newReport !! i) as [newFile|] eqn:Hi; [|done].
      simpl. intros [= <-] [= <-]. apply fileIncreases_same; eauto.
  - intros i newFile Hi Habsent.
    exists (fileIncreases (s1 i) (baseFileMapOf baseReport) newFile),
           (fileIncreases (s2 i) (baseFileMapOf baseReport) newFile).
    split; [by apply increaseChunks_lookup|].
    split; [by apply increaseChunks_lookup|].
    apply new_file_increases_determined; eauto using baseFileMapOf_absent.
Qed.

(** The display name of every increase record is resolved in the file of
    the new report that contributed it. *)
Lemma increase_display_name sched baseReport newReport i newFile chunk :
  Files newReport !! i = Some newFile →
  increaseChunks sched baseReport newReport !! i = Some chunk →
  Forall (λ r, inc_File r = FilePath newFile ∧
               inc_DemangledName r =
                 displayName (Functions newFile) (inc_FunctionName r)) chunk.
Proof.
  intros Hi. rewrite (increaseChunks_lookup _ _ _ _ _ Hi). intros [= <-].
  apply Forall_forall. intros r. unfold fileIncreases.
  destruct (baseFileMapOf baseReport !! FilePath newFile) as [baseFile|].
  - rewrite compareFunctions_bind. intros ([k v] & Hr & _)%list_elem_of_bind.
    apply compareFunction_fields in Hr as (-> & -> & ->).
    by rewrite demangledOr_displayName.
  - rewrite processNewFile_fmap. by intros (kv & -> & _)%list_elem_of_fmap.
Qed.

(** * The uncovered engine *)

Lemma sortInts_sorted a : StronglySorted Z.le (sortInts a).
Proof. apply (StronglySorted_merge_sort Z.le); apply _. Qed.

Lemma sortInts_Permutation a : sortInts a ≡ₚ a.
Proof. apply merge_sort_Permutation. Qed.

(** Whatever algorithm [sort.Ints] runs, this is its result. *)
Lemma sortInts_unique a b :
  StronglySorted Z.le b → b ≡ₚ a → b = sortInts a.
Proof.
  intros Hs Hp.
  apply (StronglySorted_unique Z.le); [done|apply sortInts_sorted|].
  by rewrite Hp, sortInts_Permutation.
Qed.

Lemma sortStrings_sorted a : StronglySorted String.le (sortStrings a).
Proof. apply (StronglySorted_merge_sort String.le); apply _. Qed.

Lemma sortStrings_Permutation a : sortStrings a ≡ₚ a.
Proof. apply merge_sort_Permutation. Qed.

Lemma sortStrings_unique a b :
  StronglySorted String.le b → b ≡ₚ a → b = sortStrings a.
Proof.
  intros Hs Hp.
  apply (StronglySorted_unique String.le); [done|apply sortStrings_sorted|].
  by rewrite Hp, sortStrings_Permutation.
Qed.

(** A sorted list without repetition is strictly sorted. *)
Lemma StronglySorted_strict {A} (R : relation A) `{!AntiSymm (=) R} (l : list A) :
  StronglySorted R l → NoDup l → StronglySorted (strict R) l.
Proof.
  induction 1 as [|x l Hs IH Hall]; intros Hnd; constructor.
  - apply IH. by apply NoDup_cons in Hnd as [_ ?].
  - apply NoDup_cons in Hnd as [Hx _].
    apply Forall_forall. intros y Hy. split.
    + by eapply Forall_forall in Hall.
    + intros Hyx. apply Hx. eapply Forall_forall in Hall; [|done].
      by rewrite (anti_symm R x y Hall Hyx).
Qed.

Lemma StronglySorted_mono {A} (R R' : relation A) (l : list A) :
  (∀ x y, R x y → R' x y) → StronglySorted R l → StronglySorted R' l.
Proof.
  intros HR. induction 1 as [|x l _ IH Hall]; constructor; [done|].
  eapply Forall_impl; [done|]. intros y. apply HR.
Qed.

Lemma strict_Z_le x y : strict Z.le x y ↔ x < y.
Proof. unfold strict. lia. Qed.

Lemma list_find_head_filter {A} (P : A → Prop) `{∀ x, Decision (P x)} (l : list A) :
  snd <$> list_find P l = head (filter P l).
Proof.
  induction l as [|x l IH]; [done|].
  rewrite filter_cons. simpl. destruct (decide (P x)); [done|].
  rewrite <- IH. by destruct (list_find P l) as [[i y]|].
Qed.

Lemma uncoveredFunctionsOf_bind ks fileObj funcUncovered metadata :
  uncoveredFunctionsOf ks fileObj funcUncovered metadata =
  rangeMap funcUncovered ks ≫=
    (λ kv, if len kv.2 =? 0 then [] else [uncoveredRecord fileObj metadata kv]).
Proof.
  unfold uncoveredFunctionsOf.
  rewrite (foldl_append _
    (λ kv, if len kv.2 =? 0 then [] else [uncoveredRecord fileObj metadata kv]));
    [done|].
  intros acc [funcName uncoveredLines]. simpl.
  destruct (len uncoveredLines =? 0); [by rewrite app_nil_r|].
  unfold uncoveredRecord. simpl. by destruct (functionStats fileObj funcName).
Qed.

Lemma uncoveredFilePaths_eq po m :
  uncoveredFilePaths po m =
  sortStrings (filter (λ kv, 0 < Z.of_nat (size kv.2)) (rangeMap m po)).*1.
Proof.
  unfold uncoveredFilePaths. f_equal.
  rewrite (foldl_append _
    (λ kv, if 0 <? Z.of_nat (size kv.2) then [kv.1] else [])).
  - simpl. induction (rangeMap m po) as [|[p funcs] l IH]; [done|].
    rewrite bind_cons, filter_cons, IH. simpl.
    destruct (Z.ltb_spec 0 (Z.of_nat (size funcs))).
    + by rewrite decide_True.
    + by rewrite decide_False by lia.
  - intros acc [p funcs]. simpl. destruct (0 <? _); [done|by rewrite app_nil_r].
Qed.

Lemma FindUncoveredLines_bind s report :
  unc_Files (FindUncoveredLines s report).1 =
  uncoveredFilePaths (pathOrder s) (uncoveredMap (firstPass report)) ≫=
    uncoveredFileOf s report.
Proof.
  unfold FindUncoveredLines. simpl.
  rewrite (foldl_append _ (uncoveredFileOf s report)); [done|].
  intros acc filePath. unfold uncoveredFileOf, firstFileAt.
  rewrite <- list_find_head_filter.
  destruct (list_find _ _) as [[i fileObj]|]; simpl; [|by rewrite app_nil_r].
  destruct (0 <? _); [done|by rewrite app_nil_r].
Qed.

Lemma functionStats_fst fileObj funcName :
  (functionStats fileObj funcName).1 =
  len (filter (λ l, FunctionName l = funcName) (Lines fileObj)).
Proof. by rewrite functionStats_count. Qed.

Lemma functionStats_snd fileObj funcName :
  (functionStats fileObj funcName).2 =
  len (filter (λ l, FunctionName l = funcName ∧ 0 < Count l) (Lines fileObj)).
Proof. by rewrite functionStats_count. Qed.

(** Where the fields of a record of [FindUncoveredLines] come from: the
    line numbers and the display name from the last file with the path of
    the record, the two counts from the first. *)
Lemma uncovered_record_origin s report fu r :
  fu ∈ unc_Files (FindUncoveredLines s report).1 →
  r ∈ UncoveredFunctions fu →
  ∃ firstFile lastFile,
    firstFileAt (Files report) (fu_FilePath fu) = Some firstFile ∧
    lastFileAt (Files report) (fu_FilePath fu) = Some lastFile ∧
    UncoveredLineNumbers r =
      sortInts (LineNumber <$>
                  filter (λ l, FunctionName l = unc_FunctionName r ∧ Count l = 0)
                         (Lines lastFile)) ∧
    UncoveredLineNumbers r ≠ [] ∧
    unc_TotalLines r =
      len (filter (λ l, FunctionName l = unc_FunctionName r) (Lines firstFile)) ∧
    CoveredLines r =
      len (filter (λ l, FunctionName l = unc_FunctionName r ∧ 0 < Count l)
                  (Lines firstFile)) ∧
    unc_DemangledName r = displayName (Functions lastFile) (unc_FunctionName r).
Proof.
  rewrite FindUncoveredLines_bind.
  intros (p & Hfu & _)%list_elem_of_bind Hr. unfold uncoveredFileOf in Hfu.
  destruct (firstFileAt (Files report) p) as [firstFile|] eqn:Hfirst;
    [|by apply elem_of_nil in Hfu].
  simpl in Hfu. destruct (0 <? _); [|by apply elem_of_nil in Hfu].
  apply list_elem_of_singleton in Hfu. subst fu. simpl in *.
  rewrite uncoveredFunctionsOf_bind in Hr.
  apply list_elem_of_bind in Hr as ([funcName lines] & Hr & Hkv).
  apply elem_of_rangeMap in Hkv as [_ Hkv].
  rewrite firstPass_uncoveredMap, firstPass_funcMetadata in *.
  destruct (lastFileAt (Files report) p) as [lastFile|] eqn:Hlast;
    [|simpl in Hkv; by rewrite lookup_empty in Hkv].
  simpl in *. rewrite collectUncovered_lookup in Hkv.
  apply nonempty_Some in Hkv as [-> Hne].
  destruct (Z.eqb_spec (len (LineNumber <$>
      filter (λ l, FunctionName l = funcName ∧ Count l = 0) (Lines lastFile))) 0)
    as [Hl|Hl].
  { by apply elem_of_nil in Hr. }
  apply list_elem_of_singleton in Hr. subst r. unfold uncoveredRecord. simpl.
  exists firstFile, lastFile. split_and!; try done.
  - intros Hnil. apply Hne. apply Permutation_nil_r.
    rewrite <- Hnil. by rewrite sortInts_Permutation.
  - apply functionStats_fst.
  - apply functionStats_snd.
  - apply demangledOr_displayName.
Qed.

Lemma filter_path_unique files f :
  NoDup (FilePath <$> files) → f ∈ files →
  filter (λ g, FilePath g = FilePath f) files = [f].
Proof.
  induction files as [|g files IH]; intros Hnd Hin; [by apply elem_of_nil in Hin|].
  rewrite fmap_cons in Hnd. apply NoDup_cons in Hnd as [Hg Hnd].
  rewrite filter_cons. apply elem_of_cons in Hin as [->|Hin].
  - rewrite decide_True by done. f_equal. apply filter_none.
    intros h Hh Hp. apply Hg. rewrite <- Hp. apply list_elem_of_fmap. by exists h.
  - rewrite decide_False; [by apply IH|].
    intros Hp. apply Hg. rewrite Hp. apply list_elem_of_fmap. by exists f.
Qed.

Lemma firstFileAt_elem files p f :
  firstFileAt files p = Some f → f ∈ files ∧ FilePath f = p.
Proof.
  unfold firstFileAt. intros Hh.
  assert (f ∈ filter (λ g, FilePath g = p) files) as Hin.
  { destruct (filter _ files); simplify_eq/=. by left. }
  apply list_elem_of_filter in Hin as [? ?]. done.
Qed.

Lemma lastFileAt_elem files p f :
  lastFileAt files p = Some f → f ∈ files ∧ FilePath f = p.
Proof.
  unfold lastFileAt. intros Hl.
  assert (f ∈ filter (λ g, FilePath g = p) files) as Hin.
  { apply last_Some in Hl as [l' ->]. apply elem_of_app. right. by left. }
  apply list_elem_of_filter in Hin as [? ?]. done.
Qed.

Lemma lastFileAt_unique files f :
  NoDup (FilePath <$> files) → f ∈ files →
  lastFileAt files (FilePath f) = Some f.
Proof. intros. unfold lastFileAt. by rewrite filter_path_unique. Qed.

Lemma firstFileAt_unique files f :
  NoDup (FilePath <$> files) → f ∈ files →
  firstFileAt files (FilePath f) = Some f.
Proof. intros. unfold firstFileAt. by rewrite filter_path_unique. Qed.

(** Every line of a function is covered or uncovered, when no count is
    negative. *)
Lemma lines_covered_or_uncovered (lines : list Line) funcName :
  Forall (λ l, 0 ≤ Count l) lines →
  len (filter (λ l, FunctionName l = funcName) lines) =
  len (filter (λ l, FunctionName l = funcName ∧ 0 < Count l) lines) +
  len (filter (λ l, FunctionName l = funcName ∧ Count l = 0) lines).
Proof.
  unfold len. induction 1 as [|l lines Hl _ IH]; [done|].
  rewrite !filter_cons.
  destruct (decide (FunctionName l = funcName)),
           (decide (FunctionName l = funcName ∧ 0 < Count l)),
           (decide (FunctionName l = funcName ∧ Count l = 0));
    simpl; first [lia | exfalso; intuition lia].
Qed.

Lemma collectUncovered_nonempty file :
  collectUncovered file ≠ ∅ ↔ ∃ l, l ∈ Lines file ∧ Count l = 0.
Proof.
  split.
  - intros (funcName & lines & Hl)%map_choose.
    rewrite collectUncovered_lookup in Hl. apply nonempty_Some in Hl as [_ Hne].
    destruct (filter _ (Lines file)) as [|l ls] eqn:Hf; [done|].
    assert (l ∈ filter (λ l, FunctionName l = funcName ∧ Count l = 0) (Lines file))
      as [[_ ?] ?]%list_elem_of_filter by (rewrite Hf; left).
    by exists l.
  - intros (l & Hin & Hc) Hempty.
    pose proof (collectUncovered_lookup file (FunctionName l)) as Hl.
    rewrite Hempty, lookup_empty in Hl.
    assert (l ∈ filter (λ l', FunctionName l' = FunctionName l ∧ Count l' = 0)
                       (Lines file)) as Hl'
      by (by apply list_elem_of_filter).
    destruct (filter _ (Lines file)); [by apply elem_of_nil in Hl'|done].
Qed.

Lemma elem_of_uncoveredFilePaths po (m : gmap string (gmap string (list Z))) p :
  range_order m po →
  p ∈ uncoveredFilePaths po m ↔ ∃ funcs, m !! p = Some funcs ∧ funcs ≠ ∅.
Proof.
  intros Hpo. rewrite uncoveredFilePaths_eq, sortStrings_Permutation.
  rewrite list_elem_of_fmap. split.
  - intros ([p' funcs] & -> & [Hs Hin]%list_elem_of_filter).
    apply elem_of_rangeMap in Hin as [_ Hin]. exists funcs. split; [done|].
    intros ->. simpl in Hs. rewrite map_size_empty in Hs. lia.
  - intros (funcs & Hp & Hne). exists (p, funcs). split; [done|].
    apply list_elem_of_filter. split.
    + simpl. apply map_size_non_empty_iff in Hne. lia.
    + apply elem_of_rangeMap. split; [|done].
      eapply range_order_elem_of; [done|]. by eexists.
Qed.

Lemma uncoveredFilePaths_sorted po (m : gmap string (gmap string (list Z))) :
  range_order m po →
  StronglySorted (strict String.le) (uncoveredFilePaths po m).
Proof.
  intros Hpo. apply StronglySorted_strict; [apply _| |].
  - rewrite uncoveredFilePaths_eq. apply sortStrings_sorted.
  - rewrite uncoveredFilePaths_eq, sortStrings_Permutation.
    eapply sublist_NoDup; [|apply fmap_sublist, sublist_filter].
    apply rangeMap_NoDup. by eapply range_order_NoDup.
Qed.

Lemma uncoveredFileOf_listed s report p :
  uncovered_schedule_ok s report →
  p ∈ uncoveredFilePaths (pathOrder s) (uncoveredMap (firstPass report)) →
  ∃ fns, uncoveredFileOf s report p =
           [ {| fu_FilePath := p; UncoveredFunctions := fns |} ] ∧ fns ≠ [].
Proof.
  intros [Hpo Hfo] Hp.
  apply elem_of_uncoveredFilePaths in Hp as (funcs & Hm & Hne); [|done].
  specialize (Hfo _ _ Hm). unfold uncoveredFileOf. rewrite Hm. simpl.
  rewrite firstPass_uncoveredMap in Hm.
  destruct (lastFileAt (Files report) p) as [lastFile|] eqn:Hlast; [|done].
  simpl in Hm. injection Hm as <-.
  apply lastFileAt_elem in Hlast as [Hin Hpath].
  assert (is_Some (firstFileAt (Files report) p)) as [firstFile ->].
  { unfold firstFileAt.
    assert (lastFile ∈ filter (λ f, FilePath f = p) (Files report)) as Hf
      by (by apply list_elem_of_filter).
    destruct (filter _ (Files report)); [by apply elem_of_nil in Hf|by eexists]. }
  set (fns := uncoveredFunctionsOf _ _ _ _).
  assert (fns ≠ []) as Hfns.
  { apply map_choose in Hne as (funcName & lines & Hl).
    assert (uncoveredRecord firstFile
              (default ∅ (funcMetadata (firstPass report) !! p))
              (funcName, lines) ∈ fns) as Hr; [|by intros Hnil; rewrite Hnil in Hr; apply elem_of_nil in Hr].
    subst fns. rewrite uncoveredFunctionsOf_bind. apply list_elem_of_bind.
    exists (funcName, lines). split.
    - rewrite collectUncovered_lookup in Hl. apply nonempty_Some in Hl as [-> Hl].
      simpl. destruct (Z.eqb_spec (len (LineNumber <$>
          filter (λ l, FunctionName l = funcName ∧ Count l = 0) (Lines lastFile))) 0)
        as [Hz|Hz]; [|by left].
      unfold len in Hz. destruct (LineNumber <$> filter _ _); [done|simpl in Hz; lia].
    - apply elem_of_rangeMap. split; [|done].
      eapply range_order_elem_of; [done|]. by eexists. }
  exists fns. split; [|done].
  destruct (Z.ltb_spec 0 (len fns)) as [|Hl]; [done|].
  unfold len in Hl. destruct fns; [done|simpl in Hl; lia].
Qed.

Lemma FindUncoveredLines_paths s report :
  uncovered_schedule_ok s report →
  fu_FilePath <$> unc_Files (FindUncoveredLines s report).1 =
  uncoveredFilePaths (pathOrder s) (uncoveredMap (firstPass report)).
Proof.
  intros Hok. rewrite FindUncoveredLines_bind.
  pose proof (uncoveredFileOf_listed s report) as Hl.
  induction (uncoveredFilePaths _ _) as [|p ps IH]; [done|].
  rewrite bind_cons, fmap_app, IH.
  - destruct (Hl p Hok) as (fns & -> & _); [by left|done].
  - intros q Hok' Hq. apply Hl; [done|by right].
Qed.

(** The same for the flat version: the line numbers come from the last file
    with the path of the record, the counts from the file being visited. *)
Lemma flat_record_origin funcOrderAt report r :
  r ∈ Flat.UncoveredFunctions (Flat.FindUncoveredLines funcOrderAt report).1 →
  ∃ file lastFile,
    file ∈ Files report ∧ Flat.File r = FilePath file ∧
    lastFileAt (Files report) (FilePath file) = Some lastFile ∧
    Flat.UncoveredLineNumbers r =
      sortInts (LineNumber <$>
                  filter (λ l, FunctionName l = Flat.FunctionName r ∧ Count l = 0)
                         (Lines lastFile)) ∧
    Flat.TotalLines r =
      len (filter (λ l, FunctionName l = Flat.FunctionName r) (Lines file)) ∧
    Flat.CoveredLines r =
      len (filter (λ l, FunctionName l = Flat.FunctionName r ∧ 0 < Count l)
                  (Lines file)).
Proof.
  unfold Flat.FindUncoveredLines. simpl.
  rewrite (foldl_append _
    (λ '(i, file),
       Flat.fileRecords (funcOrderAt i) file
         (default ∅ (uncoveredMap (firstPass report) !! FilePath file))
         (default ∅ (funcMetadata (firstPass report) !! FilePath file))))
    by (by intros acc [i file]).
  simpl. intros ([i file] & Hr & Hin)%list_elem_of_bind.
  apply list_elem_of_lookup in Hin as [j Hj].
  rewrite list_lookup_imap in Hj.
  destruct (Files report !! j) as [file'|] eqn:Hfile; [|done].
  simpl in Hj. injection Hj as <- <-.
  assert (file' ∈ Files report) as Hin by (by eapply list_elem_of_lookup_2).
  unfold Flat.fileRecords in Hr.
  rewrite (foldl_append _
    (λ kv, if len kv.2 =? 0 then []
           else [ {| Flat.File := FilePath file';
                     Flat.FunctionName := kv.1;
                     Flat.DemangledName :=
                       demangledOr
                         (default ∅ (funcMetadata (firstPass report) !! FilePath file'))
                         kv.1;
                     Flat.UncoveredLineNumbers := sortInts kv.2;
                     Flat.TotalLines := (functionStats file' kv.1).1;
                     Flat.CoveredLines := (functionStats file' kv.1).2 |} ])) in Hr.
  2:{ intros acc [funcName lines]. simpl.
      destruct (len lines =? 0); [by rewrite app_nil_r|].
      by destruct (functionStats file' funcName). }
  simpl in Hr. apply list_elem_of_bind in Hr as ([funcName lines] & Hr & Hkv).
  apply elem_of_rangeMap in Hkv as [_ Hkv].
  rewrite firstPass_uncoveredMap in Hkv.
  destruct (lastFileAt (Files report) (FilePath file')) as [lastFile|] eqn:Hlast;
    [|simpl in Hkv; by rewrite lookup_empty in Hkv].
  simpl in *. rewrite collectUncovered_lookup in Hkv.
  apply nonempty_Some in Hkv as [-> Hne].
  destruct (len _ =? 0); [by apply elem_of_nil in Hr|].
  apply list_elem_of_singleton in Hr. subst r. simpl.
  exists file', lastFile. split_and!; try done.
  - apply functionStats_fst.
  - apply functionStats_snd.
Qed.

(** C2, as the code has it.  For a report whose file paths are pairwise
    distinct and whose counts are not negative, every record of
    [FindUncoveredLines] (and of its flat version) satisfies
    [TotalLines = CoveredLines + len UncoveredLineNumbers], where
    [TotalLines] counts the lines of the file that carry the function name
    of the record and [CoveredLines] those of them with a positive count. *)
Theorem uncovered_counts_add_up s funcOrderAt report :
  NoDup (FilePath <$> Files report) →
  (∀ file l, file ∈ Files report → l ∈ Lines file → 0 ≤ Count l) →
  (∀ fu r,
     fu ∈ unc_Files (FindUncoveredLines s report).1 →
     r ∈ UncoveredFunctions fu →
     ∃ file,
       file ∈ Files report ∧ FilePath file = fu_FilePath fu ∧
       unc_TotalLines r =
         len (filter (λ l, FunctionName l = unc_FunctionName r) (Lines file)) ∧
       CoveredLines r =
         len (filter (λ l, FunctionName l = unc_FunctionName r ∧ 0 < Count l)
                     (Lines file)) ∧
       unc_TotalLines r = CoveredLines r + len (UncoveredLineNumbers r)) ∧
  (∀ r,
     r ∈ Flat.UncoveredFunctions (Flat.FindUncoveredLines funcOrderAt report).1 →
     ∃ file,
       file ∈ Files report ∧ FilePath file = Flat.File r ∧
       Flat.TotalLines r =
         len (filter (λ l, FunctionName l = Flat.FunctionName r) (Lines file)) ∧
       Flat.CoveredLines r =
         len (filter (λ l, FunctionName l = Flat.FunctionName r ∧ 0 < Count l)
                     (Lines file)) ∧
       Flat.TotalLines r =
         Flat.CoveredLines r + len (Flat.UncoveredLineNumbers r)).
Proof.
  intros Hnd Hpos. split.
  - intros fu r Hfu Hr.
    destruct (uncovered_record_origin s report fu r Hfu Hr)
      as (firstFile & lastFile & Hfirst & Hlast & Hu & _ & Ht & Hc & _).
    apply firstFileAt_elem in Hfirst as [Hin Hpath].
    rewrite <- Hpath, (lastFileAt_unique _ _ Hnd Hin) in Hlast.
    injection Hlast as <-.
    exists firstFile. split_and!; try done.
    rewrite Ht, Hc, Hu. unfold len at 3.
    rewrite (Permutation_length (sortInts_Permutation _)), length_fmap.
    apply lines_covered_or_uncovered, Forall_forall. eauto.
  - intros r Hr.
    destruct (flat_record_origin funcOrderAt report r Hr)
      as (file & lastFile & Hin & Hpath & Hlast & Hu & Ht & Hc).
    rewrite (lastFileAt_unique _ _ Hnd Hin) in Hlast. injection Hlast as <-.
    exists file. split_and!; try done.
    rewrite Ht, Hc, Hu. unfold len at 3.
    rewrite (Permutation_length (sortInts_Permutation _)), length_fmap.
    apply lines_covered_or_uncovered, Forall_forall. eauto.
Qed.

(** C4, as the code has it.  [UncoveredLineNumbers] of every record is in
    ascending order, and it holds each line number as often as zero-count
    lines of the function carry it: it is strictly ascending exactly when
    those lines have pairwise distinct line numbers. *)
Theorem uncovered_lines_ascending s report fu r :
  fu ∈ unc_Files (FindUncoveredLines s report).1 →
  r ∈ UncoveredFunctions fu →
  StronglySorted Z.le (UncoveredLineNumbers r) ∧
  ∃ file,
    lastFileAt (Files report) (fu_FilePath fu) = Some file ∧
    let zeroLines :=
      LineNumber <$>
        filter (λ l, FunctionName l = unc_FunctionName r ∧ Count l = 0)
               (Lines file) in
    UncoveredLineNumbers r ≡ₚ zeroLines ∧
    (StronglySorted Z.lt (UncoveredLineNumbers r) ↔ NoDup zeroLines).
Proof.
  intros Hfu Hr.
  destruct (uncovered_record_origin s report fu r Hfu Hr)
    as (firstFile & lastFile & _ & Hlast & Hu & _).
  rewrite Hu. split; [apply sortInts_sorted|].
  exists lastFile. split; [done|]. simpl. split; [apply sortInts_Permutation|].
  rewrite <- (sortInts_Permutation (LineNumber <$> _)) at 2. split.
  - generalize (sortInts (LineNumber <$>
      filter (λ l, FunctionName l = unc_FunctionName r ∧ Count l = 0) (Lines lastFile))).
    induction 1 as [|x l _ IH Hall]; constructor; [|done].
    intros Hx. eapply Forall_forall in Hall; [|done]. lia.
  - intros Hnd.
    eapply (StronglySorted_mono (strict Z.le)); [intros ? ?; apply strict_Z_le|].
    apply StronglySorted_strict; [apply _|apply sortInts_sorted|done].
Qed.

Lemma canonicalUncoveredSchedule_ok report :
  uncovered_schedule_ok (canonicalUncoveredSchedule report) report.
Proof.
  split; simpl; [apply range_order_canonical|].
  intros filePath funcs ->. apply range_order_canonical.
Qed.

Lemma uncovered_files_nonempty s report :
  Forall (λ fu, UncoveredFunctions fu ≠ [])
         (unc_Files (FindUncoveredLines s report).1).
Proof.
  rewrite FindUncoveredLines_bind. apply Forall_forall.
  intros fu (p & Hfu & _)%list_elem_of_bind. unfold uncoveredFileOf in Hfu.
  destruct (firstFileAt _ _); [|by apply elem_of_nil in Hfu]. simpl in Hfu.
  destruct (Z.ltb_spec 0 (len (uncoveredFunctionsOf (uncFuncOrder s p) f
      (default ∅ (uncoveredMap (firstPass report) !! p))
      (default ∅ (funcMetadata (firstPass report) !! p))))) as [Hl|Hl];
    [|by apply elem_of_nil in Hfu].
  apply list_elem_of_singleton in Hfu. subst fu. simpl.
  intros Hnil. rewrite Hnil in Hl. unfold len in Hl. simpl in Hl. lia.
Qed.

(** C5, as the code has it.  The files of the result are in strictly
    ascending order of path and none has an empty list of functions.  A
    path is in the result exactly when the last file of the report with that
    path has a line of count 0; so for a report with pairwise distinct
    paths a file is in the result exactly when one of its lines has count
    0.  A report without files, or with positive counts only, gives a
    result without files. *)
Theorem uncovered_files_listing s report :
  uncovered_schedule_ok s report →
  let files := unc_Files (FindUncoveredLines s report).1 in
  StronglySorted (strict String.le) (fu_FilePath <$> files) ∧
  Forall (λ fu, UncoveredFunctions fu ≠ []) files ∧
  (∀ path,
     path ∈ fu_FilePath <$> files ↔
     ∃ file, lastFileAt (Files report) path = Some file ∧
             ∃ l, l ∈ Lines file ∧ Count l = 0) ∧
  (NoDup (FilePath <$> Files report) →
   ∀ file, file ∈ Files report →
     FilePath file ∈ fu_FilePath <$> files ↔ ∃ l, l ∈ Lines file ∧ Count l = 0) ∧
  (Files report = [] → files = []) ∧
  ((∀ file l, file ∈ Files report → l ∈ Lines file → 0 < Count l) → files = []).
Proof.
  intros Hok files.
  assert (Hpaths : ∀ path,
     path ∈ fu_FilePath <$> files ↔
     ∃ file, lastFileAt (Files report) path = Some file ∧
             ∃ l, l ∈ Lines file ∧ Count l = 0).
  { intros path. subst files. rewrite (FindUncoveredLines_paths _ _ Hok).
    rewrite (elem_of_uncoveredFilePaths _ _ _ (proj1 Hok)).
    rewrite firstPass_uncoveredMap. split.
    - intros (funcs & Hm & Hne).
      destruct (lastFileAt (Files report) path) as [file|]; [|done].
      simpl in Hm. injection Hm as <-. exists file. split; [done|].
      by apply collectUncovered_nonempty.
    - intros (file & -> & Hl). exists (collectUncovered file). split; [done|].
      by apply collectUncovered_nonempty. }
  assert (Hnone : (∀ file l, file ∈ Files report → l ∈ Lines file → 0 < Count l) →
                  files = []).
  { intros Hcov. destruct files as [|fu files'] eqn:Hf; [done|]. exfalso.
    destruct (proj1 (Hpaths (fu_FilePath fu))) as (file & Hlast & l & Hl & Hc).
    { rewrite fmap_cons. by left. }
    apply lastFileAt_elem in Hlast as [Hin _].
    specialize (Hcov file l Hin Hl). lia. }
  split_and!.
  - subst files. rewrite (FindUncoveredLines_paths _ _ Hok).
    apply uncoveredFilePaths_sorted, Hok.
  - apply uncovered_files_nonempty.
  - done.
  - intros Hnd file Hin. rewrite Hpaths.
    rewrite (lastFileAt_unique _ _ Hnd Hin). split.
    + by intros (file' & [= <-] & Hl).
    + intros Hl. by exists file.
  - intros Hnil. apply Hnone. intros file l Hin. rewrite Hnil in Hin.
    by apply elem_of_nil in Hin.
  - done.
Qed.

(** C9.  The error returned by [ComputeCoverageIncrease] and by
    [FindUncoveredLines] is [nil] whatever the reports and the iteration
    orders are, an admissible iteration order always exists, so both return,
    and a report without files gives an empty result with a [nil] error. *)
Theorem engines_never_fail :
  (∀ sched baseReport newReport,
     (ComputeCoverageIncrease sched baseReport newReport).2 = None) ∧
  (∀ s report, (FindUncoveredLines s report).2 = None) ∧
  (∀ funcOrderAt report, (Flat.FindUncoveredLines funcOrderAt report).2 = None) ∧
  (∀ baseReport newReport,
     ∃ sched, diff_schedule_ok sched baseReport newReport) ∧
  (∀ report, ∃ s, uncovered_schedule_ok s report) ∧
  (∀ sched baseReport version,
     ComputeCoverageIncrease sched baseReport (mkReport version []) =
     (mkIncreaseReport [], None)) ∧
  (∀ s version,
     FindUncoveredLines s (mkReport version []) = (mkUncoveredReport [], None)).
Proof.
  split_and!; try done.
  - intros b n. exists (canonicalDiffSchedule b n). apply canonicalDiffSchedule_ok.
  - intros r. exists (canonicalUncoveredSchedule r).
    apply canonicalUncoveredSchedule_ok.
  - intros s version. unfold FindUncoveredLines. f_equal. f_equal.
    rewrite uncoveredFilePaths_eq. simpl.
    assert (rangeMap (∅ : gmap string (gmap string (list Z))) (pathOrder s) = [])
      as ->; [|done].
    unfold rangeMap. induction (pathOrder s) as [|p ps IH]; [done|].
    simpl. by rewrite lookup_empty.
Qed.

(** C10.  The [DemangledName] of every record of
    [ComputeCoverageIncrease] and of [FindUncoveredLines] is the demangled
    name of the last entry of the file's [Functions] whose [Name] is the
    function name of the record, and the function name itself when there is
    no such entry or its demangled name is the empty string.  For
    [FindUncoveredLines] the file is the last one of the report with the
    path of the record. *)
Theorem display_name_resolution :
  (∀ sched baseReport newReport,
     Increases (ComputeCoverageIncrease sched baseReport newReport).1 =
       mjoin (increaseChunks sched baseReport newReport) ∧
     ∀ i newFile chunk,
       Files newReport !! i = Some newFile →
       increaseChunks sched baseReport newReport !! i = Some chunk →
       Forall (λ r, inc_File r = FilePath newFile ∧
                    inc_DemangledName r =
                      displayName (Functions newFile) (inc_FunctionName r))
              chunk) ∧
  (∀ s report fu r,
     fu ∈ unc_Files (FindUncoveredLines s report).1 →
     r ∈ UncoveredFunctions fu →
     ∃ file,
       lastFileAt (Files report) (fu_FilePath fu) = Some file ∧
       unc_DemangledName r = displayName (Functions file) (unc_FunctionName r)) ∧
  (∀ fns funcName,
     displayName fns funcName =
     match last (filter (λ f, Name f = funcName) fns) with
     | Some f =>
         if decide (DemangledName f = EmptyString) then funcName
         else DemangledName f
     | None => funcName
     end) ∧
  (∀ fns funcName f,
     last (filter (λ f, Name f = funcName) fns) = Some f →
     DemangledName f = EmptyString →
     displayName fns funcName = funcName).
Proof.
  split_and!.
  - intros sched b n. split; [apply ComputeCoverageIncrease_chunks|].
    intros i newFile chunk. apply increase_display_name.
  - intros s report fu r Hfu Hr.
    destruct (uncovered_record_origin s report fu r Hfu Hr)
      as (firstFile & lastFile & _ & Hlast & _ & _ & _ & _ & Hd).
    by exists lastFile.
  - done.
  - intros fns funcName f Hl Hd. unfold displayName, lastFunctionNamed.
    rewrite Hl. by rewrite decide_True.
Qed.

(** * The filter engine *)

Lemma baseIdentifier_is_base demangledName :
  is_base_identifier demangledName (baseIdentifier demangledName).
Proof.
  unfold is_base_identifier.
  induction demangledName as [|c rest [IHn IHs]]; simpl.
  - split; [tauto|by left].
  - destruct (Ascii.eqb_spec c "("%char) as [->|Hc]; simpl.
    + split; [tauto|]. right. by exists rest.
    + split; [intros [?|?]; [congruence|tauto]|].
      destruct IHs as [IHs|[rest' IHs]].
      * left. congruence.
      * right. exists rest'. by rewrite IHs at 1.
Qed.

Lemma is_base_identifier_unique demangledName base :
  is_base_identifier demangledName base → base = baseIdentifier demangledName.
Proof.
  unfold is_base_identifier. revert demangledName.
  induction base as [|c base IH]; intros d [Hno Hd].
  - destruct Hd as [->|[rest ->]]; [done|]. simpl. done.
  - simpl in Hno.
    assert (c ≠ "("%char) as Hc by (intros ->; tauto).
    assert (¬ occurs "("%char base) as Hno' by tauto.
    destruct Hd as [->|[rest ->]]; simpl.
    + destruct (Ascii.eqb_spec c "("%char); [done|]. f_equal.
      apply IH. split; [done|by left].
    + destruct (Ascii.eqb_spec c "("%char); [done|]. f_equal.
      apply IH. split; [done|]. right. by exists rest.
Qed.

Lemma shouldIncludeFunction_true demangledName mangledName (allowed : gset string) :
  shouldIncludeFunction demangledName mangledName allowed = true ↔
  mangledName ∈ allowed ∨ demangledName ∈ allowed ∨
  ∃ base, is_base_identifier demangledName base ∧ base ∈ allowed.
Proof.
  unfold shouldIncludeFunction. rewrite !orb_true_iff, !bool_decide_eq_true.
  split.
  - intros [[?|?]|?]; [by left|by right; left|].
    right; right. exists (baseIdentifier demangledName).
    split; [apply baseIdentifier_is_base|done].
  - intros [?|[?|(base & Hb & ?)]]; [by left; left|by left; right|].
    right. by rewrite <- (is_base_identifier_unique _ _ Hb).
Qed.

(** C7.  [ApplyFilter] with an absent filter specification, or with one
    that has no target, returns the report it was given: the same files
    with the same lines and functions, and the same format version.  It is
    a total function, so it returns on every report. *)
Theorem filter_pass_through normalizeFilePath baseName report :
  ApplyFilter normalizeFilePath baseName report None = report ∧
  ApplyFilter normalizeFilePath baseName report (Some (mkFilterConfig [])) = report.
Proof. by split. Qed.

(** C6.  Under a filter specification with at least one target, a
    function of a file that matches a target is retained exactly when it
    passes [shouldIncludeFunction] against the functions of that target,
    that is exactly when they hold its mangled name, its full demangled
    name, or the base identifier of its demangled name (the part before the
    first ['('], or the whole name without one).  Membership compares
    strings for equality, so the match is exact and case-sensitive. *)
Theorem function_retained normalizeFilePath baseName report config target file fn :
  Targets config ≠ [] →
  file ∈ Files report →
  matchTarget normalizeFilePath baseName (Targets config) (FilePath file)
    = Some target →
  fn ∈ Functions file →
  let allowed : gset string := list_to_set (tgt_Functions target) in
  let retained :=
    ∃ file', file' ∈ Files (ApplyFilter normalizeFilePath baseName report
                              (Some config)) ∧
             FilePath file' = FilePath file ∧ fn ∈ Functions file' in
  (retained ↔ shouldIncludeFunction (DemangledName fn) (Name fn) allowed = true) ∧
  (retained ↔
     Name fn ∈ tgt_Functions target ∨
     DemangledName fn ∈ tgt_Functions target ∨
     ∃ base, is_base_identifier (DemangledName fn) base ∧
             base ∈ tgt_Functions target).
Proof.
  intros Hne Hfile Hmatch Hfn allowed retained.
  assert (Hret : retained ↔
            shouldIncludeFunction (DemangledName fn) (Name fn) allowed = true).
  { subst retained. unfold ApplyFilter.
    destruct (Targets config) as [|t ts] eqn:Ht; [done|]. simpl. split.
    - intros (file' & Hin & Hpath & Hfn').
      apply list_elem_of_omap in Hin as (g & Hg & Hsome).
      destruct (matchTarget _ _ (t :: ts) (FilePath g)) as [target'|] eqn:Hm;
        [|done].
      simpl in Hsome. destruct (0 <? _); [|done]. injection Hsome as <-.
      simpl in Hpath. rewrite Hpath, Hmatch in Hm. injection Hm as <-.
      simpl in Hfn'. by apply list_elem_of_filter in Hfn' as [? _].
    - intros Hinc. exists (filterFile allowed file).
      assert (fn ∈ Functions (filterFile allowed file)) as Hfn'.
      { simpl. by apply list_elem_of_filter. }
      split_and!; [|done|done].
      apply list_elem_of_omap. exists file. split; [done|].
      rewrite Hmatch. simpl.
      destruct (Z.ltb_spec 0 (len (filter
        (λ fn0, shouldIncludeFunction (DemangledName fn0) (Name fn0)
                  (list_to_set (tgt_Functions target)) = true) (Functions file))))
        as [|Hl]; [done|].
      simpl in Hfn'. fold allowed in Hl. unfold len in Hl.
      destruct (filter _ (Functions file)); [by apply elem_of_nil in Hfn'|].
      simpl in Hl. lia. }
  split; [done|]. rewrite Hret, shouldIncludeFunction_true.
  subst allowed. by setoid_rewrite elem_of_list_to_set.
Qed.

(** * The engines on concrete reports *)

(** Scenario 1, its lines visited in ascending order: lines 1 and 2 are
    newly covered. *)
Lemma compared_function_increase_witness :
  diff_schedule_ok (visiting ["foo"] [1; 2; 3]) s1_base s1_new ∧
  Files s1_new !! 0%nat = Some s1_newFile ∧
  lastFileAt (Files s1_base) (FilePath s1_newFile) = Some s1_baseFile ∧
  mkLine 1 "foo" 1 ∈ Lines s1_newFile ∧
  ∃ chunk : list FunctionCoverageIncrease,
    increaseChunks (visiting ["foo"] [1; 2; 3]) s1_base s1_new !! 0%nat
      = Some chunk ∧
    let recs := filter (λ r, inc_FunctionName r = "foo") chunk in
    let lines := recs ≫= IncreasedLineNumbers in
    (length recs ≤ 1)%nat ∧
    NoDup lines ∧
    (∀ lineNum, lineNum ∈ lines ↔
       ∃ newCount, lineCountAt s1_newFile "foo" lineNum = Some newCount ∧
         countAt s1_baseFile "foo" lineNum = 0 ∧ 0 < newCount) ∧
    Forall (λ r,
              OldCoveredLines r =
                len (filter (λ lineNum, 0 < countAt s1_baseFile "foo" lineNum)
                            (lineNumbersOf s1_newFile "foo")) ∧
              NewCoveredLines r =
                len (filter (λ lineNum, 0 < countAt s1_newFile "foo" lineNum)
                            (lineNumbersOf s1_newFile "foo"))) recs.
Proof.
  assert (H1 : diff_schedule_ok (visiting ["foo"] [1; 2; 3]) s1_base s1_new)
    by diff_schedule_by_computation.
  assert (H2 : Files s1_new !! 0%nat = Some s1_newFile) by reflexivity.
  assert (H3 : lastFileAt (Files s1_base) (FilePath s1_newFile) = Some s1_baseFile)
    by (vm_compute; reflexivity).
  assert (H4 : mkLine 1 "foo" 1 ∈ Lines s1_newFile) by (simpl; left).
  split_and!; [exact H1|exact H2|exact H3|exact H4|].
  exact (proj2 (compared_function_increase _ _ _ _ _ _ "foo" _ H1 H2 H3 H4
                  eq_refl)).
Defined.

(** The new file of the test suite: one record for [bar], both lines. *)
Lemma new_file_increase_witness :
  diff_schedule_ok (visiting ["bar"] []) nf_base nf_new ∧
  Files nf_new !! 0%nat = Some nf_newFile ∧
  baseFileMapOf nf_base !! FilePath nf_newFile = None ∧
  ∃ chunk : list FunctionCoverageIncrease,
    increaseChunks (visiting ["bar"] []) nf_base nf_new !! 0%nat = Some chunk ∧
    filter (λ r, inc_FunctionName r = "bar") chunk =
    [mkIncrease "new.cpp" "bar" "bar()" 2 2 [1; 2] 0 2].
Proof.
  assert (H1 : diff_schedule_ok (visiting ["bar"] []) nf_base nf_new)
    by diff_schedule_by_computation.
  assert (H2 : Files nf_new !! 0%nat = Some nf_newFile) by reflexivity.
  assert (H3 : baseFileMapOf nf_base !! FilePath nf_newFile = None)
    by reflexivity.
  split_and!; [exact H1|exact H2|exact H3|].
  exact (proj2 (new_file_increase _ _ _ _ _ "bar" H1 H2 H3)).
Defined.

(** C8 does not hold as stated.  The two orders of the line numbers of
    scenario 1 give two results, and so do the two orders of the functions
    of the test with two functions: neither the order of the line numbers
    of a record nor the order of the records is fixed by the inputs. *)
Lemma increase_order_follows_iteration :
  (diff_schedule_ok (visiting ["foo"] [1; 2; 3]) s1_base s1_new ∧
   diff_schedule_ok (visiting ["foo"] [2; 1; 3]) s1_base s1_new ∧
   ComputeCoverageIncrease (visiting ["foo"] [1; 2; 3]) s1_base s1_new =
     (mkIncreaseReport [mkIncrease "t.cpp" "foo" "foo()" 2 3 [1; 2] 1 3], None) ∧
   ComputeCoverageIncrease (visiting ["foo"] [2; 1; 3]) s1_base s1_new =
     (mkIncreaseReport [mkIncrease "t.cpp" "foo" "foo()" 2 3 [2; 1] 1 3], None)) ∧
  (diff_schedule_ok (mf_visiting ["foo"; "bar"]) mf_base mf_new ∧
   diff_schedule_ok (mf_visiting ["bar"; "foo"]) mf_base mf_new ∧
   ComputeCoverageIncrease (mf_visiting ["foo"; "bar"]) mf_base mf_new =
     (mkIncreaseReport [mkIncrease "test.cpp" "foo" "foo()" 1 1 [1] 0 1;
                        mkIncrease "test.cpp" "bar" "bar()" 1 1 [5] 0 1], None) ∧
   ComputeCoverageIncrease (mf_visiting ["bar"; "foo"]) mf_base mf_new =
     (mkIncreaseReport [mkIncrease "test.cpp" "bar" "bar()" 1 1 [5] 0 1;
                        mkIncrease "test.cpp" "foo" "foo()" 1 1 [1] 0 1], None)) ∧
  ¬ (∀ s s' baseReport newReport,
       diff_schedule_ok s baseReport newReport →
       diff_schedule_ok s' baseReport newReport →
       ComputeCoverageIncrease s baseReport newReport =
       ComputeCoverageIncrease s' baseReport newReport).
Proof.
  assert (H1 : diff_schedule_ok (visiting ["foo"] [1; 2; 3]) s1_base s1_new)
    by diff_schedule_by_computation.
  assert (H2 : diff_schedule_ok (visiting ["foo"] [2; 1; 3]) s1_base s1_new)
    by diff_schedule_by_computation.
  split_and!.
  - exact H1.
  - exact H2.
  - vm_compute. reflexivity.
  - vm_compute. reflexivity.
  - diff_schedule_by_computation.
  - diff_schedule_by_computation.
  - vm_compute. reflexivity.
  - vm_compute. reflexivity.
  - intros Hdet. specialize (Hdet _ _ _ _ H1 H2). vm_compute in Hdet.
    discriminate Hdet.
Qed.

(** The two functions of the test suite, visited in either order, and a
    file that the base report does not have. *)
Lemma increase_determined_up_to_order_witness :
  diff_schedule_ok (mfn_visiting ["foo"; "bar"]) mf_base mfn_new ∧
  diff_schedule_ok (mfn_visiting ["bar"; "foo"]) mf_base mfn_new ∧
  (ComputeCoverageIncrease (mfn_visiting ["foo"; "bar"]) mf_base mfn_new).2 = None ∧
  (ComputeCoverageIncrease (mfn_visiting ["bar"; "foo"]) mf_base mfn_new).2 = None ∧
  Forall2 same_increases
    (increaseChunks (mfn_visiting ["foo"; "bar"]) mf_base mfn_new)
    (increaseChunks (mfn_visiting ["bar"; "foo"]) mf_base mfn_new) ∧
  (∀ i newFile,
     Files mfn_new !! i = Some newFile →
     FilePath newFile ∉ FilePath <$> Files mf_base →
     ∃ c1 c2,
       increaseChunks (mfn_visiting ["foo"; "bar"]) mf_base mfn_new !! i = Some c1 ∧
       increaseChunks (mfn_visiting ["bar"; "foo"]) mf_base mfn_new !! i = Some c2 ∧
       c1 ≡ₚ c2 ∧
       Forall (λ r, IncreasedLineNumbers r =
                      LineNumber <$>
                        filter (λ l, FunctionName l = inc_FunctionName r ∧
                                     0 < Count l)
                               (Lines newFile)) c1).
Proof.
  assert (H1 : diff_schedule_ok (mfn_visiting ["foo"; "bar"]) mf_base mfn_new).
  { intros i f Hi. destruct i as [|[|i]]; [| |discriminate Hi];
      injection Hi as <-; file_schedule_by_computation. }
  assert (H2 : diff_schedule_ok (mfn_visiting ["bar"; "foo"]) mf_base mfn_new).
  { intros i f Hi. destruct i as [|[|i]]; [| |discriminate Hi];
      injection Hi as <-; file_schedule_by_computation. }
  pose proof (increase_determined_up_to_order _ _ _ _ H1 H2)
    as (E1 & E2 & _ & _ & Hsame & Hnew).
  split_and!; [exact H1|exact H2|exact E1|exact E2|exact Hsame|exact Hnew].
Defined.

(** The statistics test: 5 lines, 3 covered, 2 uncovered. *)
Lemma uncovered_counts_add_up_witness :
  NoDup (FilePath <$> Files st_report) ∧
  (∀ file l, file ∈ Files st_report → l ∈ Lines file → 0 ≤ Count l) ∧
  mkFileUncovered "test.cpp" [st_record]
    ∈ unc_Files (FindUncoveredLines st_schedule st_report).1 ∧
  unc_TotalLines st_record =
    CoveredLines st_record + len (UncoveredLineNumbers st_record) ∧
  st_flat_record
    ∈ Flat.UncoveredFunctions (Flat.FindUncoveredLines (λ _, ["foo"]) st_report).1 ∧
  Flat.TotalLines st_flat_record =
    Flat.CoveredLines st_flat_record +
    len (Flat.UncoveredLineNumbers st_flat_record).
Proof.
  assert (H1 : NoDup (FilePath <$> Files st_report)).
  { apply (bool_decide_unpack _). vm_compute. exact I. }
  assert (H2 : ∀ file l, file ∈ Files st_report → l ∈ Lines file → 0 ≤ Count l).
  { intros file l ->%list_elem_of_singleton Hl. simpl in Hl.
    repeat (apply elem_of_cons in Hl as [->|Hl]; [simpl; lia|]).
    by apply elem_of_nil in Hl. }
  assert (H3 : mkFileUncovered "test.cpp" [st_record]
                 ∈ unc_Files (FindUncoveredLines st_schedule st_report).1)
    by (vm_compute; left).
  assert (H4 : st_record ∈ UncoveredFunctions (mkFileUncovered "test.cpp" [st_record]))
    by (simpl; left).
  assert (H5 : st_flat_record ∈ Flat.UncoveredFunctions
                 (Flat.FindUncoveredLines (λ _, ["foo"]) st_report).1)
    by (vm_compute; left).
  pose proof (uncovered_counts_add_up st_schedule (λ _, ["foo"]) st_report H1 H2)
    as [Hgrouped Hflat].
  split_and!; [exact H1|exact H2|exact H3| |exact H5|].
  - destruct (Hgrouped _ _ H3 H4) as (file & _ & _ & _ & _ & Hsum). exact Hsum.
  - destruct (Hflat _ H5) as (file & _ & _ & _ & _ & Hsum). exact Hsum.
Defined.

(** C2 does not hold as stated.  With the path [a.cpp] listed twice, the
    line numbers of the record come from the second entry and its counts
    from the first; with a negative count, a line is counted in
    [TotalLines] and nowhere else.  In both cases [TotalLines] is not
    [CoveredLines] plus the number of uncovered line numbers. *)
Lemma uncovered_counts_may_differ :
  (uncovered_schedule_ok (a_schedule ["f"]) dup_report ∧
   FindUncoveredLines (a_schedule ["f"]) dup_report =
     (mkUncoveredReport
        [mkFileUncovered "a.cpp" [mkFunctionUncovered "f" "f" [1] 0 0]], None) ∧
   0 ≠ 0 + len [1]) ∧
  (uncovered_schedule_ok (a_schedule ["f"]) neg_report ∧
   FindUncoveredLines (a_schedule ["f"]) neg_report =
     (mkUncoveredReport
        [mkFileUncovered "a.cpp" [mkFunctionUncovered "f" "f" [1] 2 0]], None) ∧
   2 ≠ 0 + len [1]) ∧
  ¬ (∀ s report fu r,
       uncovered_schedule_ok s report →
       fu ∈ unc_Files (FindUncoveredLines s report).1 →
       r ∈ UncoveredFunctions fu →
       unc_TotalLines r = CoveredLines r + len (UncoveredLineNumbers r)).
Proof.
  assert (H1 : uncovered_schedule_ok (a_schedule ["f"]) dup_report)
    by uncovered_schedule_by_computation.
  split_and!.
  - exact H1.
  - vm_compute. reflexivity.
  - unfold len. simpl. lia.
  - uncovered_schedule_by_computation.
  - vm_compute. reflexivity.
  - unfold len. simpl. lia.
  - intros Hall.
    assert (0 = 0 + len [1]) as Hsum; [|unfold len in Hsum; simpl in Hsum; lia].
    apply (Hall (a_schedule ["f"]) dup_report
             (mkFileUncovered "a.cpp" [mkFunctionUncovered "f" "f" [1] 0 0])
             (mkFunctionUncovered "f" "f" [1] 0 0) H1).
    + vm_compute. left.
    + simpl. left.
Qed.

(** The statistics test: lines 2 and 3, in strictly ascending order. *)
Lemma uncovered_lines_ascending_witness :
  mkFileUncovered "test.cpp" [st_record]
    ∈ unc_Files (FindUncoveredLines st_schedule st_report).1 ∧
  st_record ∈ UncoveredFunctions (mkFileUncovered "test.cpp" [st_record]) ∧
  StronglySorted Z.le (UncoveredLineNumbers st_record) ∧
  StronglySorted Z.lt (UncoveredLineNumbers st_record).
Proof.
  assert (H1 : mkFileUncovered "test.cpp" [st_record]
                 ∈ unc_Files (FindUncoveredLines st_schedule st_report).1)
    by (vm_compute; left).
  assert (H2 : st_record ∈ UncoveredFunctions (mkFileUncovered "test.cpp" [st_record]))
    by (simpl; left).
  destruct (uncovered_lines_ascending st_schedule st_report _ _ H1 H2)
    as (Hle & file & Hlast & _ & Hstrict).
  split_and!; [exact H1|exact H2|exact Hle|].
  apply Hstrict. injection Hlast as <-.
  apply (bool_decide_unpack _). vm_compute. exact I.
Defined.

(** C4 does not hold as stated.  Two zero-count lines of [f] with line
    number 5 give the list [5; 5], which is not strictly ascending. *)
Lemma uncovered_lines_may_repeat :
  uncovered_schedule_ok (a_schedule ["f"]) rep_report ∧
  FindUncoveredLines (a_schedule ["f"]) rep_report =
    (mkUncoveredReport
       [mkFileUncovered "a.cpp" [mkFunctionUncovered "f" "f" [5; 5] 2 0]], None) ∧
  ¬ StronglySorted Z.lt [5; 5].
Proof.
  split_and!.
  - uncovered_schedule_by_computation.
  - vm_compute. reflexivity.
  - intros Hs. apply StronglySorted_inv in Hs as [_ Hall].
    apply Forall_cons in Hall as [Hlt _]. lia.
Qed.

(** The two files of the grouping test come out in ascending order of path
    although they are visited in descending order. *)
Lemma uncovered_files_listing_witness :
  uncovered_schedule_ok gf_schedule gf_report ∧
  let files := unc_Files (FindUncoveredLines gf_schedule gf_report).1 in
  fu_FilePath <$> files = ["file1.cpp"; "file2.cpp"] ∧
  StronglySorted (strict String.le) (fu_FilePath <$> files) ∧
  Forall (λ fu, UncoveredFunctions fu ≠ []) files.
Proof.
  assert (H1 : uncovered_schedule_ok gf_schedule gf_report)
    by uncovered_schedule_by_computation.
  split; [exact H1|]. cbv zeta. split; [vm_compute; reflexivity|].
  pose proof (uncovered_files_listing gf_schedule gf_report H1) as (Hs & Hn & _).
  split; [exact Hs|exact Hn].
Defined.

(** C5 does not hold as stated.  The path [a.cpp] is listed twice; the
    first entry has a line of count 0, the second, which replaces it in the
    maps, has none.  The result has no file, so the first entry is not in
    it. *)
Lemma uncovered_file_may_be_dropped :
  uncovered_schedule_ok (a_schedule []) dup_report' ∧
  FindUncoveredLines (a_schedule []) dup_report' = (mkUncoveredReport [], None) ∧
  dup_first ∈ Files dup_report' ∧
  mkLine 1 "f" 0 ∈ Lines dup_first ∧
  ¬ (∀ s report file,
       uncovered_schedule_ok s report →
       file ∈ Files report →
       FilePath file ∈ fu_FilePath <$> unc_Files (FindUncoveredLines s report).1 ↔
       ∃ l, l ∈ Lines file ∧ Count l = 0).
Proof.
  assert (H1 : uncovered_schedule_ok (a_schedule []) dup_report')
    by uncovered_schedule_by_computation.
  assert (H2 : dup_first ∈ Files dup_report') by (simpl; left).
  assert (H3 : mkLine 1 "f" 0 ∈ Lines dup_first) by (simpl; left).
  split_and!.
  - exact H1.
  - vm_compute. reflexivity.
  - exact H2.
  - exact H3.
  - intros Hall. destruct (Hall _ _ _ H1 H2) as [_ Hin].
    assert (FilePath dup_first ∈ fu_FilePath <$>
              unc_Files (FindUncoveredLines (a_schedule []) dup_report').1) as Hbad.
    { apply Hin. by exists (mkLine 1 "f" 0). }
    vm_compute in Hbad. by apply elem_of_nil in Hbad.
Qed.

(** Scenario 3: [f] retains the function whose demangled name is [f()]. *)
Lemma function_retained_witness :
  Targets sc3_config ≠ [] ∧
  sc3_file ∈ Files sc3_report ∧
  matchTarget id id (Targets sc3_config) (FilePath sc3_file) = Some sc3_target ∧
  sc3_f ∈ Functions sc3_file ∧
  is_base_identifier (DemangledName sc3_f) "f" ∧
  ∃ file', file' ∈ Files (ApplyFilter id id sc3_report (Some sc3_config)) ∧
           FilePath file' = FilePath sc3_file ∧ sc3_f ∈ Functions file'.
Proof.
  assert (H1 : Targets sc3_config ≠ []) by discriminate.
  assert (H2 : sc3_file ∈ Files sc3_report) by (simpl; left).
  assert (H3 : matchTarget id id (Targets sc3_config) (FilePath sc3_file)
               = Some sc3_target) by reflexivity.
  assert (H4 : sc3_f ∈ Functions sc3_file) by (simpl; left).
  assert (H5 : is_base_identifier (DemangledName sc3_f) "f").
  { split; [simpl; intros [[=]|[]]|]. right. by exists ")"%string. }
  split_and!; [exact H1|exact H2|exact H3|exact H4|exact H5|].
  apply (proj2 (function_retained id id sc3_report sc3_config sc3_target
                  sc3_file sc3_f H1 H2 H3 H4)).
  right. right. exists "f"%string. split; [exact H5|]. simpl. left.
Defined.

(** A function entry with an empty demangled name: the record shows the
    mangled name. *)
Lemma display_name_resolution_witness :
  mkFileUncovered "a.cpp" [mkFunctionUncovered "_Z1fv" "_Z1fv" [1] 1 0]
    ∈ unc_Files (FindUncoveredLines (a_schedule ["_Z1fv"]) em_report).1 ∧
  ∃ file,
    lastFileAt (Files em_report) "a.cpp" = Some file ∧
    "_Z1fv"%string = displayName (Functions file) "_Z1fv".
Proof.
  assert (H1 : mkFileUncovered "a.cpp" [mkFunctionUncovered "_Z1fv" "_Z1fv" [1] 1 0]
                 ∈ unc_Files (FindUncoveredLines (a_schedule ["_Z1fv"]) em_report).1)
    by (vm_compute; left).
  split; [exact H1|].
  apply (proj1 (proj2 display_name_resolution) (a_schedule ["_Z1fv"]) em_report
           _ (mkFunctionUncovered "_Z1fv" "_Z1fv" [1] 1 0) H1).
  simpl. left.
Defined.

(** * More on the diff engine *)

(** An entry of the line-coverage map comes from a line of the file. *)
Lemma line_map_entry file funcName (lm : gmap Z Z) lineNum c :
  buildLineCoverageMap file !! funcName = Some lm →
  lm !! lineNum = Some c →
  ∃ l, l ∈ Lines file ∧ FunctionName l = funcName ∧
       LineNumber l = lineNum ∧ Count l = c.
Proof.
  intros Hm Hl.
  pose proof (buildLineCoverageMap_lookup file funcName lineNum) as H.
  rewrite Hm in H. simpl in H. rewrite Hl in H.
  destruct (last _) as [l|] eqn:Hlast; [|done].
  simpl in H. injection H as ->.
  apply last_Some in Hlast as [l' Hl'].
  assert (l ∈ filter (λ l0, FunctionName l0 = funcName ∧ LineNumber l0 = lineNum)
                     (Lines file)) as Hin.
  { rewrite Hl'. apply elem_of_app. right. by left. }
  apply list_elem_of_filter in Hin as [[? ?] ?]. by exists l.
Qed.

(** The map of a function has at most as many line numbers as the file has
    lines of the function. *)
Lemma line_map_size file funcName (lm : gmap Z Z) :
  buildLineCoverageMap file !! funcName = Some lm →
  (size lm ≤ length (filter (λ l, FunctionName l = funcName) (Lines file)))%nat.
Proof.
  unfold buildLineCoverageMap. revert lm.
  induction (Lines file) as [|l ls IH] using rev_ind; intros lm.
  - simpl. by rewrite lookup_empty.
  - rewrite foldl_snoc, filter_app, length_app, filter_cons, filter_nil.
    set (m := foldl _ _ ls) in *.
    rewrite lookup_insert.
    destruct (decide (FunctionName l = funcName)) as [Hn|Hn]; simpl.
    + intros [= <-]. subst funcName.
      destruct (m !! FunctionName l) as [old|] eqn:E; simpl.
      * rewrite E. simpl. specialize (IH old eq_refl).
        rewrite map_size_insert. destruct (old !! LineNumber l); simpl; lia.
      * rewrite lookup_insert_eq. simpl.
        rewrite map_size_insert, lookup_empty, map_size_empty. simpl. lia.
    + intros Hm. rewrite Nat.add_0_r. apply IH.
      destruct (m !! FunctionName l); [done|]. by rewrite lookup_insert_ne in Hm.
Qed.

Lemma length_filter_le_impl {A} (P Q : A → Prop)
    `{∀ x, Decision (P x)} `{∀ x, Decision (Q x)} (l : list A) :
  (∀ x, P x → Q x) → (length (filter P l) ≤ length (filter Q l))%nat.
Proof.
  intros HPQ. induction l as [|x l IH]; [done|].
  rewrite !filter_cons. destruct (decide (P x)) as [HP|HP].
  - rewrite decide_True by auto. simpl. lia.
  - destruct (decide (Q x)); simpl; lia.
Qed.

Lemma length_filter_disjoint {A} (P Q : A → Prop)
    `{∀ x, Decision (P x)} `{∀ x, Decision (Q x)} (l : list A) :
  (∀ x, P x → Q x → False) →
  (length (filter P l) + length (filter Q l) ≤ length l)%nat.
Proof.
  intros HPQ. induction l as [|x l IH]; [done|].
  rewrite !filter_cons. destruct (decide (P x)) as [HP|HP], (decide (Q x)) as [HQ|HQ];
    simpl; try lia. destruct (HPQ x HP HQ).
Qed.

(** Every record of a chunk comes from a file of the new report. *)
Lemma increases_chunk sched baseReport newReport r :
  r ∈ Increases (ComputeCoverageIncrease sched baseReport newReport).1 →
  ∃ i newFile,
    Files newReport !! i = Some newFile ∧
    r ∈ fileIncreases (sched i) (baseFileMapOf baseReport) newFile.
Proof.
  rewrite ComputeCoverageIncrease_chunks.
  intros (chunk & Hr & Hc)%list_elem_of_join.
  apply list_elem_of_lookup in Hc as [i Hi]. unfold increaseChunks in Hi.
  rewrite list_lookup_imap in Hi.
  destruct (Files newReport !! i) as [newFile|] eqn:Hf; [|done].
  simpl in Hi. injection Hi as <-. by exists i, newFile.
Qed.

(** X1.  Every record of [ComputeCoverageIncrease], under any iteration
    order, comes from the new report: its [File] is the path of a file of
    the new report, and that file has a line with the function name of the
    record and a positive count. *)
Theorem increase_record_origin sched baseReport newReport r :
  r ∈ Increases (ComputeCoverageIncrease sched baseReport newReport).1 →
  ∃ newFile l,
    newFile ∈ Files newReport ∧ inc_File r = FilePath newFile ∧
    l ∈ Lines newFile ∧ FunctionName l = inc_FunctionName r ∧ 0 < Count l.
Proof.
  intros (i & newFile & Hi & Hr)%increases_chunk.
  assert (newFile ∈ Files newReport) as Hin by (by eapply list_elem_of_lookup_2).
  exists newFile. unfold fileIncreases in Hr.
  destruct (baseFileMapOf baseReport !! FilePath newFile) as [baseFile|].
  - rewrite compareFunctions_bind in Hr.
    apply list_elem_of_bind in Hr as ([funcName newLines] & Hr & Hkv).
    apply elem_of_rangeMap in Hkv as [_ Hkv]. simpl in Hr.
    pose proof (compareFunction_fields _ _ _ _ _ _ _ Hr) as (Hn & Hf & _).
    unfold compareFunction in Hr. rewrite foldl_compareLine in Hr. simpl in Hr.
    set (inc := (filter _ _).*1) in Hr.
    destruct (Z.ltb_spec 0 (len inc)) as [Hlen|Hlen]; [|by apply elem_of_nil in Hr].
    destruct inc as [|lineNum inc'] eqn:Hinc; [unfold len in Hlen; simpl in Hlen; lia|].
    assert (lineNum ∈ inc) as Hl by (rewrite Hinc; left).
    subst inc. apply list_elem_of_fmap in Hl as ([ln c] & -> & Hl).
    apply list_elem_of_filter in Hl as [[_ Hc] Hl]. simpl in Hc.
    apply elem_of_rangeMap in Hl as [_ Hl].
    destruct (line_map_entry _ _ _ _ _ Hkv Hl) as (l & ? & ? & ? & ?).
    exists l. split_and!; try done; [congruence|lia].
  - rewrite processNewFile_fmap in Hr.
    apply list_elem_of_fmap in Hr as ([funcName lines] & -> & Hkv).
    apply elem_of_rangeMap in Hkv as [_ Hkv].
    rewrite groupCoveredLines_lookup in Hkv. apply nonempty_Some in Hkv as [_ Hne].
    destruct (filter _ (Lines newFile)) as [|l ls] eqn:Hf; [done|].
    assert (l ∈ filter (λ l, FunctionName l = funcName ∧ 0 < Count l)
                       (Lines newFile)) as [[? ?] ?]%list_elem_of_filter
      by (rewrite Hf; left).
    exists l. by split_and!.
Qed.

(** X2.  The numbers of a record of [ComputeCoverageIncrease] fit together:
    [LinesIncreased] is the length of [IncreasedLineNumbers] and is
    positive; the lines increased are among the lines covered now, which
    are among the lines of the function; the lines covered before and the
    lines increased together do not exceed [TotalLines]. *)
Theorem increase_record_bounds sched baseReport newReport r :
  diff_schedule_ok sched baseReport newReport →
  r ∈ Increases (ComputeCoverageIncrease sched baseReport newReport).1 →
  LinesIncreased r = len (IncreasedLineNumbers r) ∧
  0 < LinesIncreased r ∧
  LinesIncreased r ≤ NewCoveredLines r ∧
  NewCoveredLines r ≤ inc_TotalLines r ∧
  0 ≤ OldCoveredLines r ∧
  OldCoveredLines r + LinesIncreased r ≤ inc_TotalLines r.
Proof.
  intros Hok (i & newFile & Hi & Hr)%increases_chunk.
  specialize (Hok i newFile Hi). unfold file_schedule_ok in Hok.
  unfold fileIncreases in Hr.
  destruct (baseFileMapOf baseReport !! FilePath newFile) as [baseFile|].
  - destruct Hok as [_ Hlo]. rewrite compareFunctions_bind in Hr.
    apply list_elem_of_bind in Hr as ([funcName newLines] & Hr & Hkv).
    apply elem_of_rangeMap in Hkv as [_ Hkv]. simpl in Hr.
    specialize (Hlo _ _ Hkv).
    pose proof (line_map_size _ _ _ Hkv) as Hsize.
    pose proof (rangeMap_Permutation _ _ Hlo) as Hperm.
    unfold compareFunction in Hr. rewrite foldl_compareLine in Hr. simpl in Hr.
    set (kvs := rangeMap newLines (lineOrder (sched i) funcName)) in *.
    assert (length kvs = size newLines) as Hlen.
    { rewrite Hperm. by rewrite length_map_to_list. }
    set (bl := buildLineCoverageMap baseFile !! funcName) in *.
    pose proof (length_filter_le_impl
                  (λ kv : Z * Z, baseCountOf bl kv.1 = 0 ∧ 0 < kv.2)
                  (λ kv : Z * Z, 0 < kv.2) kvs ltac:(by intros ? [? ?])) as H1.
    pose proof (length_filter (λ kv : Z * Z, 0 < kv.2) kvs) as H2.
    pose proof (length_filter_disjoint
                  (λ kv : Z * Z, 0 < baseCountOf bl kv.1)
                  (λ kv : Z * Z, baseCountOf bl kv.1 = 0 ∧ 0 < kv.2) kvs
                  ltac:(intros ? ? [? ?]; simpl in *; lia)) as H3.
    destruct (Z.ltb_spec 0 (len (filter
      (λ kv : Z * Z, baseCountOf bl kv.1 = 0 ∧ 0 < kv.2) kvs).*1)) as [Hpos|Hpos];
      [|by apply elem_of_nil in Hr].
    apply list_elem_of_singleton in Hr. subst r. simpl.
    rewrite getTotalFunctionLines_count. unfold len in *.
    rewrite length_fmap in *. lia.
  - rewrite processNewFile_fmap in Hr.
    apply list_elem_of_fmap in Hr as ([funcName lines] & -> & Hkv).
    apply elem_of_rangeMap in Hkv as [_ Hkv].
    rewrite groupCoveredLines_lookup in Hkv. apply nonempty_Some in Hkv as [-> Hne].
    unfold newFileRecord. simpl. unfold len. rewrite length_fmap.
    pose proof (length_filter_le_impl
                  (λ l, FunctionName l = funcName ∧ 0 < Count l)
                  (λ l, FunctionName l = funcName) (Lines newFile)
                  ltac:(by intros ? [? ?])) as H1.
    destruct (filter (λ l, FunctionName l = funcName ∧ 0 < Count l) (Lines newFile))
      eqn:Hf; [done|]. simpl in *. lia.
Qed.

(** X3.  A report whose file paths are pairwise distinct, compared with
    itself, has no coverage increase: the result is the empty report and no
    error, under any iteration order. *)
Theorem self_diff_is_empty sched report :
  NoDup (FilePath <$> Files report) →
  ComputeCoverageIncrease sched report report = (mkIncreaseReport [], None).
Proof.
  intros Hnd.
  destruct (ComputeCoverageIncrease sched report report) as [[incs] err] eqn:E.
  assert (err = None) as -> by (by injection E).
  f_equal. f_equal. destruct incs as [|r incs']; [done|]. exfalso.
  assert (r ∈ Increases (ComputeCoverageIncrease sched report report).1) as Hr
    by (rewrite E; left).
  apply increases_chunk in Hr as (i & file & Hi & Hr).
  assert (file ∈ Files report) as Hin by (by eapply list_elem_of_lookup_2).
  unfold fileIncreases in Hr.
  rewrite baseFileMapOf_lookup, (lastFileAt_unique _ _ Hnd Hin) in Hr.
  rewrite compareFunctions_bind in Hr.
  apply list_elem_of_bind in Hr as ([funcName newLines] & Hr & Hkv).
  apply elem_of_rangeMap in Hkv as [_ Hkv]. simpl in Hr.
  unfold compareFunction in Hr. rewrite foldl_compareLine, Hkv in Hr. simpl in Hr.
  rewrite (filter_none (λ kv : Z * Z, default 0 (newLines !! kv.1) = 0 ∧ 0 < kv.2))
    in Hr.
  - by apply elem_of_nil in Hr.
  - intros [ln c] [_ Hl]%elem_of_rangeMap [Hz Hc]. simpl in *.
    rewrite Hl in Hz. simpl in Hz. lia.
Qed.

(** X4.  [buildLineCoverageMap]: the count held for a function and a line
    number is the count of the last line of the file with that function
    name and line number; a function has an entry exactly when a line names
    it, and a line number has one exactly when such a line exists. *)
Theorem line_coverage_map_last_write_wins file funcName lineNum :
  (buildLineCoverageMap file !! funcName ≫= (.!! lineNum) =
   Count <$> last (filter (λ l, FunctionName l = funcName ∧ LineNumber l = lineNum)
                          (Lines file))) ∧
  (is_Some (buildLineCoverageMap file !! funcName) ↔
   ∃ l, l ∈ Lines file ∧ FunctionName l = funcName) ∧
  (is_Some (buildLineCoverageMap file !! funcName ≫= (.!! lineNum)) ↔
   ∃ l, l ∈ Lines file ∧ FunctionName l = funcName ∧ LineNumber l = lineNum).
Proof.
  split_and!.
  - apply buildLineCoverageMap_lookup.
  - apply buildLineCoverageMap_is_Some.
  - rewrite buildLineCoverageMap_lookup, fmap_is_Some. split.
    + intros [l Hl]. apply last_Some in Hl as [l' Hl'].
      assert (l ∈ filter (λ l0, FunctionName l0 = funcName ∧ LineNumber l0 = lineNum)
                         (Lines file)) as [[? ?] ?]%list_elem_of_filter.
      { rewrite Hl'. apply elem_of_app. right. by left. }
      by exists l.
    + intros (l & Hin & Hn & Hl).
      assert (l ∈ filter (λ l0, FunctionName l0 = funcName ∧ LineNumber l0 = lineNum)
                         (Lines file)) as Hf by (by apply list_elem_of_filter).
      destruct (filter _ (Lines file)) as [|x xs] using rev_ind;
        [by apply elem_of_nil in Hf|].
      rewrite last_snoc. by eexists.
Qed.

(** X5.  [buildFunctionNameMap]: the demangled name held for a mangled
    name is that of the last function entry of the file with this name, and
    the name has no entry exactly when no function entry carries it. *)
Theorem function_name_map_last_entry_wins file name :
  (buildFunctionNameMap file !! name =
   DemangledName <$> last (filter (λ f, Name f = name) (Functions file))) ∧
  (buildFunctionNameMap file !! name = None ↔
   ∀ f, f ∈ Functions file → Name f ≠ name).
Proof.
  split; [apply buildFunctionNameMap_lookup|].
  rewrite buildFunctionNameMap_lookup, fmap_None. split.
  - intros Hl f Hin Hn.
    assert (f ∈ filter (λ f, Name f = name) (Functions file)) as Hf
      by (by apply list_elem_of_filter).
    destruct (filter _ (Functions file)) as [|x xs] using rev_ind;
      [by apply elem_of_nil in Hf|].
    by rewrite last_snoc in Hl.
  - intros Hall. rewrite filter_none; [done|]. intros f Hin Hn. by apply (Hall f).
Qed.

(** X6.  [getTotalFunctionLines] is the number of lines of the file that
    carry the function name: it lies between 0 and the number of lines of
    the file, and is 0 exactly when no line names the function. *)
Theorem total_function_lines_counts file funcName :
  getTotalFunctionLines file funcName =
    len (filter (λ l, FunctionName l = funcName) (Lines file)) ∧
  0 ≤ getTotalFunctionLines file funcName ≤ len (Lines file) ∧
  (getTotalFunctionLines file funcName = 0 ↔
   ∀ l, l ∈ Lines file → FunctionName l ≠ funcName).
Proof.
  rewrite getTotalFunctionLines_count. unfold len.
  pose proof (length_filter (λ l, FunctionName l = funcName) (Lines file)).
  split_and!; try lia. split.
  - intros Hz l Hin Hn.
    assert (l ∈ filter (λ l, FunctionName l = funcName) (Lines file)) as Hf
      by (by apply list_elem_of_filter).
    destruct (filter _ (Lines file)); [by apply elem_of_nil in Hf|simpl in Hz; lia].
  - intros Hall. rewrite filter_none; [done|]. intros l Hin Hn. by apply (Hall l).
Qed.

(** * More on the uncovered engine *)

Lemma bind_ext_elem_of {A B} (f g : A → list B) (l : list A) :
  (∀ x, x ∈ l → f x = g x) → l ≫= f = l ≫= g.
Proof.
  induction l as [|x l IH]; intros Hfg; [done|].
  rewrite !bind_cons, (Hfg x) by left. f_equal. apply IH.
  intros y Hy. apply Hfg. by right.
Qed.

Lemma bind_Permutation_elem_of {A B} (f g : A → list B) (l : list A) :
  (∀ x, x ∈ l → f x ≡ₚ g x) → l ≫= f ≡ₚ l ≫= g.
Proof.
  induction l as [|x l IH]; intros Hfg; [done|].
  rewrite !bind_cons. apply Permutation_app.
  - apply Hfg. by left.
  - apply IH. intros y Hy. apply Hfg. by right.
Qed.

Lemma rangeMap_empty `{Countable K} {V} (ks : list K) :
  rangeMap (∅ : gmap K V) ks = [].
Proof.
  unfold rangeMap. induction ks as [|k ks IH]; [done|].
  simpl. by rewrite lookup_empty.
Qed.

Lemma length_filter_split {A} (P Q R : A → Prop)
    `{∀ x, Decision (P x)} `{∀ x, Decision (Q x)} `{∀ x, Decision (R x)}
    (l : list A) :
  (∀ x, P x → R x) → (∀ x, Q x → R x) → (∀ x, P x → Q x → False) →
  (length (filter P l) + length (filter Q l) ≤ length (filter R l))%nat.
Proof.
  intros HP HQ HPQ. induction l as [|x l IH]; [done|].
  rewrite !filter_cons.
  destruct (decide (P x)) as [Hp|Hp], (decide (Q x)) as [Hq|Hq];
    try (destruct (HPQ x Hp Hq)).
  - rewrite decide_True by auto. simpl. lia.
  - rewrite decide_True by auto. simpl. lia.
  - destruct (decide (R x)); simpl; lia.
Qed.

(** The shape of a file of the result, for an admissible schedule. *)
Lemma uncovered_file_structure s report fu :
  uncovered_schedule_ok s report →
  fu ∈ unc_Files (FindUncoveredLines s report).1 →
  ∃ firstFile lastFile,
    firstFileAt (Files report) (fu_FilePath fu) = Some firstFile ∧
    lastFileAt (Files report) (fu_FilePath fu) = Some lastFile ∧
    range_order (collectUncovered lastFile) (uncFuncOrder s (fu_FilePath fu)) ∧
    UncoveredFunctions fu =
      uncoveredRecord firstFile (buildFunctionNameMap lastFile)
        <$> rangeMap (collectUncovered lastFile) (uncFuncOrder s (fu_FilePath fu)).
Proof.
  intros [_ Hfo]. rewrite FindUncoveredLines_bind.
  intros (p & Hfu & _)%list_elem_of_bind. unfold uncoveredFileOf in Hfu.
  destruct (firstFileAt (Files report) p) as [firstFile|] eqn:Hfirst;
    [|by apply elem_of_nil in Hfu].
  simpl in Hfu. destruct (0 <? _) eqn:Hpos; [|by apply elem_of_nil in Hfu].
  apply list_elem_of_singleton in Hfu. subst fu. simpl.
  specialize (Hfo p).
  rewrite firstPass_uncoveredMap, firstPass_funcMetadata in *.
  destruct (lastFileAt (Files report) p) as [lastFile|] eqn:Hlast.
  - simpl in *. exists firstFile, lastFile. split_and!; [done|done|exact (Hfo _ eq_refl)|].
    rewrite uncoveredFunctionsOf_bind, <- bind_singleton.
    apply bind_ext_elem_of. intros [funcName lines] [_ Hkv]%elem_of_rangeMap.
    rewrite collectUncovered_lookup in Hkv. apply nonempty_Some in Hkv as [-> Hne].
    simpl. destruct (Z.eqb_spec (len (LineNumber <$>
      filter (λ l, FunctionName l = funcName ∧ Count l = 0) (Lines lastFile))) 0)
      as [Hz|Hz]; [|done].
    unfold len in Hz. destruct (LineNumber <$> filter _ _); [done|simpl in Hz; lia].
  - simpl in Hpos. rewrite uncoveredFunctionsOf_bind in Hpos.
    rewrite rangeMap_empty in Hpos. done.
Qed.

(** The functions and the lines a file of the result lists. *)
Lemma uncovered_listing s report fu :
  uncovered_schedule_ok s report →
  fu ∈ unc_Files (FindUncoveredLines s report).1 →
  ∃ file,
    lastFileAt (Files report) (fu_FilePath fu) = Some file ∧
    NoDup (unc_FunctionName <$> UncoveredFunctions fu) ∧
    (∀ funcName,
       funcName ∈ unc_FunctionName <$> UncoveredFunctions fu ↔
       ∃ l, l ∈ Lines file ∧ FunctionName l = funcName ∧ Count l = 0) ∧
    (∀ r lineNum,
       r ∈ UncoveredFunctions fu →
       lineNum ∈ UncoveredLineNumbers r ↔
       ∃ l, l ∈ Lines file ∧ FunctionName l = unc_FunctionName r ∧
            LineNumber l = lineNum ∧ Count l = 0).
Proof.
  intros Hok Hfu.
  destruct (uncovered_file_structure s report fu Hok Hfu)
    as (firstFile & lastFile & _ & Hlast & Hfo & Hfns).
  exists lastFile. split; [done|]. rewrite Hfns.
  set (ks := uncFuncOrder s (fu_FilePath fu)) in *.
  assert (Hnames : unc_FunctionName <$>
            (uncoveredRecord firstFile (buildFunctionNameMap lastFile)
               <$> rangeMap (collectUncovered lastFile) ks)
          = (rangeMap (collectUncovered lastFile) ks).*1).
  { rewrite <- list_fmap_compose. by apply list_fmap_ext. }
  rewrite Hnames. split_and!.
  - apply rangeMap_NoDup. by eapply range_order_NoDup.
  - intros funcName. rewrite list_elem_of_fmap. split.
    + intros ([k lines] & -> & [_ Hkv]%elem_of_rangeMap). simpl.
      rewrite collectUncovered_lookup in Hkv. apply nonempty_Some in Hkv as [_ Hne].
      destruct (filter _ (Lines lastFile)) as [|l ls] eqn:Hf; [done|].
      assert (l ∈ filter (λ l, FunctionName l = k ∧ Count l = 0) (Lines lastFile))
        as [[? ?] ?]%list_elem_of_filter by (rewrite Hf; left).
      by exists l.
    + intros (l & Hin & Hn & Hc).
      assert (is_Some (collectUncovered lastFile !! funcName)) as [lines Hl].
      { rewrite collectUncovered_lookup.
        assert (l ∈ filter (λ l, FunctionName l = funcName ∧ Count l = 0)
                           (Lines lastFile)) as Hf by (by apply list_elem_of_filter).
        destruct (filter _ (Lines lastFile)); [by apply elem_of_nil in Hf|].
        by eexists. }
      exists (funcName, lines). split; [done|]. apply elem_of_rangeMap.
      split; [|done]. eapply range_order_elem_of; [done|]. by eexists.
  - intros r lineNum ([k lines] & -> & [_ Hkv]%elem_of_rangeMap)%list_elem_of_fmap.
    simpl. rewrite collectUncovered_lookup in Hkv.
    apply nonempty_Some in Hkv as [-> _].
    rewrite sortInts_Permutation, list_elem_of_fmap. split.
    + intros (l & -> & [[? ?] ?]%list_elem_of_filter). by exists l.
    + intros (l & ? & ? & ? & ?). exists l. split; [done|].
      by apply list_elem_of_filter.
Qed.

(** X7.  A file of the result of [FindUncoveredLines] lists each function
    once, and lists exactly the functions and the line numbers of the
    zero-count lines of the last file of the report with its path. *)
Theorem uncovered_functions_listing s report fu :
  uncovered_schedule_ok s report →
  fu ∈ unc_Files (FindUncoveredLines s report).1 →
  ∃ file,
    lastFileAt (Files report) (fu_FilePath fu) = Some file ∧
    NoDup (unc_FunctionName <$> UncoveredFunctions fu) ∧
    (∀ funcName,
       funcName ∈ unc_FunctionName <$> UncoveredFunctions fu ↔
       ∃ l, l ∈ Lines file ∧ FunctionName l = funcName ∧ Count l = 0) ∧
    (∀ r lineNum,
       r ∈ UncoveredFunctions fu →
       lineNum ∈ UncoveredLineNumbers r ↔
       ∃ l, l ∈ Lines file ∧ FunctionName l = unc_FunctionName r ∧
            LineNumber l = lineNum ∧ Count l = 0).
Proof. apply uncovered_listing. Qed.

(** X8.  In a record of [FindUncoveredLines], under any iteration order,
    [CoveredLines] lies between 0 and [TotalLines] and there is at least
    one uncovered line number; when the file paths of the report are
    pairwise distinct, the covered lines and the uncovered line numbers
    together do not exceed [TotalLines]. *)
Theorem uncovered_record_bounds s report fu r :
  fu ∈ unc_Files (FindUncoveredLines s report).1 →
  r ∈ UncoveredFunctions fu →
  0 ≤ CoveredLines r ≤ unc_TotalLines r ∧
  0 < len (UncoveredLineNumbers r) ∧
  (NoDup (FilePath <$> Files report) →
   CoveredLines r + len (UncoveredLineNumbers r) ≤ unc_TotalLines r).
Proof.
  intros Hfu Hr.
  destruct (uncovered_record_origin s report fu r Hfu Hr)
    as (firstFile & lastFile & Hfirst & Hlast & Hu & Hne & Ht & Hc & _).
  rewrite Ht, Hc. unfold len.
  pose proof (length_filter_le_impl
                (λ l, FunctionName l = unc_FunctionName r ∧ 0 < Count l)
                (λ l, FunctionName l = unc_FunctionName r) (Lines firstFile)
                ltac:(by intros ? [? ?])) as H1.
  split_and!; try lia.
  - destruct (UncoveredLineNumbers r); [done|simpl; lia].
  - intros Hnd. apply firstFileAt_elem in Hfirst as [Hin Hpath].
    rewrite <- Hpath, (lastFileAt_unique _ _ Hnd Hin) in Hlast.
    injection Hlast as <-. rewrite Hu.
    rewrite (Permutation_length (sortInts_Permutation _)), length_fmap.
    pose proof (length_filter_split
                  (λ l, FunctionName l = unc_FunctionName r ∧ 0 < Count l)
                  (λ l, FunctionName l = unc_FunctionName r ∧ Count l = 0)
                  (λ l, FunctionName l = unc_FunctionName r) (Lines firstFile)
                  ltac:(by intros ? [? ?]) ltac:(by intros ? [? ?])
                  ltac:(intros ? [? ?] [? ?]; lia)) as H2.
    lia.
Qed.

(** Adding an element to the group of one key. *)
Lemma bind_cons_at_key {K B} `{EqDecision K} (F : K → list B) (k0 : K) (x : B)
    (ks : list K) :
  NoDup ks → k0 ∈ ks →
  ks ≫= (λ k, if decide (k = k0) then x :: F k else F k) ≡ₚ x :: (ks ≫= F).
Proof.
  induction ks as [|k ks IH]; intros Hnd Hin; [by apply elem_of_nil in Hin|].
  apply NoDup_cons in Hnd as [Hk Hnd]. rewrite !bind_cons.
  destruct (decide (k = k0)) as [->|Hne].
  - simpl. constructor. apply Permutation_app; [done|].
    apply bind_Permutation_elem_of. intros k' Hk'.
    rewrite decide_False; [done|]. by intros ->.
  - apply elem_of_cons in Hin as [->|Hin]; [done|].
    rewrite (IH Hnd Hin). symmetry. apply Permutation_middle.
Qed.

(** Lines grouped by function name, the groups of all names put together,
    are the lines. *)
Lemma group_by_function {B} (P : Line → Prop) `{∀ l, Decision (P l)}
    (g : Line → B) (ks : list string) (lines : list Line) :
  NoDup ks →
  (∀ l, l ∈ lines → P l → FunctionName l ∈ ks) →
  ks ≫= (λ k, g <$> filter (λ l, FunctionName l = k ∧ P l) lines)
  ≡ₚ g <$> filter P lines.
Proof.
  intros Hnd. induction lines as [|l lines IH]; intros Hks.
  - clear. induction ks as [|k ks IHk]; [done|].
    rewrite bind_cons. by simpl.
  - assert (IH' := IH (λ l' Hl', Hks l' (list_elem_of_further _ _ _ Hl'))).
    rewrite filter_cons. destruct (decide (P l)) as [HP|HP].
    + rewrite fmap_cons, <- IH'.
      rewrite <- (bind_cons_at_key
                    (λ k, g <$> filter (λ l, FunctionName l = k ∧ P l) lines)
                    (FunctionName l) (g l) ks Hnd (Hks l (list_elem_of_here _ _) HP)).
      apply bind_Permutation_elem_of. intros k _. rewrite filter_cons.
      destruct (decide (k = FunctionName l)) as [->|Hne].
      * by rewrite decide_True.
      * rewrite decide_False; [done|]. by intros [? _].
    + rewrite <- IH'. apply bind_Permutation_elem_of. intros k _.
      rewrite filter_cons, decide_False; [done|]. by intros [_ ?].
Qed.

(** The lines one file of the result lists are the zero-count lines of the
    last file of the report with its path. *)
Lemma uncovered_file_entries s report fu :
  uncovered_schedule_ok s report →
  fu ∈ unc_Files (FindUncoveredLines s report).1 →
  ∃ file,
    lastFileAt (Files report) (fu_FilePath fu) = Some file ∧
    uncoveredEntriesOf fu ≡ₚ zeroCountLinesOf file.
Proof.
  intros Hok Hfu.
  destruct (uncovered_file_structure s report fu Hok Hfu)
    as (firstFile & lastFile & _ & Hlast & Hfo & Hfns).
  exists lastFile. split; [done|].
  unfold uncoveredEntriesOf. rewrite Hfns, list_fmap_bind.
  pose proof (lastFileAt_elem _ _ _ Hlast) as [_ Hpath].
  set (g := λ l, (FilePath lastFile, FunctionName l, LineNumber l)).
  set (funcs := collectUncovered lastFile) in *.
  trans (rangeMap funcs (uncFuncOrder s (fu_FilePath fu)) ≫=
           (λ kv, g <$> filter (λ l, FunctionName l = kv.1 ∧ Count l = 0)
                               (Lines lastFile))).
  { apply bind_Permutation_elem_of.
    intros [k lines] [_ Hkv]%elem_of_rangeMap. simpl.
    unfold funcs in Hkv. rewrite collectUncovered_lookup in Hkv.
    apply nonempty_Some in Hkv as [-> _].
    rewrite sortInts_Permutation, <- list_fmap_compose, <- Hpath.
    apply reflexive_eq, Forall_fmap_ext_1, Forall_forall.
    intros l [[Hn _] _]%list_elem_of_filter. unfold g. simpl. by rewrite Hn. }
  trans ((rangeMap funcs (uncFuncOrder s (fu_FilePath fu))).*1 ≫=
           (λ k, g <$> filter (λ l, FunctionName l = k ∧ Count l = 0)
                              (Lines lastFile))).
  { by rewrite list_fmap_bind. }
  apply group_by_function.
  - apply rangeMap_NoDup. by eapply range_order_NoDup.
  - intros l Hin Hc. rewrite rangeMap_fst. apply list_elem_of_filter.
    assert (is_Some (funcs !! FunctionName l)) as Hs.
    { unfold funcs. rewrite collectUncovered_lookup.
      assert (l ∈ filter (λ l', FunctionName l' = FunctionName l ∧ Count l' = 0)
                         (Lines lastFile)) as Hf by (by apply list_elem_of_filter).
      destruct (filter _ (Lines lastFile)); [by apply elem_of_nil in Hf|].
      by eexists. }
    split; [done|]. by eapply range_order_elem_of.
Qed.

Lemma uncovered_paths_elem_of s report path :
  uncovered_schedule_ok s report →
  path ∈ fu_FilePath <$> unc_Files (FindUncoveredLines s report).1 ↔
  ∃ file, lastFileAt (Files report) path = Some file ∧
          ∃ l, l ∈ Lines file ∧ Count l = 0.
Proof.
  intros Hok. rewrite (FindUncoveredLines_paths _ _ Hok).
  rewrite (elem_of_uncoveredFilePaths _ _ _ (proj1 Hok)).
  rewrite firstPass_uncoveredMap. split.
  - intros (funcs & Hm & Hne).
    destruct (lastFileAt (Files report) path) as [file|]; [|done].
    simpl in Hm. injection Hm as <-. exists file. split; [done|].
    by apply collectUncovered_nonempty.
  - intros (file & -> & Hl). exists (collectUncovered file). split; [done|].
    by apply collectUncovered_nonempty.
Qed.

Lemma uncovered_paths_NoDup s report :
  uncovered_schedule_ok s report →
  NoDup (fu_FilePath <$> unc_Files (FindUncoveredLines s report).1).
Proof.
  intros Hok. rewrite (FindUncoveredLines_paths _ _ Hok).
  pose proof (uncoveredFilePaths_sorted _ _ (proj1 Hok)) as Hs.
  induction Hs as [|p ps _ IH Hall]; constructor; [|done].
  intros Hin. eapply Forall_forall in Hall; [|done]. by destruct Hall as [? []].
Qed.

(** The lines the result lists are the zero-count lines of the report. *)
Lemma uncovered_entries_conserved s report :
  uncovered_schedule_ok s report →
  NoDup (FilePath <$> Files report) →
  uncoveredEntries (unc_Files (FindUncoveredLines s report).1)
  ≡ₚ zeroCountLines report.
Proof.
  intros Hok Hnd. unfold uncoveredEntries, zeroCountLines.
  set (out := unc_Files (FindUncoveredLines s report).1).
  set (G := λ p, match lastFileAt (Files report) p with
                 | Some f => zeroCountLinesOf f
                 | None => []
                 end).
  trans (out ≫= (G ∘ fu_FilePath)).
  { apply bind_Permutation_elem_of. intros fu Hfu.
    destruct (uncovered_file_entries s report fu Hok Hfu) as (file & Hlast & Hp).
    unfold G. simpl. by rewrite Hlast. }
  trans ((fu_FilePath <$> out) ≫= G).
  { by rewrite list_fmap_bind. }
  trans (filter (λ p, G p ≠ []) (FilePath <$> Files report) ≫= G).
  { apply bind_Permutation. apply NoDup_Permutation.
    - by apply uncovered_paths_NoDup.
    - by apply NoDup_filter.
    - intros p. unfold out. rewrite (uncovered_paths_elem_of s report p Hok).
      rewrite list_elem_of_filter, list_elem_of_fmap. unfold G. split.
      + intros (file & Hlast & l & Hl & Hc). rewrite Hlast.
        apply lastFileAt_elem in Hlast as [Hin Hpath]. split; [|by exists file].
        unfold zeroCountLinesOf.
        assert (l ∈ filter (λ l, Count l = 0) (Lines file)) as Hf
          by (by apply list_elem_of_filter).
        destruct (filter _ (Lines file)); [by apply elem_of_nil in Hf|done].
      + intros [Hne (file & -> & Hin)].
        rewrite (lastFileAt_unique _ _ Hnd Hin) in Hne |- *.
        exists file. split; [done|]. unfold zeroCountLinesOf in Hne.
        destruct (filter (λ l, Count l = 0) (Lines file)) as [|l ls] eqn:Hf; [done|].
        assert (l ∈ filter (λ l, Count l = 0) (Lines file))
          as [? ?]%list_elem_of_filter by (rewrite Hf; left).
        by exists l. }
  trans ((FilePath <$> Files report) ≫= G).
  { apply reflexive_eq. generalize (FilePath <$> Files report). clear.
    intros ps. induction ps as [|p ps IH]; [done|].
    rewrite filter_cons, bind_cons. destruct (decide (G p ≠ [])) as [Hne|He].
    - by rewrite bind_cons, IH.
    - apply dec_stable in He. by rewrite He, IH. }
  rewrite list_fmap_bind. apply reflexive_eq, bind_ext_elem_of.
  intros f Hin. unfold G. simpl. by rewrite (lastFileAt_unique _ _ Hnd Hin).
Qed.

(** X9.  [FindUncoveredLines] neither loses nor invents a line: for a
    report with pairwise distinct file paths, the line numbers of the
    result, each taken with its file path and function name, are the
    zero-count lines of the report, each as often as the report has it. *)
Theorem uncovered_lines_conserved s report :
  uncovered_schedule_ok s report →
  NoDup (FilePath <$> Files report) →
  uncoveredEntries (unc_Files (FindUncoveredLines s report).1)
  ≡ₚ zeroCountLines report.
Proof. apply uncovered_entries_conserved. Qed.

(** * The two engines together *)

(** X10.  The two engines agree on a line: when [ComputeCoverageIncrease]
    reports a line of the base report as newly covered, then
    [FindUncoveredLines] on the base report lists that line under the same
    file path and function name. *)
Theorem newly_covered_was_uncovered sched us baseReport newReport r lineNum
    baseFile l :
  NoDup (FilePath <$> Files baseReport) →
  uncovered_schedule_ok us baseReport →
  r ∈ Increases (ComputeCoverageIncrease sched baseReport newReport).1 →
  lineNum ∈ IncreasedLineNumbers r →
  baseFile ∈ Files baseReport →
  FilePath baseFile = inc_File r →
  l ∈ Lines baseFile →
  FunctionName l = inc_FunctionName r →
  LineNumber l = lineNum →
  ∃ fu ur,
    fu ∈ unc_Files (FindUncoveredLines us baseReport).1 ∧
    fu_FilePath fu = inc_File r ∧
    ur ∈ UncoveredFunctions fu ∧
    unc_FunctionName ur = inc_FunctionName r ∧
    lineNum ∈ UncoveredLineNumbers ur.
Proof.
  intros Hnd Hok (i & newFile & Hi & Hr)%increases_chunk Hln Hbase Hpath Hl Hn Hnum.
  pose proof (lastFileAt_unique _ _ Hnd Hbase) as Hlast.
  (* the base count of the line is 0 *)
  assert (∃ l0, l0 ∈ Lines baseFile ∧ FunctionName l0 = inc_FunctionName r ∧
                LineNumber l0 = lineNum ∧ Count l0 = 0) as (l0 & Hl0 & Hn0 & Hnum0 & Hc0).
  { unfold fileIncreases in Hr.
    destruct (baseFileMapOf baseReport !! FilePath newFile) as [baseFile'|] eqn:Hb.
    - rewrite compareFunctions_bind in Hr.
      apply list_elem_of_bind in Hr as ([funcName newLines] & Hr & Hkv). simpl in Hr.
      pose proof (compareFunction_fields _ _ _ _ _ _ _ Hr) as (Hfn & Hf & _).
      rewrite baseFileMapOf_lookup, <- Hf, <- Hpath, Hlast in Hb.
      injection Hb as <-.
      unfold compareFunction in Hr. rewrite foldl_compareLine in Hr. simpl in Hr.
      destruct (0 <? _); [|by apply elem_of_nil in Hr].
      apply list_elem_of_singleton in Hr. subst r. simpl in *.
      apply list_elem_of_fmap in Hln as ([ln c] & -> & Hin).
      apply list_elem_of_filter in Hin as [[Hz _] _]. simpl in *.
      pose proof (buildLineCoverageMap_lookup baseFile funcName ln) as Hlook.
      assert (l ∈ filter (λ l0, FunctionName l0 = funcName ∧ LineNumber l0 = ln)
                         (Lines baseFile)) as Hf' by (by apply list_elem_of_filter).
      destruct (filter _ (Lines baseFile)) as [|x xs] eqn:Hflt using rev_ind;
        [by apply elem_of_nil in Hf'|].
      rewrite last_snoc in Hlook. simpl in Hlook.
      assert (x ∈ filter (λ l0, FunctionName l0 = funcName ∧ LineNumber l0 = ln)
                         (Lines baseFile)) as [[? ?] ?]%list_elem_of_filter.
      { rewrite Hflt. apply elem_of_app. right. by left. }
      exists x. split_and!; try done.
      unfold baseCountOf in Hz.
      destruct (buildLineCoverageMap baseFile !! funcName) as [bl|]; [|done].
      simpl in Hlook. by rewrite Hlook in Hz.
    - rewrite processNewFile_fmap in Hr.
      apply list_elem_of_fmap in Hr as (kv & -> & _). simpl in *.
      rewrite baseFileMapOf_lookup, <- Hpath, Hlast in Hb. done. }
  assert (inc_File r ∈ fu_FilePath <$> unc_Files (FindUncoveredLines us baseReport).1)
    as Hp.
  { apply (uncovered_paths_elem_of _ _ _ Hok). exists baseFile.
    rewrite <- Hpath. split; [done|]. by exists l0. }
  apply list_elem_of_fmap in Hp as (fu & Hfp & Hfu).
  destruct (uncovered_listing us baseReport fu Hok Hfu)
    as (file & Hlast' & _ & Hfns & Hlines).
  rewrite <- Hfp, <- Hpath, Hlast in Hlast'. injection Hlast' as <-.
  assert (inc_FunctionName r ∈ unc_FunctionName <$> UncoveredFunctions fu)
    as (ur & Hur & Hin)%list_elem_of_fmap.
  { apply Hfns. by exists l0. }
  exists fu, ur. split_and!; try done.
  apply (Hlines ur lineNum Hin). exists l0. by rewrite <- Hur.
Qed.

(** * The two versions of the uncovered engine *)

Lemma flat_fileRecords_fmap ks file (m : gmap string (list Z)) metadata :
  (∀ k v, m !! k = Some v → v ≠ []) →
  Flat.fileRecords ks file m metadata =
  flatRecord (FilePath file) <$> (uncoveredRecord file metadata <$> rangeMap m ks).
Proof.
  intros Hne. unfold Flat.fileRecords.
  rewrite (foldl_append _
    (λ kv, if len kv.2 =? 0 then []
           else [flatRecord (FilePath file) (uncoveredRecord file metadata kv)])).
  2:{ intros acc [funcName lines]. simpl.
      destruct (len lines =? 0); [by rewrite app_nil_r|].
      unfold flatRecord, uncoveredRecord. simpl.
      by destruct (functionStats file funcName). }
  simpl. rewrite <- list_fmap_compose, <- bind_singleton.
  apply bind_ext_elem_of. intros [k v] [_ Hkv]%elem_of_rangeMap. simpl.
  destruct (Z.eqb_spec (len v) 0) as [Hz|Hz]; [|done].
  specialize (Hne _ _ Hkv). unfold len in Hz. destruct v; [done|simpl in Hz; lia].
Qed.

Lemma collectUncovered_values file k v :
  collectUncovered file !! k = Some v → v ≠ [].
Proof.
  rewrite collectUncovered_lookup. by intros [-> ?]%nonempty_Some.
Qed.

Lemma mjoin_imap_Permutation {A B} (g : nat → A → list B) (h : A → list B)
    (l : list A) :
  (∀ i x, l !! i = Some x → g i x ≡ₚ h x) →
  mjoin (imap g l) ≡ₚ l ≫= h.
Proof.
  revert g. induction l as [|x l IH]; intros g Hg; [done|].
  simpl. apply Permutation_app.
  - by apply (Hg 0%nat).
  - apply IH. intros i y Hi. by apply (Hg (S i)).
Qed.

(** The records of the flat version on a report with pairwise distinct
    paths, file by file. *)
Lemma flat_records_by_file funcOrderAt report :
  NoDup (FilePath <$> Files report) →
  flat_schedule_ok funcOrderAt report →
  Flat.UncoveredFunctions (Flat.FindUncoveredLines funcOrderAt report).1 ≡ₚ
  Files report ≫= (λ file,
    flatRecord (FilePath file) <$>
      (uncoveredRecord file (buildFunctionNameMap file) <$>
         map_to_list (collectUncovered file))).
Proof.
  intros Hnd Hok. unfold Flat.FindUncoveredLines. simpl.
  rewrite (foldl_append _
    (λ '(i, file),
       Flat.fileRecords (funcOrderAt i) file
         (default ∅ (uncoveredMap (firstPass report) !! FilePath file))
         (default ∅ (funcMetadata (firstPass report) !! FilePath file))))
    by (by intros acc [i file]).
  simpl.
  rewrite (imap_pair_bind
    (λ i file,
       Flat.fileRecords (funcOrderAt i) file
         (default ∅ (uncoveredMap (firstPass report) !! FilePath file))
         (default ∅ (funcMetadata (firstPass report) !! FilePath file)))).
  apply mjoin_imap_Permutation. intros i file Hi.
  assert (file ∈ Files report) as Hin by (by eapply list_elem_of_lookup_2).
  specialize (Hok i file Hi).
  rewrite firstPass_uncoveredMap, firstPass_funcMetadata in *.
  rewrite (lastFileAt_unique _ _ Hnd Hin) in *. simpl in *.
  rewrite flat_fileRecords_fmap by apply collectUncovered_values.
  by rewrite (rangeMap_Permutation _ _ Hok).
Qed.

(** The same for the grouped version. *)
Lemma grouped_records_by_file s report :
  NoDup (FilePath <$> Files report) →
  uncovered_schedule_ok s report →
  flatten (unc_Files (FindUncoveredLines s report).1) ≡ₚ
  Files report ≫= (λ file,
    flatRecord (FilePath file) <$>
      (uncoveredRecord file (buildFunctionNameMap file) <$>
         map_to_list (collectUncovered file))).
Proof.
  intros Hnd Hok. unfold flatten.
  set (h := λ file : File,
    flatRecord (FilePath file) <$>
      (uncoveredRecord file (buildFunctionNameMap file) <$>
         map_to_list (collectUncovered file))).
  set (G := λ p, match lastFileAt (Files report) p with
                 | Some f => h f
                 | None => []
                 end).
  set (out := unc_Files (FindUncoveredLines s report).1).
  trans (out ≫= (G ∘ fu_FilePath)).
  { apply bind_Permutation_elem_of. intros fu Hfu.
    destruct (uncovered_file_structure s report fu Hok Hfu)
      as (firstFile & lastFile & Hfirst & Hlast & Hfo & Hfns).
    unfold G. simpl. rewrite Hlast, Hfns.
    apply firstFileAt_elem in Hfirst as [Hin Hpath].
    rewrite <- Hpath, (lastFileAt_unique _ _ Hnd Hin) in Hlast.
    injection Hlast as <-. unfold h. rewrite Hpath.
    by rewrite (rangeMap_Permutation _ _ Hfo). }
  trans ((fu_FilePath <$> out) ≫= G).
  { by rewrite list_fmap_bind. }
  trans (filter (λ p, p ∈ fu_FilePath <$> out) (FilePath <$> Files report) ≫= G).
  { apply bind_Permutation. apply NoDup_Permutation.
    - by apply uncovered_paths_NoDup.
    - by apply NoDup_filter.
    - intros p. rewrite list_elem_of_filter. split; [|by intros [? _]].
      intros Hp. split; [done|]. unfold out in Hp.
      apply (uncovered_paths_elem_of s report p Hok) in Hp as (file & Hlast & _).
      apply lastFileAt_elem in Hlast as [Hin Hpath].
      apply list_elem_of_fmap. by exists file. }
  trans ((FilePath <$> Files report) ≫= G).
  { apply reflexive_eq.
    assert (∀ p, p ∉ fu_FilePath <$> out → G p = []) as Hempty.
    { intros p Hp. unfold G.
      destruct (lastFileAt (Files report) p) as [file|] eqn:Hlast; [|done].
      destruct (decide (collectUncovered file = ∅)) as [He|Hne].
      - unfold h. by rewrite He, map_to_list_empty.
      - exfalso. apply Hp. unfold out.
        apply (uncovered_paths_elem_of s report p Hok). exists file.
        split; [done|]. by apply collectUncovered_nonempty. }
    generalize (FilePath <$> Files report). intros ps.
    induction ps as [|p ps IH]; [done|].
    rewrite filter_cons, bind_cons.
    destruct (decide (p ∈ fu_FilePath <$> out)) as [Hp|Hp].
    - by rewrite bind_cons, IH.
    - by rewrite (Hempty p Hp), IH. }
  rewrite list_fmap_bind. apply reflexive_eq, bind_ext_elem_of.
  intros f Hin. unfold G. simpl. by rewrite (lastFileAt_unique _ _ Hnd Hin).
Qed.

(** X11.  The two versions of [FindUncoveredLines] report the same
    function records: for a report with pairwise distinct file paths, the
    records of the flat version are, up to their order, the records of the
    grouped version, each with the path of the file it is listed under. *)
Theorem flat_and_grouped_agree s funcOrderAt report :
  NoDup (FilePath <$> Files report) →
  uncovered_schedule_ok s report →
  flat_schedule_ok funcOrderAt report →
  Flat.UncoveredFunctions (Flat.FindUncoveredLines funcOrderAt report).1 ≡ₚ
  flatten (unc_Files (FindUncoveredLines s report).1).
Proof.
  intros Hnd Hok Hflat.
  rewrite (flat_records_by_file _ _ Hnd Hflat).
  by rewrite (grouped_records_by_file _ _ Hnd Hok).
Qed.

(** * The totals of the text report *)

Lemma len_app {A} (l k : list A) : len (l ++ k) = len l + len k.
Proof. unfold len. rewrite length_app. lia. Qed.

Lemma uncoveredTotals_inner filePath fns acc :
  foldl (λ totalUncoveredLines fn,
           totalUncoveredLines + len (UncoveredLineNumbers fn)) acc fns =
  acc + len (uncoveredEntriesOf (mkFileUncovered filePath fns)).
Proof.
  unfold uncoveredEntriesOf. simpl. revert acc.
  induction fns as [|fn fns IH]; intros acc.
  - unfold len. simpl. lia.
  - rewrite bind_cons, len_app. simpl. rewrite IH.
    unfold len. rewrite length_fmap. lia.
Qed.

Lemma uncoveredTotals_eq report :
  uncoveredTotals report =
  (len (unc_Files report ≫= UncoveredFunctions),
   len (uncoveredEntries (unc_Files report))).
Proof.
  unfold uncoveredTotals, uncoveredEntries.
  induction (unc_Files report) as [|fu fus IH] using rev_ind; [done|].
  rewrite foldl_snoc, IH, !bind_app, !len_app. simpl. rewrite !app_nil_r.
  destruct fu as [filePath fns]. simpl.
  by rewrite (uncoveredTotals_inner filePath).
Qed.

Lemma uncovered_functions_le_entries s report :
  len (unc_Files (FindUncoveredLines s report).1 ≫= UncoveredFunctions) ≤
  len (uncoveredEntries (unc_Files (FindUncoveredLines s report).1)).
Proof.
  pose proof (uncovered_record_origin s report) as Horigin.
  assert (∀ fu r, fu ∈ unc_Files (FindUncoveredLines s report).1 →
            r ∈ UncoveredFunctions fu → UncoveredLineNumbers r ≠ []) as Hne.
  { intros fu r Hfu Hr.
    by destruct (Horigin fu r Hfu Hr) as (? & ? & _ & _ & _ & ? & _). }
  clear Horigin. unfold uncoveredEntries.
  induction (unc_Files (FindUncoveredLines s report).1) as [|fu fus IH]; [done|].
  rewrite !bind_cons, !len_app.
  assert (len (UncoveredFunctions fu) ≤ len (uncoveredEntriesOf fu)) as Hfu.
  { unfold uncoveredEntriesOf.
    assert (∀ r, r ∈ UncoveredFunctions fu → UncoveredLineNumbers r ≠ []) as Hne'
      by (intros r; apply Hne; left).
    clear IH Hne. induction (UncoveredFunctions fu) as [|r rs IHr]; [done|].
    rewrite bind_cons, len_app. unfold len in *. rewrite length_fmap. simpl.
    assert (UncoveredLineNumbers r ≠ []) as Hr by (apply Hne'; left).
    assert (∀ r, r ∈ rs → UncoveredLineNumbers r ≠ []) as Hrs
      by (intros r' Hr'; apply Hne'; by right).
    specialize (IHr Hrs). destruct (UncoveredLineNumbers r); [done|]. simpl. lia. }
  assert (len (fus ≫= UncoveredFunctions) ≤ len (fus ≫= uncoveredEntriesOf)) as Hfus.
  { apply IH. intros fu' r Hfu'. apply Hne. by right. }
  lia.
Qed.

(** X12.  The totals [FormatUncoveredReport] computes from the result of
    [FindUncoveredLines] on a report with pairwise distinct file paths: the
    number of uncovered lines is the number of zero-count lines of the
    report, the number of functions is at most that, and it is positive
    whenever the result lists a file. *)
Theorem uncovered_totals_count_the_zero_lines s report :
  uncovered_schedule_ok s report →
  NoDup (FilePath <$> Files report) →
  (uncoveredTotals (FindUncoveredLines s report).1).2 = len (zeroCountLines report) ∧
  (uncoveredTotals (FindUncoveredLines s report).1).1
    ≤ (uncoveredTotals (FindUncoveredLines s report).1).2 ∧
  (unc_Files (FindUncoveredLines s report).1 ≠ [] →
   0 < (uncoveredTotals (FindUncoveredLines s report).1).1).
Proof.
  intros Hok Hnd. rewrite uncoveredTotals_eq. cbn [fst snd].
  split_and!.
  - unfold len. f_equal. apply Permutation_length.
    by apply uncovered_entries_conserved.
  - apply uncovered_functions_le_entries.
  - intros Hne. pose proof (uncovered_files_nonempty s report) as Hall.
    destruct (unc_Files (FindUncoveredLines s report).1) as [|fu fus]; [done|].
    apply Forall_cons in Hall as [Hfu _].
    rewrite bind_cons, len_app. unfold len.
    destruct (UncoveredFunctions fu); [done|]. simpl. lia.
Qed.

(** * The helpers of the test suite *)

Lemma string_length_app (s1 s2 : string) :
  String.length (s1 +:+ s2) = (String.length s1 + String.length s2)%nat.
Proof. induction s1 as [|c s1 IH]; simpl; [done|]. by rewrite IH. Qed.

Lemma string_app_nil_l (s : string) : ("" +:+ s)%string = s.
Proof. done. Qed.

Lemma string_app_cons (c : ascii) (s1 s2 : string) :
  (String c s1 +:+ s2)%string = String c (s1 +:+ s2).
Proof. done. Qed.

Lemma substring_at_occurrence (pre substr post : string) :
  substring (String.length pre) (String.length substr) (pre +:+ substr +:+ post) = substr.
Proof.
  induction pre as [|c pre IH].
  - rewrite string_app_nil_l. simpl String.length at 1.
    induction substr as [|c substr IH].
    + rewrite string_app_nil_l. by destruct post.
    + rewrite string_app_cons. simpl. by rewrite IH.
  - rewrite string_app_cons. simpl. apply IH.
Qed.

Lemma substring_prefix (n : nat) (s : string) :
  (n ≤ String.length s)%nat → ∃ post, s = (substring 0 n s +:+ post)%string.
Proof.
  revert s. induction n as [|n IH]; intros s Hn.
  - exists s. by destruct s.
  - destruct s as [|c s]; simpl in Hn; [lia|].
    destruct (IH s) as [post Hpost]; [lia|].
    exists post. simpl substring. rewrite string_app_cons. by rewrite <- Hpost.
Qed.

Lemma substring_occurrence (i n : nat) (s : string) :
  (i + n ≤ String.length s)%nat →
  ∃ pre post, s = (pre +:+ substring i n s +:+ post)%string ∧ String.length pre = i.
Proof.
  revert s. induction i as [|i IH]; intros s Hn.
  - destruct (substring_prefix n s) as [post Hpost]; [lia|].
    by exists ""%string, post.
  - destruct s as [|c s]; simpl in Hn; [lia|].
    destruct (IH s) as (pre & post & Hs & Hlen); [lia|].
    exists (String c pre), post. rewrite string_app_cons. simpl.
    split; [by rewrite <- Hs | by rewrite Hlen].
Qed.

Lemma is_substring_at (substr s : string) :
  is_substring substr s ↔
  ∃ i : nat, (i + String.length substr ≤ String.length s)%nat ∧
    substring i (String.length substr) s = substr.
Proof.
  split.
  - intros (pre & post & ->). exists (String.length pre). split.
    + rewrite !string_length_app. lia.
    + apply substring_at_occurrence.
  - intros (i & Hi & Heq).
    destruct (substring_occurrence i (String.length substr) s Hi) as (pre & post & Hs & _).
    exists pre, post. by rewrite Heq in Hs.
Qed.

Lemma substringLoop_spec (s substr : string) (indices : list Z) :
  (∀ i, i ∈ indices → 0 ≤ i ∧ i + strLen substr ≤ strLen s) →
  ∃ b, substringLoop s substr indices = Some b ∧
    (b = true ↔ ∃ i, i ∈ indices ∧
       substring (Z.to_nat i) (String.length substr) s = substr).
Proof.
  induction indices as [|i rest IH]; intros Hin; simpl.
  - exists false. split; [done|]. split; [done|]. intros (i & Hi & _). by apply elem_of_nil in Hi.
  - destruct (Hin i) as [Hi0 Hi1]; [left|].
    unfold slice. rewrite bool_decide_eq_true_2 by (unfold strLen in *; lia).
    replace (Z.to_nat (i + strLen substr - i)) with (String.length substr)
      by (unfold strLen; lia).
    destruct (String.eqb_spec (substring (Z.to_nat i) (String.length substr) s) substr)
      as [Heq|Hne].
    + exists true. split; [done|]. split; [|done]. intros _. exists i. split; [left|done].
    + destruct IH as (b & -> & Hb); [intros j Hj; apply Hin; by right|].
      exists b. split; [done|]. rewrite Hb. split.
      * intros (j & Hj & Hjs). exists j. split; [by right|done].
      * intros (j & Hj & Hjs). apply elem_of_cons in Hj as [->|Hj]; [done|]. by exists j.
Qed.

Lemma substringLoop_all (s substr : string) :
  ∃ b, substringLoop s substr (seqZ 0 (strLen s - strLen substr + 1)) = Some b ∧
    (b = true ↔ is_substring substr s).
Proof.
  destruct (substringLoop_spec s substr (seqZ 0 (strLen s - strLen substr + 1)))
    as (b & Hrun & Hb).
  { intros i Hi%elem_of_seqZ. lia. }
  exists b. split; [done|]. rewrite Hb, is_substring_at. split.
  - intros (i & Hi%elem_of_seqZ & Heq). exists (Z.to_nat i). split; [|done].
    unfold strLen in Hi. lia.
  - intros (i & Hi & Heq). exists (Z.of_nat i). split.
    + apply elem_of_seqZ. unfold strLen. lia.
    + by rewrite Nat2Z.id.
Qed.

Lemma is_substring_length (substr s : string) :
  is_substring substr s → strLen substr ≤ strLen s.
Proof. intros (pre & post & ->). unfold strLen. rewrite !string_length_app. lia. Qed.

Lemma is_substring_refl (s : string) : is_substring s s.
Proof.
  exists ""%string, ""%string. rewrite string_app_nil_l.
  induction s as [|c s IH]; [done|]. rewrite string_app_cons. by rewrite <- IH.
Qed.

Lemma is_substring_empty (substr s : string) : strLen substr = 0 → is_substring substr s.
Proof.
  destruct substr; [|unfold strLen; simpl; lia]. intros _. by exists ""%string, s.
Qed.

(** X13.  The substring helpers of the test suite: [contains],
    [containsHelper] and [containsString] never slice out of range, they
    return the same answer, and the answer is [true] exactly when [substr]
    occurs in [s]. *)
Theorem contains_decides_substring (s substr : string) :
  ∃ b, contains s substr = Some b ∧ containsHelper s substr = Some b ∧
    containsString s substr = Some b ∧
    (b = true ↔ is_substring substr s).
Proof.
  destruct (substringLoop_all s substr) as (b & Hrun & Hb).
  unfold contains, containsString, containsHelper. exists b. rewrite Hrun.
  split_and!; [|done| |done].
  - destruct (decide (strLen s >= strLen substr)) as [Hlen|Hlen].
    + rewrite bool_decide_eq_true_2 by done.
      destruct (String.eqb_spec s substr) as [->|Hne].
      { f_equal. symmetry. apply Hb, is_substring_refl. }
      destruct (decide (strLen substr = 0)) as [Hempty|Hnonempty].
      * rewrite bool_decide_eq_true_2 by done.
        f_equal. symmetry. by apply Hb, is_substring_empty.
      * by rewrite bool_decide_eq_false_2.
    + rewrite bool_decide_eq_false_2 by done. f_equal.
      destruct b; [|done]. exfalso. apply Hlen.
      apply Z.le_ge, is_substring_length. by apply Hb.
  - destruct (decide (strLen substr = 0)) as [Hempty|Hnonempty].
    + rewrite bool_decide_eq_true_2 by done.
      f_equal. symmetry. by apply Hb, is_substring_empty.
    + by rewrite bool_decide_eq_false_2.
Qed.

(** * The further properties on concrete reports *)

(** Scenario 1: the record of [foo] comes from a covered line of [foo] in
    [t.cpp]. *)
Lemma increase_record_origin_witness :
  s1_record
    ∈ Increases (ComputeCoverageIncrease (visiting ["foo"] [1; 2; 3]) s1_base s1_new).1 ∧
  ∃ newFile l,
    newFile ∈ Files s1_new ∧ inc_File s1_record = FilePath newFile ∧
    l ∈ Lines newFile ∧ FunctionName l = inc_FunctionName s1_record ∧ 0 < Count l.
Proof.
  assert (H1 : s1_record ∈ Increases
                 (ComputeCoverageIncrease (visiting ["foo"] [1; 2; 3]) s1_base s1_new).1)
    by (vm_compute; left).
  split; [exact H1|].
  exact (increase_record_origin _ _ _ _ H1).
Defined.

(** Scenario 1: 2 lines increased, 1 covered before, 3 covered now, of 3. *)
Lemma increase_record_bounds_witness :
  diff_schedule_ok (visiting ["foo"] [1; 2; 3]) s1_base s1_new ∧
  s1_record
    ∈ Increases (ComputeCoverageIncrease (visiting ["foo"] [1; 2; 3]) s1_base s1_new).1 ∧
  LinesIncreased s1_record = len (IncreasedLineNumbers s1_record) ∧
  0 < LinesIncreased s1_record ∧
  LinesIncreased s1_record ≤ NewCoveredLines s1_record ∧
  NewCoveredLines s1_record ≤ inc_TotalLines s1_record ∧
  0 ≤ OldCoveredLines s1_record ∧
  OldCoveredLines s1_record + LinesIncreased s1_record ≤ inc_TotalLines s1_record.
Proof.
  assert (H1 : diff_schedule_ok (visiting ["foo"] [1; 2; 3]) s1_base s1_new)
    by diff_schedule_by_computation.
  assert (H2 : s1_record ∈ Increases
                 (ComputeCoverageIncrease (visiting ["foo"] [1; 2; 3]) s1_base s1_new).1)
    by (vm_compute; left).
  split_and!; [exact H1|exact H2|..];
    apply (increase_record_bounds _ _ _ _ H1 H2).
Defined.

(** The new report of the metrics test against itself. *)
Lemma self_diff_is_empty_witness :
  NoDup (FilePath <$> Files t_new) ∧
  ComputeCoverageIncrease (visiting ["foo"] [1; 2; 3; 4]) t_new t_new =
    (mkIncreaseReport [], None).
Proof.
  assert (H1 : NoDup (FilePath <$> Files t_new)).
  { apply (bool_decide_unpack _). vm_compute. exact I. }
  split; [exact H1|].
  exact (self_diff_is_empty _ _ H1).
Defined.

(** The grouping test: [file1.cpp] lists [foo] and [bar], once each. *)
Lemma uncovered_functions_listing_witness :
  uncovered_schedule_ok gf_schedule gf_report ∧
  gf_file1 ∈ unc_Files (FindUncoveredLines gf_schedule gf_report).1 ∧
  ∃ file,
    lastFileAt (Files gf_report) (fu_FilePath gf_file1) = Some file ∧
    NoDup (unc_FunctionName <$> UncoveredFunctions gf_file1) ∧
    (∀ funcName,
       funcName ∈ unc_FunctionName <$> UncoveredFunctions gf_file1 ↔
       ∃ l, l ∈ Lines file ∧ FunctionName l = funcName ∧ Count l = 0) ∧
    (∀ r lineNum,
       r ∈ UncoveredFunctions gf_file1 →
       lineNum ∈ UncoveredLineNumbers r ↔
       ∃ l, l ∈ Lines file ∧ FunctionName l = unc_FunctionName r ∧
            LineNumber l = lineNum ∧ Count l = 0).
Proof.
  assert (H1 : uncovered_schedule_ok gf_schedule gf_report)
    by uncovered_schedule_by_computation.
  assert (H2 : gf_file1 ∈ unc_Files (FindUncoveredLines gf_schedule gf_report).1)
    by (vm_compute; left).
  split_and!; [exact H1|exact H2|].
  exact (uncovered_functions_listing _ _ _ H1 H2).
Defined.

(** The statistics test: 3 covered lines and 2 uncovered ones, of 5. *)
Lemma uncovered_record_bounds_witness :
  mkFileUncovered "test.cpp" [st_record]
    ∈ unc_Files (FindUncoveredLines st_schedule st_report).1 ∧
  st_record ∈ UncoveredFunctions (mkFileUncovered "test.cpp" [st_record]) ∧
  0 ≤ CoveredLines st_record ≤ unc_TotalLines st_record ∧
  0 < len (UncoveredLineNumbers st_record) ∧
  (NoDup (FilePath <$> Files st_report) →
   CoveredLines st_record + len (UncoveredLineNumbers st_record)
     ≤ unc_TotalLines st_record).
Proof.
  assert (H1 : mkFileUncovered "test.cpp" [st_record]
                 ∈ unc_Files (FindUncoveredLines st_schedule st_report).1)
    by (vm_compute; left).
  assert (H2 : st_record ∈ UncoveredFunctions (mkFileUncovered "test.cpp" [st_record]))
    by (simpl; left).
  split_and!; [exact H1|exact H2|..];
    apply (uncovered_record_bounds _ _ _ _ H1 H2).
Defined.

(** The grouping test: its four zero-count lines, each listed once. *)
Lemma uncovered_lines_conserved_witness :
  uncovered_schedule_ok gf_schedule gf_report ∧
  NoDup (FilePath <$> Files gf_report) ∧
  uncoveredEntries (unc_Files (FindUncoveredLines gf_schedule gf_report).1)
    ≡ₚ zeroCountLines gf_report.
Proof.
  assert (H1 : uncovered_schedule_ok gf_schedule gf_report)
    by uncovered_schedule_by_computation.
  assert (H2 : NoDup (FilePath <$> Files gf_report)).
  { apply (bool_decide_unpack _). vm_compute. exact I. }
  split_and!; [exact H1|exact H2|].
  exact (uncovered_lines_conserved _ _ H1 H2).
Defined.

(** Scenario 1: line 2 of [foo], newly covered, is listed as uncovered in
    the base report. *)
Lemma newly_covered_was_uncovered_witness :
  NoDup (FilePath <$> Files s1_base) ∧
  uncovered_schedule_ok s1_uncoveredSchedule s1_base ∧
  s1_record
    ∈ Increases (ComputeCoverageIncrease (visiting ["foo"] [1; 2; 3]) s1_base s1_new).1 ∧
  2 ∈ IncreasedLineNumbers s1_record ∧
  s1_baseFile ∈ Files s1_base ∧
  FilePath s1_baseFile = inc_File s1_record ∧
  mkLine 2 "foo" 0 ∈ Lines s1_baseFile ∧
  ∃ fu ur,
    fu ∈ unc_Files (FindUncoveredLines s1_uncoveredSchedule s1_base).1 ∧
    fu_FilePath fu = inc_File s1_record ∧
    ur ∈ UncoveredFunctions fu ∧
    unc_FunctionName ur = inc_FunctionName s1_record ∧
    2 ∈ UncoveredLineNumbers ur.
Proof.
  assert (H1 : NoDup (FilePath <$> Files s1_base)).
  { apply (bool_decide_unpack _). vm_compute. exact I. }
  assert (H2 : uncovered_schedule_ok s1_uncoveredSchedule s1_base)
    by uncovered_schedule_by_computation.
  assert (H3 : s1_record ∈ Increases
                 (ComputeCoverageIncrease (visiting ["foo"] [1; 2; 3]) s1_base s1_new).1)
    by (vm_compute; left).
  assert (H4 : 2 ∈ IncreasedLineNumbers s1_record) by (simpl; right; left).
  assert (H5 : s1_baseFile ∈ Files s1_base) by (simpl; left).
  assert (H6 : FilePath s1_baseFile = inc_File s1_record) by reflexivity.
  assert (H7 : mkLine 2 "foo" 0 ∈ Lines s1_baseFile) by (simpl; right; left).
  split_and!; [exact H1|exact H2|exact H3|exact H4|exact H5|exact H6|exact H7|].
  exact (newly_covered_was_uncovered _ _ _ _ _ _ _ _ H1 H2 H3 H4 H5 H6 H7
           eq_refl eq_refl).
Defined.

(** The grouping test: the three records of the flat version are those of
    the grouped one. *)
Lemma flat_and_grouped_agree_witness :
  NoDup (FilePath <$> Files gf_report) ∧
  uncovered_schedule_ok gf_schedule gf_report ∧
  flat_schedule_ok gf_flatOrder gf_report ∧
  Flat.UncoveredFunctions (Flat.FindUncoveredLines gf_flatOrder gf_report).1 ≡ₚ
  flatten (unc_Files (FindUncoveredLines gf_schedule gf_report).1).
Proof.
  assert (H1 : NoDup (FilePath <$> Files gf_report)).
  { apply (bool_decide_unpack _). vm_compute. exact I. }
  assert (H2 : uncovered_schedule_ok gf_schedule gf_report)
    by uncovered_schedule_by_computation.
  assert (H3 : flat_schedule_ok gf_flatOrder gf_report).
  { intros i file Hi. destruct i as [|[|i]]; [| |discriminate Hi];
      injection Hi as <-; admissible_order. }
  split_and!; [exact H1|exact H2|exact H3|].
  exact (flat_and_grouped_agree _ _ _ H1 H2 H3).
Defined.

(** The grouping test: 3 functions and 4 uncovered lines in the header. *)
Lemma uncovered_totals_count_the_zero_lines_witness :
  uncovered_schedule_ok gf_schedule gf_report ∧
  NoDup (FilePath <$> Files gf_report) ∧
  (uncoveredTotals (FindUncoveredLines gf_schedule gf_report).1).2
    = len (zeroCountLines gf_report) ∧
  (uncoveredTotals (FindUncoveredLines gf_schedule gf_report).1).1
    ≤ (uncoveredTotals (FindUncoveredLines gf_schedule gf_report).1).2 ∧
  (unc_Files (FindUncoveredLines gf_schedule gf_report).1 ≠ [] →
   0 < (uncoveredTotals (FindUncoveredLines gf_schedule gf_report).1).1).
Proof.
  assert (H1 : uncovered_schedule_ok gf_schedule gf_report)
    by uncovered_schedule_by_computation.
  assert (H2 : NoDup (FilePath <$> Files gf_report)).
  { apply (bool_decide_unpack _). vm_compute. exact I. }
  split_and!; [exact H1|exact H2|..];
    apply (uncovered_totals_count_the_zero_lines _ _ H1 H2).
Defined.
